(** * zoning_report_card: the aggregation loader and the chart builders

    A shallow embedding of [streamlit_app.py].  The script reads one
    aggregation CSV per scenario, normalises the bucket counts into integer
    percentages, and builds one grouped and three stacked bar charts.

    Numbers are read twice.

    The first part takes the cells pandas hands back as exact rationals
    ([Qc], canonical fractions, so that equality of records is plain
    equality), with the rounding steps of the script ([round(x)],
    [round(x, 1)], [int(x)]) written out on them, and columns as numeric
    with a number in every cell, so that inside the loader only
    [pd.read_csv] can raise.  It carries what does not depend on how a
    number is stored: which columns and rows are read, which sources are
    selected, the shape, order and labels of the charts, the data behind
    the tables.

    The second part ([Np], [Machine]) takes the cells as they are:
    [numpy.int64] with wrap-around, [numpy.float64] in IEEE 754 binary64,
    [str], and Python's own int.  There every operator can raise, the whole
    body of the [try] block is under the handler, and [int(v)] in the
    grouped chart can fail.  The values of the percentages, the error path
    of the loader and the arithmetic of the grouped chart are settled
    there.

    Effects.  The script talks to the outside through [pd.read_csv] and
    through the Streamlit calls [st.error], [st.info] and [st.stop].  A run
    yields the log of these events next to its value; what [read_csv]
    answers for a locator is an input of the model. *)

From Stdlib Require Import ZArith QArith Qcanon Lia Lqa.
From Stdlib Require Import Floats.SpecFloat.
From stdpp Require Import base numbers list strings gmap pretty.

Local Open Scope Z_scope.

(** ** Python builtins on numbers *)

Module Py.

(** [round(x)] with no [ndigits]: the nearest integer, a tie going to the
    even neighbour. *)
Definition round_frac (n : Z) (d : positive) : Z :=
  let f := n / Z.pos d in
  let r := n mod Z.pos d in
  match Z.compare (2 * r) (Z.pos d) with
  | Lt => f
  | Gt => f + 1
  | Eq => if Z.even f then f else f + 1
  end.

Definition round (x : Qc) : Z := round_frac (Qnum x) (Qden x).

(** [round(x, 1)]: the nearest multiple of one tenth, ties to even. *)
Definition round1 (x : Qc) : Qc :=
  (Qc_of_Z (round (x * Qc_of_Z 10)) / Qc_of_Z 10)%Qc.

(** [int(x)]: truncation towards zero. *)
Definition int (x : Qc) : Z := Z.quot (Qnum x) (Z.pos (Qden x)).

(** [sum(xs)]: left fold of [+] from the integer 0. *)
Definition sum (xs : list Qc) : Qc := foldl Qcplus 0%Qc xs.

(** [sum] of a list of integers (the percentages). *)
Definition sumZ (xs : list Z) : Z := foldl Z.add 0 xs.

(** Boolean tests [x > 0] and [a > b]. *)
Definition gtb (a b : Qc) : bool := bool_decide (b < a)%Qc.

(** The two-argument [max(a, b)]: [b] only when it is strictly greater. *)
Definition max2 (a b : Qc) : Qc := if gtb b a then b else a.

(** [max(xs)] of a sequence; raises [ValueError] on an empty one, which
    is [None] here. *)
Definition max (xs : list Qc) : option Qc :=
  match xs with
  | [] => None
  | x :: rest => Some (foldl max2 x rest)
  end.

(** Truth value of a string that may be [None]: absent and empty are
    both false. *)
Definition truthy (s : option string) : bool :=
  match s with
  | Some (String _ _) => true
  | _ => false
  end.

End Py.

(** Rational literals of the script. *)
Definition qz (n : Z) : Qc := Qc_of_Z n.
Definition qfrac (n : Z) (d : positive) : Qc := Q2Qc (n # d).

(** ** The table read from a source *)

Module Pandas.

(** A parsed CSV: the header, and the data rows in file order.  A row
    gives the cell under each column label; only labels listed in
    [columns] are ever consulted. *)
Record DataFrame := {
  columns : list string;
  rows : list (string → Qc)
}.

(** [len(df)] *)
Definition len (df : DataFrame) : nat := length (rows df).

(** [column in df.columns] *)
Definition has_column (df : DataFrame) (column : string) : bool :=
  bool_decide (column ∈ columns df).


(** What [str(e)] and [traceback.format_exc()] give for a raised
    exception. *)
Record exn := Exn { exn_str : string; exn_traceback : string }.

End Pandas.
Import Pandas.

(** ** Runs and their event log *)

Inductive event :=
| EvReadCsv (url : string)     (* pd.read_csv(url) is attempted *)
| EvError (msg : string)       (* st.error(msg) *)
| EvInfo (msg : string)        (* st.info(msg) *)
| EvStop.                      (* st.stop() *)

(** A computation that logs events and returns a value. *)
Definition run (A : Type) : Type := (list event * A)%type.

Global Instance run_ret : MRet run := λ A x, ([], x).
Global Instance run_bind : MBind run := λ A B f m,
  let '(l1, a) := m in let '(l2, b) := f a in (l1 ++ l2, b).

Definition emit (e : event) : run unit := ([e], tt).
Definition log {A} (m : run A) : list event := fst m.
Definition result {A} (m : run A) : A := snd m.

(** The locators passed to [read_csv], and the messages passed to
    [st.error], of a log. *)
Definition reads (l : list event) : list string :=
  omap (λ e, match e with EvReadCsv u => Some u | _ => None end) l.
Definition errors (l : list event) : list string :=
  omap (λ e, match e with EvError m => Some m | _ => None end) l.

(** ** The scenario record *)

Record ScenarioRecord := {
  scenario_name : string;
  income_values : list Qc;
  income_pct : list Z;
  bedroom_values : list Qc;
  bedroom_pct : list Z;
  parking_values : list Qc;
  parking_pct : list Z;
  total_units : Qc;
  affordable_units : Qc
}.

(** The fixed column vocabulary, in the order the loader reads it. *)
Definition income_columns : list string :=
  ["marketUnits050Sum"; "marketUnits51100Sum"; "marketUnits101150Sum";
   "marketUnits151200Sum"; "marketUnits201250Sum"; "marketUnits251Sum"].
Definition bedroom_columns : list string :=
  ["countMarket0BrSum"; "countMarket1BrSum"; "countMarket2BrSum";
   "countMarket3BrSum"].
Definition parking_columns : list string :=
  ["surfaceParkingStallsSum"; "garageParkingStallsSum";
   "podiumParkingStallsSum"; "structuredParkingStallsSum";
   "undergroundParkingStallsSum"].

(** ** The loader *)

(** The inner helper [get_value]: the first row's cell, or 0. *)
Definition get_value (df : DataFrame) (column : string) : Qc :=
  if has_column df column && bool_decide (0 < len df)%nat then
    match rows df with
    | row :: _ => row column
    | [] => 0%Qc
    end
  else 0%Qc.

(** [[round(v / total * 100) if total > 0 else 0 for v in values]] *)
Definition percentages (values : list Qc) : list Z :=
  let total := Py.sum values in
  (λ v, if Py.gtb total 0 then Py.round (v / total * qz 100)%Qc else 0)
    <$> values.

(** The body of the [try] block once the table is there. *)
Definition build_record (df : DataFrame) (name : string) : ScenarioRecord :=
  let income := get_value df <$> income_columns in
  let bedroom := get_value df <$> bedroom_columns in
  let parking := get_value df <$> parking_columns in
  {| scenario_name := name;
     income_values := Py.round1 <$> income;
     income_pct := percentages income;
     bedroom_values := Py.round1 <$> bedroom;
     bedroom_pct := percentages bedroom;
     parking_values := Py.round1 <$> parking;
     parking_pct := percentages parking;
     total_units := get_value df "totalUnitsSum";
     affordable_units := get_value df "affordableUnitsSum" |}.

Section Loader.

(** The outside world: what [pd.read_csv] answers for a locator, a table
    or a raised exception. *)
Variable read_csv : string → exn + DataFrame.

(** [load_data_from_aggregation_csv].  The guard on the locator returns
    before anything is read; a raised [read_csv] reaches the handler, which
    reports the message, then the traceback, and returns [None]. *)
Definition load_data_from_aggregation_csv
    (url : option string) (scenario_name : string)
    : run (option ScenarioRecord) :=
  match url with
  | Some (String _ _ as u) =>
      _ ← emit (EvReadCsv u);
      match read_csv u with
      | inr df => mret (Some (build_record df scenario_name))
      | inl e =>
          _ ← emit (EvError ("Error loading CSV data from " +:+ u +:+ ": "
                               +:+ exn_str e));
          _ ← emit (EvError (exn_traceback e));
          mret None
      end
  | _ => mret None
  end.

End Loader.

(** ** Colour tables and category labels *)

Definition total_feasibility_color : string := "#D66E6C".

Definition income_bracket_colors : gmap string string :=
  list_to_map [("<=50% MFI", "#5DBDB4"); ("51%-100% MFI", "#F07D4A");
               ("101-150% MFI", "#6FB573"); ("151-200% MFI", "#F4C04E");
               ("201-250% MFI", "#D66E6C"); (">251% MFI", "#6B9BD1")].

Definition bedroom_count_colors : gmap string string :=
  list_to_map [("0 bedrooms", "#6FB573"); ("1 bedroom", "#F4C04E");
               ("2 bedrooms", "#D66E6C"); ("3+ bedrooms", "#6B9BD1")].

Definition parking_type_colors : gmap string string :=
  list_to_map [("Surface", "#6FB573"); ("Garage", "#F4C04E");
               ("Podium", "#D66E6C"); ("Structured", "#6B9BD1");
               ("Underground", "#5DBDB4")].

Definition income_brackets : list string :=
  ["<=50% MFI"; "51%-100% MFI"; "101-150% MFI"; "151-200% MFI";
   "201-250% MFI"; ">251% MFI"].
Definition bedroom_counts : list string :=
  ["0 bedrooms"; "1 bedroom"; "2 bedrooms"; "3+ bedrooms"].
Definition parking_types : list string :=
  ["Surface"; "Garage"; "Podium"; "Structured"; "Underground"].

(** ** Figures *)

(** One [go.Bar] trace; [V] is the type of the plotted numbers. *)
Record Bar (V : Type) := {
  bar_name : string;
  bar_x : list string;
  bar_y : list V;
  bar_marker_color : string;
  bar_text : list string;
  bar_hovertemplate : string;
  bar_customdata : option (list V)
}.
Arguments bar_name {V}.
Arguments bar_x {V}.
Arguments bar_y {V}.
Arguments bar_marker_color {V}.
Arguments bar_text {V}.
Arguments bar_hovertemplate {V}.
Arguments bar_customdata {V}.

(** A [go.Figure]: its traces in the order they were added, and the parts
    of the layout that tell the two chart kinds apart. *)
Record Figure (V : Type) := {
  traces : list (Bar V);
  barmode : string;
  height : Z
}.
Arguments traces {V}.
Arguments barmode {V}.
Arguments height {V}.

(** ** The chart builders *)

(** The [values] of category number [i]:
    [[d[data_key][i] for d in all_data]] under the key's branch.  [None]
    when no branch binds [values] (unknown key) or an index is out of
    range. *)
Definition category_values (all_data : list ScenarioRecord)
    (data_key : string) (i : nat) : option (list Z) :=
  if bool_decide (data_key = "income_pct") then
    mapM (λ d, income_pct d !! i) all_data
  else if bool_decide (data_key = "bedroom_pct") then
    mapM (λ d, bedroom_pct d !! i) all_data
  else if bool_decide (data_key = "parking_pct") then
    mapM (λ d, parking_pct d !! i) all_data
  else None.

(** The trace of category number [i]. *)
Definition stacked_trace (all_data : list ScenarioRecord)
    (data_key : string) (colors : gmap string string)
    (i : nat) (category : string) : option (Bar Z) :=
  values ← category_values all_data data_key i;
  color ← colors !! category;
  Some {| bar_name := category;
          bar_x := scenario_name <$> all_data;
          bar_y := values;
          bar_marker_color := color;
          bar_text := (λ v, if bool_decide (0 < v) then pretty v +:+ "%"
                            else EmptyString) <$> values;
          bar_hovertemplate := category +:+ ": %{y}%<extra></extra>";
          bar_customdata := None |}.

(** [create_multi_scenario_stacked_chart]; [None] stands for a raised
    exception (unknown key, short percentage list, missing colour). *)
Definition create_multi_scenario_stacked_chart
    (all_data : list ScenarioRecord) (categories : list string)
    (data_key : string) (colors : gmap string string)
    : option (Figure Z) :=
  bars ← mapM (λ ic, stacked_trace all_data data_key colors ic.1 ic.2)
              (imap pair categories);
  Some {| traces := bars; barmode := "stack"; height := 600 |}.

(** [max(max(total), max(affordable))]; [None] when either list is
    empty ([max] raises [ValueError]). *)
Definition max_value (total affordable : list Qc) : option Qc :=
  max_total ← Py.max total;
  max_affordable ← Py.max affordable;
  Some (Py.max2 max_total max_affordable).

(** [max_value * 0.01] *)
Definition min_display_value (total affordable : list Qc) : option Qc :=
  (λ m, m * qfrac 1 100)%Qc <$> max_value total affordable.

(** [[val if val > 0 else min_display_value for val in affordable]] *)
Definition affordable_display (min_display : Qc) (affordable : list Qc)
    : list Qc :=
  (λ val, if Py.gtb val 0 then val else min_display) <$> affordable.

(** [create_total_feasibility_chart_grouped]; [None] stands for a raised
    exception (a missing key, or [max] of an empty list). *)
Definition create_total_feasibility_chart_grouped
    (scenario_names : list string) (total_data_dict : gmap string (list Qc))
    (color : string) : option (Figure Qc) :=
  total ← total_data_dict !! "Total Units";
  let total_bar :=
    {| bar_name := "Total Units";
       bar_x := scenario_names;
       bar_y := total;
       bar_marker_color := color;
       bar_text := (λ v, pretty (Py.int v)) <$> total;
       bar_hovertemplate := "Total Units: %{y}<extra></extra>";
       bar_customdata := None |} in
  affordable ← total_data_dict !! "Affordable Units";
  min_display ← min_display_value total affordable;
  let affordable_bar :=
    {| bar_name := "Affordable Units";
       bar_x := scenario_names;
       bar_y := affordable_display min_display affordable;
       bar_marker_color := "#5DBDB4";
       bar_text := (λ actual, if Py.gtb actual 0
                              then pretty (Py.int actual) else EmptyString)
                     <$> affordable;
       bar_hovertemplate := "Affordable Units: %{customdata}<extra></extra>";
       bar_customdata := Some affordable |} in
  Some {| traces := [total_bar; affordable_bar];
          barmode := "group"; height := 400 |}.

(** ** The script body *)

Definition default_unzoned_url : string :=
  "https://firebasestorage.googleapis.com/v0/b/mapcraftlabs.appspot.com/o/labs_data%2FStandardCalifornia%2Fsimulations%2F-OgEbfYts3K-dWHr0Shp%2Faggregations%2Ffull_aggregations.csv?alt=media&token=b1fabf4c-9dec-4a55-8136-7bf90585f5d5".
Definition default_zoned_url : string :=
  "https://firebasestorage.googleapis.com/v0/b/mapcraftlabs.appspot.com/o/labs_data%2FStandardCalifornia%2Fsimulations%2F-OgEbczgKYktEp6MlRzz%2Faggregations%2Ffull_aggregations.csv?alt=media&token=91f1a256-394e-47cf-a7d1-2b5920bbeba4".

(** An entry of [zoned_scenarios]: the dict with keys "url" and "name". *)
Record scenario := { url : string; name : string }.

(** What a page load ends in: [st.stop()], an uncaught exception, or the
    four charts. *)
Record dashboard := {
  fig_total : Figure Qc;
  fig_income : Figure Z;
  fig_bedrooms : Figure Z;
  fig_parking : Figure Z
}.

Inductive outcome :=
| Stopped
| Raised
| Rendered (d : dashboard).

Section Main.

Variable read_csv : string → exn + DataFrame.

(** [urllib.parse.unquote] *)
Variable unquote : string → string.

(** [st.query_params] *)
Variable params : gmap string string.

Definition unzoned_csv_url : string :=
  match params !! "unzoned_url" with
  | Some (String _ _ as u) => unquote u
  | _ => default_unzoned_url
  end.

(** One turn of the loop over [range(1, 10)]: the entry appended for
    slot [i], if any. *)
Definition zoned_slot (i : nat) : option scenario :=
  let url0 := params !! ("zoned_url_" +:+ pretty i) in
  let url1 :=
    if Py.truthy url0 then unquote <$> url0
    else if negb (Py.truthy url0) && bool_decide (i < 3)%nat
         then Some default_zoned_url
         else url0 in
  match url1 with
  | Some (String _ _ as u) =>
      Some {| url := u; name := "Scenario " +:+ pretty i |}
  | _ => None
  end.

Definition zoned_scenarios : list scenario := omap zoned_slot (seq 1 9).

(** [if data: all_data.append(data)] *)
Definition append_if (all_data : list ScenarioRecord)
    (data : option ScenarioRecord) : list ScenarioRecord :=
  match data with
  | Some d => all_data ++ [d]
  | None => all_data
  end.

(** The loop over [zoned_scenarios]. *)
Fixpoint load_scenarios (scs : list scenario)
    (all_data : list ScenarioRecord) : run (list ScenarioRecord) :=
  match scs with
  | [] => mret all_data
  | sc :: rest =>
      data ← load_data_from_aggregation_csv read_csv (Some (url sc)) (name sc);
      load_scenarios rest (append_if all_data data)
  end.

(** "Load all data": the baseline first, then the scenarios. *)
Definition load_all (unzoned : string) (scs : list scenario)
    : run (list ScenarioRecord) :=
  all_data ←
    (if Py.truthy (Some unzoned) then
       data ← load_data_from_aggregation_csv read_csv (Some unzoned) "Unzoned";
       mret (append_if [] data)
     else mret []);
  load_scenarios scs all_data.

(** The four chart calls on the loaded records. *)
Definition render (all_data : list ScenarioRecord) : outcome :=
  let scenario_names := scenario_name <$> all_data in
  let total_data_dict : gmap string (list Qc) :=
    <["Affordable Units" := affordable_units <$> all_data]>
      {["Total Units" := total_units <$> all_data]} in
  match
    create_total_feasibility_chart_grouped
      scenario_names total_data_dict total_feasibility_color,
    create_multi_scenario_stacked_chart
      all_data income_brackets "income_pct" income_bracket_colors,
    create_multi_scenario_stacked_chart
      all_data bedroom_counts "bedroom_pct" bedroom_count_colors,
    create_multi_scenario_stacked_chart
      all_data parking_types "parking_pct" parking_type_colors
  with
  | Some t, Some i, Some b, Some p =>
      Rendered {| fig_total := t; fig_income := i;
                  fig_bedrooms := b; fig_parking := p |}
  | _, _, _, _ => Raised
  end.

Definition main : run outcome :=
  let unzoned := unzoned_csv_url in
  let scs := zoned_scenarios in
  if negb (Py.truthy (Some unzoned)) && bool_decide (scs = []) then
    _ ← emit (EvError "Data not found. Please provide 'unzoned_url' and/or 'zoned_url' query parameters.");
    _ ← emit (EvInfo "Example: ?unzoned_url=https://example.com/unzoned.csv&zoned_url_1=https://example.com/zoned1.csv&zoned_url_2=https://example.com/zoned2.csv");
    _ ← emit EvStop;
    mret Stopped
  else
    all_data ← load_all unzoned scs;
    match all_data with
    | [] =>
        _ ← emit (EvError "Failed to load any data. Please check the URLs and try again.");
        _ ← emit EvStop;
        mret Stopped
    | _ => mret (render all_data)
    end.

End Main.

(** ** The data behind the tables *)

(** [{label: [] for label in labels}] *)
Definition empty_columns {A} (labels : list string) : gmap string (list A) :=
  list_to_map ((λ label, (label, [])) <$> labels).

(** [dict[key].append(x)]; [None] stands for the [KeyError] of a missing
    key. *)
Definition append_to {A} (key : string) (x : A)
    (dict : gmap string (list A)) : option (gmap string (list A)) :=
  column ← dict !! key;
  Some (<[key := column ++ [x]]> dict).

(** The inner loop [for i, label in enumerate(labels)] for one record,
    over the pairs [(i, label)] that are left: the record's value and
    percentage at [i] are appended under [label] in the two dicts.
    [None] stands for the [IndexError] of a list that is too short. *)
Fixpoint fill_record {A B} (ils : list (nat * string))
    (values : list A) (pcts : list B)
    (dicts : gmap string (list A) * gmap string (list B))
    : option (gmap string (list A) * gmap string (list B)) :=
  match ils with
  | [] => Some dicts
  | (i, label) :: rest =>
      v ← values !! i;
      data_values ← append_to label v dicts.1;
      p ← pcts !! i;
      data_pct ← append_to label p dicts.2;
      fill_record rest values pcts (data_values, data_pct)
  end.

(** The outer loop [for data in all_data]. *)
Fixpoint fill_all {A B} (labels : list string)
    (sel_values : ScenarioRecord → list A) (sel_pct : ScenarioRecord → list B)
    (all_data : list ScenarioRecord)
    (dicts : gmap string (list A) * gmap string (list B))
    : option (gmap string (list A) * gmap string (list B)) :=
  match all_data with
  | [] => Some dicts
  | data :: rest =>
      dicts' ← fill_record (imap pair labels)
                 (sel_values data) (sel_pct data) dicts;
      fill_all labels sel_values sel_pct rest dicts'
  end.

(** The two dicts of a breakdown, [..._data_values] and [..._data_pct]. *)
Definition breakdown_data {A B} (labels : list string)
    (sel_values : ScenarioRecord → list A) (sel_pct : ScenarioRecord → list B)
    (all_data : list ScenarioRecord)
    : option (gmap string (list A) * gmap string (list B)) :=
  fill_all labels sel_values sel_pct all_data
    (empty_columns labels, empty_columns labels).

Definition income_data (all_data : list ScenarioRecord) :=
  breakdown_data income_brackets income_values income_pct all_data.
Definition bedroom_data (all_data : list ScenarioRecord) :=
  breakdown_data bedroom_counts bedroom_values bedroom_pct all_data.
Definition parking_data (all_data : list ScenarioRecord) :=
  breakdown_data parking_types parking_values parking_pct all_data.

(** [pd.DataFrame(dict, index=index).T] for a dict whose keys were
    inserted in the order of [labels]: one row per label, one column per
    index entry.  [None] stands for the [ValueError] of a column whose
    length is not that of the index. *)
Definition transposed_frame {A} (labels : list string)
    (dict : gmap string (list A)) (index : list string)
    : option (list (string * list A)) :=
  mapM (λ label,
          column ← dict !! label;
          if bool_decide (length column = length index)
          then Some (label, column) else None)
       labels.

(** ** Statements and inputs used by the properties *)

(** The records have an entry for every label, in both selected lists. *)
Definition long_enough {A B} (labels : list string)
    (sel_values : ScenarioRecord → list A) (sel_pct : ScenarioRecord → list B)
    (all_data : list ScenarioRecord) : Prop :=
  Forall (λ d, (length labels ≤ length (sel_values d))%nat
               ∧ (length labels ≤ length (sel_pct d))%nat) all_data.

(** Column [i] of a breakdown: entry [i] of the selected list of each
    record, in record order. *)
Definition column_of {A} (sel : ScenarioRecord → list A) (i : nat)
    (all_data : list ScenarioRecord) : list A :=
  omap (λ d, sel d !! i) all_data.


(** A one-row table given by its cells, header in the order listed. *)
Definition row_of (cells : list (string * Qc)) : string → Qc :=
  λ c, default 0%Qc ((list_to_map cells : gmap string Qc) !! c).

Definition table_of (rows_cells : list (string * Qc)) : DataFrame :=
  {| columns := fst <$> rows_cells; rows := [row_of rows_cells] |}.

(** A source answering every locator with the same table, and one that
    always fails. *)
Definition serve (df : DataFrame) : string → exn + DataFrame := λ _, inr df.
Definition unreachable : string → exn + DataFrame :=
  λ _, inl (Exn "HTTP Error 404: Not Found" "Traceback (most recent call last): ...").

(** Three equal income buckets. *)
Definition thirds_df : DataFrame :=
  table_of [("marketUnits050Sum", qz 1); ("marketUnits51100Sum", qz 1);
            ("marketUnits101150Sum", qz 1); ("totalUnitsSum", qz 3)].

(** Two income buckets of 0.04 units each. *)
Definition fractional_df : DataFrame :=
  table_of [("marketUnits050Sum", qfrac 4 100);
            ("marketUnits51100Sum", qfrac 4 100)].


(** A header and no data row; and a table with none of the documented
    columns. *)
Definition header_only_df : DataFrame :=
  {| columns := ["marketUnits050Sum"; "totalUnitsSum"]; rows := [] |}.
Definition foreign_df : DataFrame :=
  table_of [("parcel_id", qz 17); ("acres", qfrac 5 2)].

(** Every column the loader asks for. *)
Definition documented_columns : list string :=
  income_columns ++ bedroom_columns ++ parking_columns
  ++ ["totalUnitsSum"; "affordableUnitsSum"].

(** The all-zero record. *)
Definition zero_record (name : string) : ScenarioRecord :=
  {| scenario_name := name;
     income_values := replicate 6 0%Qc;
     income_pct := replicate 6 0;
     bedroom_values := replicate 4 0%Qc;
     bedroom_pct := replicate 4 0;
     parking_values := replicate 5 0%Qc;
     parking_pct := replicate 5 0;
     total_units := 0%Qc;
     affordable_units := 0%Qc |}.

(** Equality of short lists of rationals, entry by entry. *)
Ltac qc_list :=
  repeat (apply (f_equal2 cons);
          [apply Qc_is_canon; vm_compute; reflexivity|]);
  reflexivity.


(** [m] is the greatest entry of [xs]. *)
Definition is_max_of (m : Qc) (xs : list Qc) : Prop :=
  m ∈ xs ∧ ∀ v, v ∈ xs → (v ≤ m)%Qc.

(** The field of a record a [data_key] names. *)
Definition pct_of_key (data_key : string)
    : option (ScenarioRecord → list Z) :=
  if bool_decide (data_key = "income_pct") then Some income_pct
  else if bool_decide (data_key = "bedroom_pct") then Some bedroom_pct
  else if bool_decide (data_key = "parking_pct") then Some parking_pct
  else None.

(** The income chart of two scenarios that both load [thirds_df]. *)
Definition thirds_fig : Figure Z :=
  Eval vm_compute in
    default {| traces := []; barmode := EmptyString; height := 0 |}
      (create_multi_scenario_stacked_chart
         [build_record thirds_df "Unzoned"; build_record thirds_df "Scenario 1"]
         income_brackets "income_pct" income_bracket_colors).

(** A record as the loader builds them. *)
Definition loaded (d : ScenarioRecord) : Prop :=
  ∃ df label, d = build_record df label.



(** [thirds_df] with its columns in another order, a column the loader
    does not know, and a second data row. *)
Definition thirds_reordered_df : DataFrame :=
  {| columns := ["parcel_id"; "totalUnitsSum"; "marketUnits101150Sum";
                 "marketUnits51100Sum"; "marketUnits050Sum"];
     rows := [row_of [("parcel_id", qz 17); ("totalUnitsSum", qz 3);
                      ("marketUnits101150Sum", qz 1);
                      ("marketUnits51100Sum", qz 1);
                      ("marketUnits050Sum", qz 1)];
              row_of [("parcel_id", qz 18); ("totalUnitsSum", qz 40)]] |}.

(** The baseline as a source: its locator under the name the script
    gives it. *)
Definition baseline (u : string) : scenario :=
  {| url := u; name := "Unzoned" |}.

(** What a source contributes to a page: its record, when the locator is
    not empty and the read parses. *)
Definition parsed (read_csv : string → exn + DataFrame) (sc : scenario)
    : option ScenarioRecord :=
  if bool_decide (url sc = EmptyString) then None
  else match read_csv (url sc) with
       | inr df => Some (build_record df (name sc))
       | inl _ => None
       end.

(** The sources of a page load, baseline first. *)
Definition sources (unquote : string → string) (params : gmap string string)
    : list scenario :=
  baseline (unzoned_csv_url unquote params) :: zoned_scenarios unquote params.

(** The query-parameter key of scenario slot [i], and the name the script
    gives the slot. *)
Definition zoned_key (i : nat) : string := "zoned_url_" +:+ pretty i.
Definition slot_name (i : nat) : string := "Scenario " +:+ pretty i.

(** A decoder that never turns a non-empty locator into the empty one. *)
Definition keeps_nonempty (unquote : string → string) : Prop :=
  ∀ s, s ≠ EmptyString → unquote s ≠ EmptyString.

(** The events a loader run can log: a read, or an error report. *)
Definition loader_event (e : event) : Prop :=
  match e with
  | EvReadCsv _ | EvError _ => True
  | EvInfo _ | EvStop => False
  end.

(** The dict the script fills for the totals chart and table. *)
Definition total_data_of (all_data : list ScenarioRecord)
    : gmap string (list Qc) :=
  <["Affordable Units" := affordable_units <$> all_data]>
    {["Total Units" := total_units <$> all_data]}.

(** Query parameters that name a locator for slot 3 only. *)
Definition only_slot_3 : gmap string string :=
  {["zoned_url_3" := "https://example.com/zoned3.csv"]}.

(** What the script logs when no source gave a record. *)
Definition no_data_tail : list event :=
  [EvError "Failed to load any data. Please check the URLs and try again.";
   EvStop].


(** The totals of two scenarios, the first with no affordable unit. *)
Definition two_totals : gmap string (list Qc) :=
  <["Affordable Units" := [0%Qc; qfrac 1 2]]>
    {["Total Units" := [qz 400; qfrac 9999 10]]}.

(** * The script on the scalars pandas returns

    The second reading of the numbers.  A cell of a parsed table is a
    [numpy.int64], a [numpy.float64] (a blank cell is the float NaN) or, in
    a column that is not numeric, a [str]; [get_value] adds Python's own
    [0].  The operators of the script are written out on these: [int64]
    addition wraps around, every float operation is the IEEE 754 binary64
    one (round to nearest, ties to even) of [SpecFloat], mixed operands are
    first brought to a common type as numpy does, and an operator that
    Python refuses raises. *)

(** ** Exceptions *)

Inductive error :=
| TypeError
| ValueError
| OverflowError
| ZeroDivisionError
| KeyError.

(** A computation that returns a value or raises. *)
Definition raises (A : Type) : Type := (error + A)%type.

Global Instance raises_ret : MRet raises := λ A x, inr x.
Global Instance raises_bind : MBind raises := λ A B f m,
  match m with
  | inl e => inl e
  | inr x => f x
  end.

Definition raise {A} (e : error) : raises A := inl e.

(** ** numpy scalars and Python's operators on them *)

Module Np.

(** binary64: 53 bits of precision, exponents below 1024. *)
Definition prec : Z := 53.
Definition emax : Z := 1024.

Definition fadd : spec_float → spec_float → spec_float := SFadd prec emax.
Definition fmul : spec_float → spec_float → spec_float := SFmul prec emax.
Definition fdiv : spec_float → spec_float → spec_float := SFdiv prec emax.

(** The float nearest to an integer, as a C cast or [float(n)] gives it. *)
Definition of_Z (z : Z) : spec_float := binary_normalize prec emax z 0 false.

(** The literals [100], [10] and [0.01] as floats; [0.01] is the float
    nearest to one hundredth. *)
Definition hundred : spec_float := Eval vm_compute in of_Z 100.
Definition ten : spec_float := Eval vm_compute in of_Z 10.
Definition hundredth : spec_float :=
  Eval vm_compute in fdiv (of_Z 1) (of_Z 100).

Definition is_finite (f : spec_float) : bool :=
  match f with
  | S754_zero _ | S754_finite _ _ _ => true
  | S754_infinity _ | S754_nan => false
  end.

(** The integer nearest to [±m·2^e], a tie going to the even neighbour;
    and the integer next to it on the side of 0. *)
Definition nearest (s : bool) (m : positive) (e : Z) : Z :=
  match e with
  | Zneg k => Py.round_frac (cond_Zopp s (Z.pos m)) (2 ^ k)%positive
  | _ => cond_Zopp s (Z.pos m) * 2 ^ e
  end.

Definition trunc (s : bool) (m : positive) (e : Z) : Z :=
  match e with
  | Zneg k => Z.quot (cond_Zopp s (Z.pos m)) (Z.pos (2 ^ k))
  | _ => cond_Zopp s (Z.pos m) * 2 ^ e
  end.

(** [np.rint]: the nearest integer as a float; the sign of a zero result
    is that of the argument. *)
Definition rint (f : spec_float) : spec_float :=
  match f with
  | S754_finite s m (Zneg k) =>
      binary_normalize prec emax (nearest s m (Zneg k)) 0 s
  | _ => f
  end.

(** [round(x)] of a float, with no [ndigits]: a Python int;
    [ValueError] on NaN, [OverflowError] on an infinity. *)
Definition round (f : spec_float) : raises Z :=
  match f with
  | S754_nan => raise ValueError
  | S754_infinity _ => raise OverflowError
  | S754_zero _ => mret 0
  | S754_finite s m e => mret (nearest s m e)
  end.

(** What the script computes with.  Columns that pandas reads as booleans
    or as unsigned or arbitrary-size integers are left out. *)
Inductive value :=
| PyInt (z : Z)              (* a Python int *)
| Int64 (z : Z)              (* numpy.int64 *)
| Float64 (f : spec_float)   (* numpy.float64 *)
| Str (s : string).          (* a cell of a column of text *)

(** [int64] arithmetic keeps the low 64 bits, in two's complement. *)
Definition wrap (z : Z) : Z := (z + 2 ^ 63) mod 2 ^ 64 - 2 ^ 63.

(** A Python int that meets a numpy scalar is first made a scalar of that
    type; one that does not fit raises. *)
Definition int64_of_int (z : Z) : raises Z :=
  if bool_decide (- 2 ^ 63 ≤ z < 2 ^ 63) then mret z else raise OverflowError.

Definition float_of_int (z : Z) : raises spec_float :=
  match of_Z z with
  | S754_infinity _ => raise OverflowError
  | f => mret f
  end.

Definition to_float (v : value) : raises spec_float :=
  match v with
  | PyInt z => float_of_int z
  | Int64 z => mret (of_Z z)
  | Float64 f => mret f
  | Str _ => raise TypeError
  end.

(** [a + b] *)
Definition add (a b : value) : raises value :=
  match a, b with
  | PyInt x, PyInt y => mret (PyInt (x + y))
  | PyInt x, Int64 y => x' ← int64_of_int x; mret (Int64 (wrap (x' + y)))
  | Int64 x, PyInt y => y' ← int64_of_int y; mret (Int64 (wrap (x + y')))
  | Int64 x, Int64 y => mret (Int64 (wrap (x + y)))
  | Str s, Str t => mret (Str (s +:+ t))
  | Str _, _ | _, Str _ => raise TypeError
  | _, _ => f ← to_float a; g ← to_float b; mret (Float64 (fadd f g))
  end.

(** [a > b]; a comparison with NaN is false. *)
Definition gt (a b : value) : raises bool :=
  match a, b with
  | PyInt x, PyInt y | PyInt x, Int64 y | Int64 x, PyInt y | Int64 x, Int64 y =>
      mret (bool_decide (y < x))
  | Str s, Str t => mret (String.ltb t s)
  | Str _, _ | _, Str _ => raise TypeError
  | _, _ => f ← to_float a; g ← to_float b; mret (SFltb g f)
  end.

(** [x / y] of two Python ints: the float nearest to the quotient. *)
Definition raw (z : Z) : spec_float :=
  match z with
  | Z0 => S754_zero false
  | Z.pos p => S754_finite false p 0
  | Z.neg p => S754_finite true p 0
  end.

Definition int_truediv (x y : Z) : raises spec_float :=
  if bool_decide (y = 0) then raise ZeroDivisionError
  else match fdiv (raw x) (raw y) with
       | S754_infinity _ => raise OverflowError
       | q => mret q
       end.

(** [a / b]: always a float; numpy divides by zero without raising. *)
Definition truediv (a b : value) : raises spec_float :=
  match a, b with
  | PyInt x, PyInt y => int_truediv x y
  | PyInt x, Int64 y => x' ← int64_of_int x; mret (fdiv (of_Z x') (of_Z y))
  | Int64 x, PyInt y => y' ← int64_of_int y; mret (fdiv (of_Z x) (of_Z y'))
  | _, _ => f ← to_float a; g ← to_float b; mret (fdiv f g)
  end.

(** [a * c] for a float [c] *)
Definition mul_float (a : value) (c : spec_float) : raises spec_float :=
  f ← to_float a; mret (fmul f c).

(** [round(v, 1)]: an int is returned as it is; on a float numpy computes
    [rint(v * 10) / 10]. *)
Definition round1 (v : value) : raises value :=
  match v with
  | PyInt z => mret (PyInt z)
  | Int64 z => mret (Int64 z)
  | Float64 f => mret (Float64 (fdiv (rint (fmul f ten)) ten))
  | Str _ => raise TypeError
  end.

(** [int(v)]: truncation; [int_of_str] is Python's reading of a string as
    an integer literal. *)
Definition int (int_of_str : string → raises Z) (v : value) : raises Z :=
  match v with
  | PyInt z | Int64 z => mret z
  | Float64 S754_nan => raise ValueError
  | Float64 (S754_infinity _) => raise OverflowError
  | Float64 (S754_zero _) => mret 0
  | Float64 (S754_finite s m e) => mret (trunc s m e)
  | Str s => int_of_str s
  end.

(** [sum(xs)]: [+] from the left, starting from the int 0. *)
Fixpoint sum_from (acc : value) (xs : list value) : raises value :=
  match xs with
  | [] => mret acc
  | x :: rest => acc' ← add acc x; sum_from acc' rest
  end.

Definition sum (xs : list value) : raises value := sum_from (PyInt 0) xs.

(** [max(a, b)] and [max(xs)]: a later item replaces the current one only
    when it is greater. *)
Definition max2 (a b : value) : raises value :=
  g ← gt b a; mret (if (g : bool) then b else a).

Fixpoint max_from (m : value) (xs : list value) : raises value :=
  match xs with
  | [] => mret m
  | x :: rest => m' ← max2 m x; max_from m' rest
  end.

Definition max (xs : list value) : raises value :=
  match xs with
  | [] => raise ValueError
  | x :: rest => max_from x rest
  end.

End Np.

(** ** The loader and the chart builders on these scalars *)

Module Machine.

Import Np.

(** A parsed CSV: the header, and the data rows in file order, a row
    giving the cell under each column label. *)
Record DataFrame := {
  columns : list string;
  rows : list (string → value)
}.

Definition len (df : DataFrame) : nat := length (rows df).

Definition has_column (df : DataFrame) (column : string) : bool :=
  bool_decide (column ∈ columns df).

Record ScenarioRecord := {
  scenario_name : string;
  income_values : list value;
  income_pct : list Z;
  bedroom_values : list value;
  bedroom_pct : list Z;
  parking_values : list value;
  parking_pct : list Z;
  total_units : value;
  affordable_units : value
}.

(** The inner helper [get_value]: the first row's cell, or the int 0. *)
Definition get_value (df : DataFrame) (column : string) : value :=
  if has_column df column && bool_decide (0 < len df)%nat then
    match rows df with
    | row :: _ => row column
    | [] => PyInt 0
    end
  else PyInt 0.

(** [round(v / total * 100)] *)
Definition rounded_share (v total : value) : raises Z :=
  share ← truediv v total;
  round (fmul share hundred).

(** [round(v / total * 100) if total > 0 else 0] *)
Definition percent (total v : value) : raises Z :=
  positive ← gt total (PyInt 0);
  if (positive : bool) then rounded_share v total else mret 0.

(** [total = sum(values)] and the list of the percentages. *)
Definition percentages (values : list value) : raises (list Z) :=
  total ← sum values;
  mapM (percent total) values.

(** The body of the [try] block once the table is there, in the order the
    script evaluates it: the three groups with their percentages, the two
    totals, then the dict with the values rounded for display. *)
Definition build_record (df : DataFrame) (name : string)
    : raises ScenarioRecord :=
  let income := get_value df <$> income_columns in
  income_pct ← percentages income;
  let bedroom := get_value df <$> bedroom_columns in
  bedroom_pct ← percentages bedroom;
  let parking := get_value df <$> parking_columns in
  parking_pct ← percentages parking;
  let total_units := get_value df "totalUnitsSum" in
  let affordable_units := get_value df "affordableUnitsSum" in
  income_values ← mapM round1 income;
  bedroom_values ← mapM round1 bedroom;
  parking_values ← mapM round1 parking;
  mret {| scenario_name := name;
          income_values := income_values;
          income_pct := income_pct;
          bedroom_values := bedroom_values;
          bedroom_pct := bedroom_pct;
          parking_values := parking_values;
          parking_pct := parking_pct;
          total_units := total_units;
          affordable_units := affordable_units |}.

Section Loader.

(** The outside world: what [pd.read_csv] answers for a locator, a table
    or a raised exception; and what [str(e)] and [traceback.format_exc()]
    give for an exception raised by an operator. *)
Variable read_csv : string → exn + DataFrame.
Variable describe : error → exn.

(** The [try] block after the guard: the read, then the record. *)
Definition try_body (u : string) (scenario_name : string)
    : exn + ScenarioRecord :=
  match read_csv u with
  | inl e => inl e
  | inr df =>
      match build_record df scenario_name with
      | inl e => inl (describe e)
      | inr r => inr r
      end
  end.

(** [load_data_from_aggregation_csv].  The guard on the locator returns
    before anything is read; whatever is raised after it, by the read or by
    an operator, reaches the handler, which reports the message, then the
    traceback, and returns [None]. *)
Definition load_data_from_aggregation_csv
    (url : option string) (scenario_name : string)
    : run (option ScenarioRecord) :=
  match url with
  | Some (String _ _ as u) =>
      _ ← emit (EvReadCsv u);
      match try_body u scenario_name with
      | inr r => mret (Some r)
      | inl e =>
          _ ← emit (EvError ("Error loading CSV data from " +:+ u +:+ ": "
                               +:+ exn_str e));
          _ ← emit (EvError (exn_traceback e));
          mret None
      end
  | _ => mret None
  end.

End Loader.

(** [d[key]] *)
Definition item (d : gmap string (list value)) (key : string)
    : raises (list value) :=
  match d !! key with
  | Some l => mret l
  | None => raise KeyError
  end.

(** [max(max(d["Total Units"]), max(d["Affordable Units"]))] *)
Definition max_value (d : gmap string (list value)) : raises value :=
  total ← item d "Total Units";
  max_total ← max total;
  affordable ← item d "Affordable Units";
  max_affordable ← max affordable;
  max2 max_total max_affordable.

(** [max_value * 0.01] *)
Definition min_display_value (max_value : value) : raises spec_float :=
  mul_float max_value hundredth.

(** [[val if val > 0 else min_display_value for val in affordable]] *)
Definition affordable_display (min_display : spec_float)
    (affordable : list value) : raises (list value) :=
  mapM (λ val, positive ← gt val (PyInt 0);
               mret (if (positive : bool) then val else Float64 min_display))
       affordable.

Section GroupedChart.

(** Python's reading of a string as an integer literal, for [int(v)] on a
    cell of text. *)
Variable int_of_str : string → raises Z.

(** [f"{int(v)}"] *)
Definition int_label (v : value) : raises string :=
  k ← int int_of_str v; mret (pretty k).

(** [f"{int(actual)}" if actual > 0 else ""] *)
Definition affordable_label (actual : value) : raises string :=
  positive ← gt actual (PyInt 0);
  if (positive : bool) then int_label actual else mret EmptyString.

(** [create_total_feasibility_chart_grouped], in the order the script
    evaluates it. *)
Definition create_total_feasibility_chart_grouped
    (scenario_names : list string) (total_data_dict : gmap string (list value))
    (color : string) : raises (Figure value) :=
  total ← item total_data_dict "Total Units";
  total_text ← mapM int_label total;
  let total_bar :=
    {| bar_name := "Total Units";
       bar_x := scenario_names;
       bar_y := total;
       bar_marker_color := color;
       bar_text := total_text;
       bar_hovertemplate := "Total Units: %{y}<extra></extra>";
       bar_customdata := None |} in
  max_v ← max_value total_data_dict;
  min_display ← min_display_value max_v;
  affordable ← item total_data_dict "Affordable Units";
  display ← affordable_display min_display affordable;
  affordable_text ← mapM affordable_label affordable;
  let affordable_bar :=
    {| bar_name := "Affordable Units";
       bar_x := scenario_names;
       bar_y := display;
       bar_marker_color := "#5DBDB4";
       bar_text := affordable_text;
       bar_hovertemplate := "Affordable Units: %{customdata}<extra></extra>";
       bar_customdata := Some affordable |} in
  mret {| traces := [total_bar; affordable_bar];
          barmode := "group"; height := 400 |}.

End GroupedChart.

(** The stacked chart reads the names and the percentage lists of the
    records; it is the builder of the first part, on these records. *)
Definition category_values (all_data : list ScenarioRecord)
    (data_key : string) (i : nat) : option (list Z) :=
  if bool_decide (data_key = "income_pct") then
    mapM (λ d, income_pct d !! i) all_data
  else if bool_decide (data_key = "bedroom_pct") then
    mapM (λ d, bedroom_pct d !! i) all_data
  else if bool_decide (data_key = "parking_pct") then
    mapM (λ d, parking_pct d !! i) all_data
  else None.

Definition stacked_trace (all_data : list ScenarioRecord)
    (data_key : string) (colors : gmap string string)
    (i : nat) (category : string) : option (Bar Z) :=
  values ← category_values all_data data_key i;
  color ← colors !! category;
  Some {| bar_name := category;
          bar_x := scenario_name <$> all_data;
          bar_y := values;
          bar_marker_color := color;
          bar_text := (λ v, if bool_decide (0 < v) then pretty v +:+ "%"
                            else EmptyString) <$> values;
          bar_hovertemplate := category +:+ ": %{y}%<extra></extra>";
          bar_customdata := None |}.

Definition create_multi_scenario_stacked_chart
    (all_data : list ScenarioRecord) (categories : list string)
    (data_key : string) (colors : gmap string string)
    : option (Figure Z) :=
  bars ← mapM (λ ic, stacked_trace all_data data_key colors ic.1 ic.2)
              (imap pair categories);
  Some {| traces := bars; barmode := "stack"; height := 600 |}.

(** What a page load ends in: [st.stop()], an uncaught exception, or the
    four charts. *)
Record dashboard := {
  fig_total : Figure value;
  fig_income : Figure Z;
  fig_bedrooms : Figure Z;
  fig_parking : Figure Z
}.

Inductive outcome :=
| Stopped
| Raised
| Rendered (d : dashboard).

(** The dict the script fills for the totals chart and table. *)
Definition total_data_of (all_data : list ScenarioRecord)
    : gmap string (list value) :=
  <["Affordable Units" := affordable_units <$> all_data]>
    {["Total Units" := total_units <$> all_data]}.

Section Main.

Variable read_csv : string → exn + DataFrame.
Variable describe : error → exn.
Variable int_of_str : string → raises Z.
Variable unquote : string → string.
Variable params : gmap string string.

(** [if data: all_data.append(data)] *)
Definition append_if (all_data : list ScenarioRecord)
    (data : option ScenarioRecord) : list ScenarioRecord :=
  match data with
  | Some d => all_data ++ [d]
  | None => all_data
  end.

(** The loop over [zoned_scenarios]. *)
Fixpoint load_scenarios (scs : list scenario)
    (all_data : list ScenarioRecord) : run (list ScenarioRecord) :=
  match scs with
  | [] => mret all_data
  | sc :: rest =>
      data ← load_data_from_aggregation_csv read_csv describe
               (Some (url sc)) (name sc);
      load_scenarios rest (append_if all_data data)
  end.

(** "Load all data": the baseline first, then the scenarios. *)
Definition load_all (unzoned : string) (scs : list scenario)
    : run (list ScenarioRecord) :=
  all_data ←
    (if Py.truthy (Some unzoned) then
       data ← load_data_from_aggregation_csv read_csv describe
                (Some unzoned) "Unzoned";
       mret (append_if [] data)
     else mret []);
  load_scenarios scs all_data.

(** The four chart calls on the loaded records; the first exception is
    not caught. *)
Definition render (all_data : list ScenarioRecord) : outcome :=
  let scenario_names := scenario_name <$> all_data in
  match
    create_total_feasibility_chart_grouped int_of_str
      scenario_names (total_data_of all_data) total_feasibility_color,
    create_multi_scenario_stacked_chart
      all_data income_brackets "income_pct" income_bracket_colors,
    create_multi_scenario_stacked_chart
      all_data bedroom_counts "bedroom_pct" bedroom_count_colors,
    create_multi_scenario_stacked_chart
      all_data parking_types "parking_pct" parking_type_colors
  with
  | inr t, Some i, Some b, Some p =>
      Rendered {| fig_total := t; fig_income := i;
                  fig_bedrooms := b; fig_parking := p |}
  | _, _, _, _ => Raised
  end.

Definition main : run outcome :=
  let unzoned := unzoned_csv_url unquote params in
  let scs := zoned_scenarios unquote params in
  if negb (Py.truthy (Some unzoned)) && bool_decide (scs = []) then
    _ ← emit (EvError "Data not found. Please provide 'unzoned_url' and/or 'zoned_url' query parameters.");
    _ ← emit (EvInfo "Example: ?unzoned_url=https://example.com/unzoned.csv&zoned_url_1=https://example.com/zoned1.csv&zoned_url_2=https://example.com/zoned2.csv");
    _ ← emit EvStop;
    mret Stopped
  else
    all_data ← load_all unzoned scs;
    match all_data with
    | [] =>
        _ ← emit (EvError "Failed to load any data. Please check the URLs and try again.");
        _ ← emit EvStop;
        mret Stopped
    | _ => mret (render all_data)
    end.

End Main.

End Machine.

(** ** Statements and inputs used by the properties of this reading *)

Module MachineSpec.

Import Np Machine.

(** A one-row table given by its cells, header in the order listed; a
    cell that is not listed is blank. *)
Definition row_of (cells : list (string * value)) : string → value :=
  λ c, default (Float64 S754_nan)
         ((list_to_map cells : gmap string value) !! c).

Definition table_of (cells : list (string * value)) : DataFrame :=
  {| columns := fst <$> cells; rows := [row_of cells] |}.

(** A source answering every locator with the same table. *)
Definition serve (df : DataFrame) : string → exn + DataFrame := λ _, inr df.

(** The name of an exception as its message, for the examples. *)
Definition by_name (e : error) : exn :=
  match e with
  | TypeError => Exn "TypeError" "Traceback (most recent call last): ..."
  | ValueError => Exn "ValueError" "Traceback (most recent call last): ..."
  | OverflowError => Exn "OverflowError" "Traceback (most recent call last): ..."
  | ZeroDivisionError =>
      Exn "ZeroDivisionError" "Traceback (most recent call last): ..."
  | KeyError => Exn "KeyError" "Traceback (most recent call last): ..."
  end.

(** The float nearest to the fraction [n / d] of two small integers. *)
Definition fraction (n d : Z) : spec_float := fdiv (of_Z n) (of_Z d).

(** Three equal income buckets, as integers. *)
Definition thirds_df : DataFrame :=
  table_of [("marketUnits050Sum", Int64 1); ("marketUnits51100Sum", Int64 1);
            ("marketUnits101150Sum", Int64 1); ("totalUnitsSum", Int64 3)].

(** Two income buckets of 0.04 units each. *)
Definition fractional_df : DataFrame :=
  table_of [("marketUnits050Sum", Float64 (fraction 4 100));
            ("marketUnits51100Sum", Float64 (fraction 4 100))].

(** Not a string. *)
Definition number (v : value) : Prop :=
  match v with
  | Str _ => False
  | _ => True
  end.

(** The percentage rule, said of a list of values and a list of
    percentages, every operation being the script's own: the values have a
    sum, which compares with 0; there are as many percentages as values;
    under a sum greater than 0 each percentage is the rounded share, and
    otherwise each is 0. *)
Definition pct_rule (values : list value) (pct : list Z) : Prop :=
  ∃ total positive,
    sum values = inr total
    ∧ gt total (PyInt 0) = inr positive
    ∧ length pct = length values
    ∧ (positive = true →
       ∀ i v, values !! i = Some v →
         ∃ p, pct !! i = Some p ∧ rounded_share v total = inr p)
    ∧ (positive = false → Forall (eq 0) pct).

(** A Python int or an [int64]. *)
Definition integer (v : value) : Prop :=
  match v with
  | PyInt _ | Int64 _ => True
  | Float64 _ | Str _ => False
  end.


(** A bucket group of a record against the table it was read from: [n]
    cells, the rule holding of the cells as read, the stored values being
    the cells after [round(v, 1)], and so the cells themselves when these
    are integers. *)
Definition group_from (df : DataFrame) (cols : list string) (n : nat)
    (values : list value) (pct : list Z) : Prop :=
  let cells := get_value df <$> cols in
  length cells = n
  ∧ mapM round1 cells = inr values
  ∧ pct_rule cells pct
  ∧ (Forall integer cells → values = cells ∧ pct_rule values pct).

(** What the handler reports for an exception [e] raised while [u] is
    loaded. *)
Definition reports (u : string) (e : exn) : list string :=
  ["Error loading CSV data from " +:+ u +:+ ": " +:+ exn_str e;
   exn_traceback e].


(** Values as a record holds them: the int 0 of a missing column, or a
    cell of the table, which is never a Python int. *)
Definition stored (v : value) : Prop :=
  match v with
  | PyInt z => z = 0
  | _ => True
  end.

(** A stored value that is a number: the int 0, an [int64] or a float. *)
Definition tame (v : value) : Prop := stored v ∧ number v.

Definition cells_stored (df : DataFrame) : Prop :=
  ∀ row column, row ∈ rows df → stored (row column).

(** A group on which the [try] block raises: a cell of text, or, under a
    sum greater than 0, a share that is NaN or infinite. *)
Definition group_raises (cells : list value) : Prop :=
  (∃ s, Str s ∈ cells)
  ∨ ∃ total v share,
      sum cells = inr total
      ∧ gt total (PyInt 0) = inr true
      ∧ v ∈ cells
      ∧ truediv v total = inr share
      ∧ is_finite (fmul share hundred) = false.


(** A table with a word where a count is expected, and one with a blank
    cell. *)
Definition text_df : DataFrame :=
  table_of [("marketUnits050Sum", Int64 10); ("marketUnits51100Sum", Str "n/a");
            ("totalUnitsSum", Int64 500)].
Definition blank_df : DataFrame :=
  table_of [("marketUnits050Sum", Int64 10);
            ("marketUnits51100Sum", Float64 S754_nan);
            ("countMarket0BrSum", Int64 4); ("countMarket1BrSum", Int64 0);
            ("totalUnitsSum", Int64 500)].

(** A zero: the int 0, the [int64] 0, or the float 0.0 of either sign. *)
Definition zero (v : value) : Prop :=
  match v with
  | PyInt z | Int64 z => z = 0
  | Float64 (S754_zero _) => True
  | _ => False
  end.

(** A number that can be made a float: an [int64], a float, or a Python
    int that is not too large. *)
Definition convertible (v : value) : Prop := ∃ f, to_float v = inr f.



(** The totals of two scenarios, the first with no affordable unit. *)
Definition two_totals : gmap string (list value) :=
  <["Affordable Units" := [Int64 0; Int64 50]]>
    {["Total Units" := [Int64 400; Int64 500]]}.

Definition above_057 : spec_float := S754_finite false 5134103575202366 (-53).

(** What a source contributes to a page: the record of its table, when
    the locator is not empty, the read parses and the body of the [try]
    block raises nothing. *)
Definition loaded_from (read_csv : string → exn + DataFrame) (sc : scenario)
    : option ScenarioRecord :=
  if bool_decide (url sc = EmptyString) then None
  else match read_csv (url sc) with
       | inr df =>
           match build_record df (name sc) with
           | inr r => Some r
           | inl _ => None
           end
       | inl _ => None
       end.

(** A source on which the [try] block raises: in the read, or in an
    operator on the cells of the table. *)
Definition raised (read_csv : string → exn + DataFrame) (sc : scenario)
    : bool :=
  negb (bool_decide (url sc = EmptyString))
  && match read_csv (url sc) with
     | inl _ => true
     | inr df =>
         match build_record df (name sc) with
         | inl _ => true
         | inr _ => false
         end
     end.

(** A record as the loader builds them. *)
Definition loaded (r : ScenarioRecord) : Prop :=
  ∃ df label, build_record df label = inr r.

(** Two series from which the grouped chart cannot be built: an empty
    one, a string, a total that is NaN or infinite, or an affordable value
    that is plus infinity. *)
Definition series_raise (total affordable : list value) : Prop :=
  total = [] ∨ affordable = []
  ∨ (∃ s, Str s ∈ total ++ affordable)
  ∨ (∃ f, Float64 f ∈ total ∧ is_finite f = false)
  ∨ Float64 (S754_infinity false) ∈ affordable.

(** Every table the source can answer with has cells that are numpy
    scalars or strings. *)
Definition tables_stored (read_csv : string → exn + DataFrame) : Prop :=
  ∀ u df, read_csv u = inr df → cells_stored df.

(** A table whose total is blank. *)
Definition blank_total_df : DataFrame :=
  table_of [("marketUnits050Sum", Int64 10);
            ("totalUnitsSum", Float64 S754_nan);
            ("affordableUnitsSum", Int64 0)].

End MachineSpec.

(** * Properties *)

(** ** The builtins on examples *)

Example round_examples :
  Py.round (qfrac 5 2) = 2 /\ Py.round (qfrac 7 2) = 4 /\
  Py.round (qfrac (-5) 2) = -2 /\ Py.round (qfrac 100 3) = 33 /\
  Py.round (qfrac 200 3) = 67 /\ Py.round (qz 50) = 50.
Proof. vm_compute. repeat split. Qed.

Example round1_examples :
  Py.round1 (qfrac 4 100) = qz 0 /\ Py.round1 (qfrac 25 100) = qfrac 2 10 /\
  Py.round1 (qz 7) = qz 7.
Proof. repeat split; apply Qc_is_canon; reflexivity. Qed.

(** ** Rounding and sums *)

Section Rounding.




End Rounding.

Section Sums.




End Sums.

(** ** The percentage rule *)

Section Percentages.

Lemma gtb_true (a b : Qc) : Py.gtb a b = true ↔ (b < a)%Qc.
Proof. unfold Py.gtb. apply bool_decide_eq_true. Qed.

Lemma gtb_false (a b : Qc) : Py.gtb a b = false ↔ ¬ (b < a)%Qc.
Proof. unfold Py.gtb. apply bool_decide_eq_false. Qed.

Lemma percentages_length (vs : list Qc) :
  length (percentages vs) = length vs.
Proof. unfold percentages. apply length_fmap. Qed.


End Percentages.

(** ** The loader on its three kinds of input *)

Section LoaderFacts.

Variable read_csv : string → exn + DataFrame.

(** No locator, or an empty one: nothing is read and nothing reported. *)
Lemma load_no_locator (url : option string) (name : string) :
  Py.truthy url = false →
  load_data_from_aggregation_csv read_csv url name = ([], None).
Proof. destruct url as [[|a u]|]; [reflexivity|discriminate|reflexivity]. Qed.

(** A source that parses: one read, and the record built from it. *)
Lemma load_parsed (u name : string) (df : DataFrame) :
  u ≠ EmptyString → read_csv u = inr df →
  load_data_from_aggregation_csv read_csv (Some u) name
  = ([EvReadCsv u], Some (build_record df name)).
Proof.
  intros Hu Hread. destruct u as [|a u]; [congruence|].
  unfold load_data_from_aggregation_csv. rewrite Hread. reflexivity.
Qed.

(** A source that does not: one read, then the two reports of the
    handler. *)
Lemma load_failed (u name : string) (e : exn) :
  u ≠ EmptyString → read_csv u = inl e →
  load_data_from_aggregation_csv read_csv (Some u) name
  = ([EvReadCsv u;
      EvError ("Error loading CSV data from " +:+ u +:+ ": " +:+ exn_str e);
      EvError (exn_traceback e)], None).
Proof.
  intros Hu Hread. destruct u as [|a u]; [congruence|].
  unfold load_data_from_aggregation_csv. rewrite Hread. reflexivity.
Qed.

End LoaderFacts.

Section GetValue.

Lemma get_value_missing (df : DataFrame) (c : string) :
  c ∉ columns df → get_value df c = 0%Qc.
Proof.
  intros Hc. unfold get_value, has_column.
  rewrite bool_decide_eq_false_2 by exact Hc. reflexivity.
Qed.

Lemma get_value_no_rows (df : DataFrame) (c : string) :
  rows df = [] → get_value df c = 0%Qc.
Proof.
  intros Hr. unfold get_value. rewrite Hr.
  destruct (has_column df c && bool_decide (0 < len df)%nat); reflexivity.
Qed.



End GetValue.

(** ** Logs of composed runs *)

Section Runs.

Lemma result_bind {A B} (m : run A) (f : A → run B) :
  result (m ≫= f) = result (f (result m)).
Proof.
  destruct m as [l a]. unfold mbind, run_bind, result. simpl.
  destruct (f a); reflexivity.
Qed.

Lemma log_bind {A B} (m : run A) (f : A → run B) :
  log (m ≫= f) = log m ++ log (f (result m)).
Proof.
  destruct m as [l a]. unfold mbind, run_bind, log, result. simpl.
  destruct (f a); reflexivity.
Qed.

Lemma reads_app (l1 l2 : list event) : reads (l1 ++ l2) = reads l1 ++ reads l2.
Proof. unfold reads. apply omap_app. Qed.

Variable read_csv : string → exn + DataFrame.

(** The records loaded for a list of scenarios extend the ones already
    there by at most one each. *)
Lemma load_scenarios_length (scs : list scenario)
    (all_data : list ScenarioRecord) :
  (length (result (load_scenarios read_csv scs all_data))
   ≤ length all_data + length scs)%nat.
Proof.
  revert all_data. induction scs as [|sc scs IH]; intros all_data.
  - simpl. unfold result, mret, run_ret. simpl. lia.
  - cbn [load_scenarios]. rewrite result_bind.
    etransitivity; [apply IH|].
    destruct (result (load_data_from_aggregation_csv read_csv
                        (Some (url sc)) (name sc))); simpl.
    + rewrite length_app. simpl. lia.
    + lia.
Qed.

End Runs.

(** ** C3 *)

(** C3, counterexample.  On a source that cannot be fetched the loader
    returns no record and calls [st.error] twice, once with the message
    and once with the traceback. *)
Lemma C3_two_reports_on_failure :
  let m := load_data_from_aggregation_csv unreachable
             (Some "https://example.com/unzoned.csv") "Unzoned" in
  result m = None
  ∧ errors (log m)
    = ["Error loading CSV data from https://example.com/unzoned.csv: HTTP Error 404: Not Found";
       "Traceback (most recent call last): ..."]
  ∧ length (errors (log m)) ≠ 1%nat.
Proof. cbv zeta. split; [reflexivity|]. split; [reflexivity|]. discriminate. Qed.

(** C3, as amended.  When the read of a source raises, the loader returns
    no record and emits exactly two error reports, the message naming the
    locator and then the traceback; the caller goes on: a failing scenario
    adds nothing to the records and the remaining scenarios are loaded as
    if it were not there, and after a failing baseline the records are
    fewer than the sources. *)
Theorem C3_unreadable_source
    (read_csv : string → exn + DataFrame) (u label : string) (e : exn) :
  u ≠ EmptyString → read_csv u = inl e →
  let m := load_data_from_aggregation_csv read_csv (Some u) label in
  result m = None
  ∧ reads (log m) = [u]
  ∧ errors (log m)
    = ["Error loading CSV data from " +:+ u +:+ ": " +:+ exn_str e;
       exn_traceback e]
  ∧ (∀ rest all_data,
       result (load_scenarios read_csv ({| url := u; name := label |} :: rest)
                 all_data)
       = result (load_scenarios read_csv rest all_data))
  ∧ (∀ scs,
       result (load_all read_csv u scs)
       = result (load_scenarios read_csv scs [])
       ∧ (length (result (load_all read_csv u scs)) < 1 + length scs)%nat).
Proof.
  intros Hu Hread. cbv zeta.
  rewrite (load_failed read_csv u label e Hu Hread).
  split; [reflexivity|]. split; [reflexivity|]. split; [reflexivity|].
  split.
  - intros rest all_data. cbn [load_scenarios url name].
    rewrite result_bind, (load_failed read_csv u label e Hu Hread).
    reflexivity.
  - intros scs.
    assert (result (load_all read_csv u scs)
            = result (load_scenarios read_csv scs [])) as Heq.
    { unfold load_all. destruct u as [|a u]; [congruence|].
      cbn [Py.truthy]. rewrite !result_bind.
      rewrite (load_failed read_csv _ "Unzoned" e Hu Hread). reflexivity. }
    split; [exact Heq|]. rewrite Heq.
    pose proof (load_scenarios_length read_csv scs []) as Hlen.
    simpl in Hlen. lia.
Qed.

Lemma C3_unreadable_source_witness :
  let m := load_data_from_aggregation_csv unreachable
             (Some "https://example.com/s1.csv") "Scenario 1" in
  result m = None
  ∧ reads (log m) = ["https://example.com/s1.csv"]
  ∧ errors (log m)
    = ["Error loading CSV data from " +:+ "https://example.com/s1.csv" +:+ ": "
         +:+ "HTTP Error 404: Not Found";
       "Traceback (most recent call last): ..."]
  ∧ (∀ rest all_data,
       result (load_scenarios unreachable
                 ({| url := "https://example.com/s1.csv";
                     name := "Scenario 1" |} :: rest) all_data)
       = result (load_scenarios unreachable rest all_data))
  ∧ (∀ scs,
       result (load_all unreachable "https://example.com/s1.csv" scs)
       = result (load_scenarios unreachable scs [])
       ∧ (length (result (load_all unreachable "https://example.com/s1.csv" scs))
          < 1 + length scs)%nat).
Proof.
  apply (C3_unreadable_source unreachable "https://example.com/s1.csv"
           "Scenario 1"
           (Exn "HTTP Error 404: Not Found"
                "Traceback (most recent call last): ...")).
  - discriminate.
  - reflexivity.
Defined.

(** ** C9 *)

(** C9.  With an absent locator, or an empty one, the loader returns no
    record and its log is empty: no read is attempted and no error is
    reported.  A missing record therefore does not always come with an
    error report. *)
Theorem C9_no_locator_no_report
    (read_csv : string → exn + DataFrame) (name : string) :
  (let m := load_data_from_aggregation_csv read_csv None name in
   result m = None ∧ log m = [] ∧ reads (log m) = [] ∧ errors (log m) = [])
  ∧
  (let m := load_data_from_aggregation_csv read_csv (Some EmptyString) name in
   result m = None ∧ log m = [] ∧ reads (log m) = [] ∧ errors (log m) = []).
Proof.
  cbv zeta.
  rewrite !(load_no_locator read_csv _ name) by reflexivity.
  repeat split.
Qed.

(** ** C4 *)

Lemma build_record_zero (df : DataFrame) (label : string) :
  (∀ c, c ∈ documented_columns → get_value df c = 0%Qc) →
  build_record df label = zero_record label.
Proof.
  intros Hz. unfold build_record, zero_record.
  unfold income_columns, bedroom_columns, parking_columns.
  cbn [fmap list_fmap].
  rewrite !Hz by (unfold documented_columns, income_columns, bedroom_columns,
                  parking_columns; set_solver).
  f_equal; try (vm_compute; reflexivity); simpl replicate; qc_list.
Qed.

(** C4.  For every source that parses and either carries none of the
    documented columns or has no data row, the loader returns a record, and
    in it every bucket value, every percentage and both totals are 0. *)
Theorem C4_missing_columns_or_no_rows
    (read_csv : string → exn + DataFrame) (u label : string) (df : DataFrame) :
  u ≠ EmptyString → read_csv u = inr df →
  (∀ c, c ∈ documented_columns → c ∉ columns df) ∨ rows df = [] →
  result (load_data_from_aggregation_csv read_csv (Some u) label)
  = Some (zero_record label).
Proof.
  intros Hu Hread Hcase.
  rewrite (load_parsed read_csv u label df Hu Hread).
  unfold result. simpl. f_equal. apply build_record_zero.
  intros c Hc. destruct Hcase as [Hmiss|Hrows].
  - apply get_value_missing, Hmiss, Hc.
  - apply get_value_no_rows, Hrows.
Qed.

Lemma C4_missing_columns_or_no_rows_witness :
  result (load_data_from_aggregation_csv (serve foreign_df)
            (Some "parcels.csv") "Unzoned") = Some (zero_record "Unzoned")
  ∧ result (load_data_from_aggregation_csv (serve header_only_df)
              (Some "empty.csv") "Scenario 1") = Some (zero_record "Scenario 1").
Proof.
  split.
  - apply (C4_missing_columns_or_no_rows (serve foreign_df) "parcels.csv"
             "Unzoned" foreign_df).
    + discriminate.
    + reflexivity.
    + left. apply Forall_forall.
      apply (bool_decide_unpack _). vm_compute. exact I.
  - apply (C4_missing_columns_or_no_rows (serve header_only_df) "empty.csv"
             "Scenario 1" header_only_df).
    + discriminate.
    + reflexivity.
    + right. reflexivity.
Defined.

(** ** C7 *)



(** ** The grouped chart *)

Section GroupedChart.

Lemma max2_cases (a b : Qc) :
  (Py.max2 a b = a ∧ (b ≤ a)%Qc) ∨ (Py.max2 a b = b ∧ (a < b)%Qc).
Proof.
  unfold Py.max2. destruct (Py.gtb b a) eqn:Hg.
  - right. split; [reflexivity|]. apply gtb_true, Hg.
  - left. split; [reflexivity|].
    apply Qcnot_lt_le. apply gtb_false, Hg.
Qed.

Lemma max2_ge_l (a b : Qc) : (a ≤ Py.max2 a b)%Qc.
Proof.
  destruct (max2_cases a b) as [[-> _]|[-> Hlt]];
    [apply Qcle_refl|apply Qclt_le_weak, Hlt].
Qed.

Lemma max2_ge_r (a b : Qc) : (b ≤ Py.max2 a b)%Qc.
Proof.
  destruct (max2_cases a b) as [[-> Hle]|[-> _]];
    [exact Hle|apply Qcle_refl].
Qed.

Lemma max2_choice (a b : Qc) : Py.max2 a b = a ∨ Py.max2 a b = b.
Proof. destruct (max2_cases a b) as [[-> _]|[-> _]]; auto. Qed.

Lemma foldl_max2_is_max (xs : list Qc) (a : Qc) :
  is_max_of (foldl Py.max2 a xs) (a :: xs).
Proof.
  revert a. induction xs as [|x xs IH]; intros a.
  - simpl. split; [apply list_elem_of_here|].
    intros v Hv. apply list_elem_of_singleton in Hv as ->. apply Qcle_refl.
  - simpl. destruct (IH (Py.max2 a x)) as [Hin Hub]. split.
    + apply elem_of_cons in Hin as [Heq|Hin].
      * rewrite Heq. destruct (max2_choice a x) as [->| ->].
        -- apply list_elem_of_here.
        -- apply list_elem_of_further, list_elem_of_here.
      * do 2 apply list_elem_of_further. exact Hin.
    + intros v Hv.
      apply elem_of_cons in Hv as [->|Hv].
      { eapply Qcle_trans; [apply (max2_ge_l a x)|].
        apply Hub, list_elem_of_here. }
      apply elem_of_cons in Hv as [->|Hv].
      { eapply Qcle_trans; [apply (max2_ge_r a x)|].
        apply Hub, list_elem_of_here. }
      apply Hub, list_elem_of_further, Hv.
Qed.

Lemma max_is_max (xs : list Qc) :
  xs ≠ [] → ∃ m, Py.max xs = Some m ∧ is_max_of m xs.
Proof.
  destruct xs as [|x xs]; [congruence|]. intros _.
  eexists. split; [reflexivity|]. apply foldl_max2_is_max.
Qed.

(** [max_value] is the greatest value of the two series together. *)
Lemma max_value_is_max (total affordable : list Qc) :
  total ≠ [] → affordable ≠ [] →
  ∃ m, max_value total affordable = Some m
     ∧ is_max_of m (total ++ affordable).
Proof.
  intros Ht Ha.
  destruct (max_is_max total Ht) as (mt & Hmt & Hint & Hubt).
  destruct (max_is_max affordable Ha) as (ma & Hma & Hina & Huba).
  exists (Py.max2 mt ma). unfold max_value. rewrite Hmt, Hma.
  split; [reflexivity|]. split.
  - apply elem_of_app.
    destruct (max2_choice mt ma) as [->| ->]; [left|right]; assumption.
  - intros v Hv. apply elem_of_app in Hv as [Hv|Hv].
    + eapply Qcle_trans; [apply Hubt, Hv|]. apply max2_ge_l.
    + eapply Qcle_trans; [apply Huba, Hv|]. apply max2_ge_r.
Qed.

(** The figure, once both keys are there and the lists are not empty. *)
Lemma grouped_chart_returns (scenario_names : list string)
    (d : gmap string (list Qc)) (color : string)
    (total affordable : list Qc) (md : Qc) :
  d !! "Total Units" = Some total →
  d !! "Affordable Units" = Some affordable →
  min_display_value total affordable = Some md →
  ∃ fig total_bar affordable_bar,
    create_total_feasibility_chart_grouped scenario_names d color = Some fig
    ∧ traces fig = [total_bar; affordable_bar]
    ∧ bar_y total_bar = total
    ∧ bar_y affordable_bar = affordable_display md affordable
    ∧ bar_text affordable_bar
      = (λ actual, if Py.gtb actual 0 then pretty (Py.int actual) else EmptyString)
          <$> affordable
    ∧ bar_customdata affordable_bar = Some affordable.
Proof.
  intros Ht Ha Hmd. unfold create_total_feasibility_chart_grouped.
  rewrite Ht. cbn [mbind option_bind]. rewrite Ha. cbn [mbind option_bind].
  rewrite Hmd. cbn [mbind option_bind].
  eexists _, _, _. split; [reflexivity|]. repeat split.
Qed.

End GroupedChart.

(** ** C5 *)

Lemma gtb_zero_zero : Py.gtb 0 0 = false.
Proof. vm_compute. reflexivity. Qed.

(** ** C10 *)

(** C10.  When both series are non-empty and every value in them is 0, the
    minimum display value is 0 and every affordable bar of the chart has
    height 0. *)
Theorem C10_all_zero_no_sliver
    (scenario_names : list string) (d : gmap string (list Qc))
    (color : string) (total affordable : list Qc) :
  d !! "Total Units" = Some total →
  d !! "Affordable Units" = Some affordable →
  total ≠ [] → affordable ≠ [] →
  Forall (eq 0%Qc) total → Forall (eq 0%Qc) affordable →
  min_display_value total affordable = Some 0%Qc
  ∧ ∃ fig total_bar affordable_bar,
      create_total_feasibility_chart_grouped scenario_names d color = Some fig
      ∧ traces fig = [total_bar; affordable_bar]
      ∧ length (bar_y affordable_bar) = length affordable
      ∧ Forall (eq 0%Qc) (bar_y affordable_bar).
Proof.
  intros Ht Ha Htne Hane Htz Haz.
  destruct (max_value_is_max total affordable Htne Hane) as (m & Hm & Hin & _).
  assert (m = 0%Qc) as ->.
  { apply elem_of_app in Hin as [Hin|Hin].
    - symmetry. exact (proj1 (Forall_forall _ _) Htz m Hin).
    - symmetry. exact (proj1 (Forall_forall _ _) Haz m Hin). }
  assert (min_display_value total affordable = Some 0%Qc) as Hmd.
  { unfold min_display_value. rewrite Hm. cbn [fmap option_fmap option_map].
    f_equal. apply Qcmult_0_l. }
  split; [exact Hmd|].
  destruct (grouped_chart_returns scenario_names d color total affordable
              _ Ht Ha Hmd)
    as (fig & tb & ab & Hfig & Htr & _ & Hy & _ & _).
  exists fig, tb, ab. repeat (split; [assumption|]).
  rewrite Hy. unfold affordable_display. split; [apply length_fmap|].
  apply Forall_fmap. eapply Forall_impl; [exact Haz|].
  intros v <-. cbn. rewrite gtb_zero_zero. reflexivity.
Qed.

Lemma C10_all_zero_no_sliver_witness :
  min_display_value [0%Qc; 0%Qc] [0%Qc; 0%Qc] = Some 0%Qc
  ∧ ∃ fig total_bar affordable_bar,
      create_total_feasibility_chart_grouped ["Unzoned"; "Scenario 1"]
        (<["Affordable Units" := [0%Qc; 0%Qc]]>
           {["Total Units" := [0%Qc; 0%Qc]]})
        total_feasibility_color = Some fig
      ∧ traces fig = [total_bar; affordable_bar]
      ∧ length (bar_y affordable_bar) = length [0%Qc; 0%Qc]
      ∧ Forall (eq 0%Qc) (bar_y affordable_bar).
Proof.
  apply (C10_all_zero_no_sliver ["Unzoned"; "Scenario 1"] _
           total_feasibility_color [0%Qc; 0%Qc] [0%Qc; 0%Qc]).
  - reflexivity.
  - reflexivity.
  - discriminate.
  - discriminate.
  - repeat constructor.
  - repeat constructor.
Defined.

(** ** The stacked chart *)

Section StackedChart.

Lemma mapM_lookup_l {A B} (f : A → option B) (l : list A) (k : list B)
    (i : nat) (x : A) :
  mapM f l = Some k → l !! i = Some x →
  ∃ y, k !! i = Some y ∧ f x = Some y.
Proof.
  intros Hm Hi. apply mapM_Some_1 in Hm.
  destruct (Forall2_lookup_l _ _ _ _ _ Hm Hi) as (y & Hy & Hf). eauto.
Qed.

Lemma mapM_lookup_r {A B} (f : A → option B) (l : list A) (k : list B)
    (i : nat) (y : B) :
  mapM f l = Some k → k !! i = Some y →
  ∃ x, l !! i = Some x ∧ f x = Some y.
Proof.
  intros Hm Hi. apply mapM_Some_1 in Hm.
  destruct (Forall2_lookup_r _ _ _ _ _ Hm Hi) as (x & Hx & Hf). eauto.
Qed.

Lemma mapM_same_length {A B} (f : A → option B) (l : list A) (k : list B) :
  mapM f l = Some k → length k = length l.
Proof.
  intros Hm. apply mapM_Some_1 in Hm. symmetry.
  eapply Forall2_length, Hm.
Qed.

(** The values of a category are the selected field's entries at the
    category's index, one per record, in record order. *)
Lemma category_values_entries (all_data : list ScenarioRecord)
    (data_key : string) (i : nat) (values : list Z) :
  category_values all_data data_key i = Some values →
  ∃ sel, pct_of_key data_key = Some sel
       ∧ length values = length all_data
       ∧ ∀ j d, all_data !! j = Some d →
           ∃ p, sel d !! i = Some p ∧ values !! j = Some p.
Proof.
  unfold category_values, pct_of_key.
  repeat case_bool_decide; intros Hm; try discriminate;
    (eexists; split; [reflexivity|];
     split; [eapply mapM_same_length, Hm|];
     intros j d Hj;
     destruct (mapM_lookup_l _ _ _ _ _ Hm Hj) as (p & Hp & Hsel);
     exists p; split; assumption).
Qed.

Lemma stacked_trace_values (all_data : list ScenarioRecord)
    (data_key : string) (colors : gmap string string)
    (i : nat) (category : string) (bar : Bar Z) :
  stacked_trace all_data data_key colors i category = Some bar →
  category_values all_data data_key i = Some (bar_y bar)
  ∧ bar_name bar = category
  ∧ bar_x bar = scenario_name <$> all_data.
Proof.
  unfold stacked_trace. intros Hb.
  destruct (category_values all_data data_key i) as [values|];
    [|discriminate].
  cbn [mbind option_bind] in Hb.
  destruct (colors !! category) as [color|]; [|discriminate].
  cbn [mbind option_bind] in Hb. injection Hb as <-.
  repeat split.
Qed.

Lemma stacked_chart_traces (all_data : list ScenarioRecord)
    (categories : list string) (data_key : string)
    (colors : gmap string string) (fig : Figure Z) :
  create_multi_scenario_stacked_chart all_data categories data_key colors
  = Some fig →
  length (traces fig) = length categories
  ∧ ∀ i bar, traces fig !! i = Some bar →
      ∃ category, categories !! i = Some category
        ∧ stacked_trace all_data data_key colors i category = Some bar.
Proof.
  unfold create_multi_scenario_stacked_chart. intros Hfig.
  destruct (mapM _ (imap pair categories)) as [bars|] eqn:Hm;
    [|discriminate].
  cbn [mbind option_bind] in Hfig. injection Hfig as <-.
  cbn [traces]. split.
  - rewrite (mapM_same_length _ _ _ Hm). apply length_imap.
  - intros i bar Hi.
    destruct (mapM_lookup_r _ _ _ _ _ Hm Hi) as ([i' c] & Hic & Hb).
    rewrite list_lookup_imap in Hic.
    destruct (categories !! i) as [c0|] eqn:Hc; [|discriminate].
    cbn in Hic. injection Hic as <- <-.
    exists c0. split; [reflexivity|exact Hb].
Qed.

(** The chart is built whenever every record has an entry for every
    category and every category has a colour. *)
Lemma stacked_chart_returns (all_data : list ScenarioRecord)
    (categories : list string) (data_key : string)
    (colors : gmap string string) (sel : ScenarioRecord → list Z) :
  pct_of_key data_key = Some sel →
  Forall (λ d, length categories ≤ length (sel d))%nat all_data →
  Forall (λ c, is_Some (colors !! c)) categories →
  is_Some (create_multi_scenario_stacked_chart
             all_data categories data_key colors).
Proof.
  intros Hsel Hlen Hcol. unfold create_multi_scenario_stacked_chart.
  assert (is_Some (mapM (λ ic : nat * string,
                      stacked_trace all_data data_key colors ic.1 ic.2)
                     (imap pair categories))) as [bars Hbars].
  { apply mapM_is_Some_2, Forall_forall. intros [i c] Hic.
    apply list_elem_of_lookup in Hic as [k Hk].
    rewrite list_lookup_imap in Hk.
    destruct (categories !! k) as [c0|] eqn:Hc; [|discriminate].
    cbn in Hk. injection Hk as <- <-.
    cbn. unfold stacked_trace.
    assert (is_Some (category_values all_data data_key k)) as [vs Hvs].
    { assert (is_Some (mapM (λ d, sel d !! k) all_data)) as Hm.
      { apply mapM_is_Some_2. eapply Forall_impl; [exact Hlen|].
        intros d Hd. cbn. apply lookup_lt_is_Some.
        apply lookup_lt_Some in Hc. cbv beta in Hd. lia. }
      unfold category_values. unfold pct_of_key in Hsel.
      repeat case_bool_decide; try discriminate;
        injection Hsel as <-; exact Hm. }
    rewrite Hvs. cbn [mbind option_bind].
    destruct (proj1 (Forall_forall _ _) Hcol c0) as [col Hcolc].
    { apply list_elem_of_lookup. eauto. }
    rewrite Hcolc. cbn [mbind option_bind]. eauto. }
  rewrite Hbars. cbn [mbind option_bind]. eauto.
Qed.

End StackedChart.

(** ** C6 *)

Lemma build_record_lengths (df : DataFrame) (label : string) :
  length (income_pct (build_record df label)) = 6%nat
  ∧ length (bedroom_pct (build_record df label)) = 4%nat
  ∧ length (parking_pct (build_record df label)) = 5%nat.
Proof.
  unfold build_record. cbn [income_pct bedroom_pct parking_pct].
  rewrite !percentages_length, !length_fmap. repeat split.
Qed.

Lemma colors_cover :
  Forall (λ c, is_Some (income_bracket_colors !! c)) income_brackets
  ∧ Forall (λ c, is_Some (bedroom_count_colors !! c)) bedroom_counts
  ∧ Forall (λ c, is_Some (parking_type_colors !! c)) parking_types.
Proof.
  repeat split;
    repeat (constructor; [eexists; vm_compute; reflexivity|]);
    constructor.
Qed.

(** C6.  The income cells 1, 1, 1 (sum 3) load as the percentages
    33, 33, 33, 0, 0, 0, which add up to 99, and the stacked chart of that
    record plots exactly those six numbers.  In general every bar series
    the stacked chart emits has, for each record in order, the record's
    percentage entry at the category's index as its y-value, unchanged; and
    the chart is built for any records that come from the loader. *)
Theorem C6_rounding_drift_is_plotted :
  (let r := build_record thirds_df "Unzoned" in
   result (load_data_from_aggregation_csv (serve thirds_df)
             (Some "unzoned.csv") "Unzoned") = Some r
   ∧ income_pct r = [33; 33; 33; 0; 0; 0]
   ∧ Py.sumZ (income_pct r) = 99
   ∧ ∃ fig,
       create_multi_scenario_stacked_chart [r] income_brackets "income_pct"
         income_bracket_colors = Some fig
       ∧ bar_y <$> traces fig = [[33]; [33]; [33]; [0]; [0]; [0]])
  ∧
  (∀ (all_data : list ScenarioRecord) (categories : list string)
     (data_key : string) (colors : gmap string string) (fig : Figure Z),
     create_multi_scenario_stacked_chart all_data categories data_key colors
     = Some fig →
     length (traces fig) = length categories
     ∧ ∀ i bar, traces fig !! i = Some bar →
         ∃ sel, pct_of_key data_key = Some sel
           ∧ length (bar_y bar) = length all_data
           ∧ ∀ j d, all_data !! j = Some d →
               ∃ p, sel d !! i = Some p ∧ bar_y bar !! j = Some p)
  ∧
  (∀ all_data : list ScenarioRecord,
     Forall loaded all_data →
     is_Some (create_multi_scenario_stacked_chart all_data income_brackets
                "income_pct" income_bracket_colors)
     ∧ is_Some (create_multi_scenario_stacked_chart all_data bedroom_counts
                  "bedroom_pct" bedroom_count_colors)
     ∧ is_Some (create_multi_scenario_stacked_chart all_data parking_types
                  "parking_pct" parking_type_colors)).
Proof.
  split; [|split].
  - cbv zeta. split; [reflexivity|].
    split; [vm_compute; reflexivity|].
    split; [vm_compute; reflexivity|].
    eexists. split; vm_compute; reflexivity.
  - intros all_data categories data_key colors fig Hfig.
    destruct (stacked_chart_traces _ _ _ _ _ Hfig) as [Hlen Htr].
    split; [exact Hlen|].
    intros i bar Hi. destruct (Htr i bar Hi) as (c & _ & Hbar).
    apply stacked_trace_values in Hbar as (Hvals & _ & _).
    apply category_values_entries in Hvals. exact Hvals.
  - intros all_data Hall.
    destruct colors_cover as (Hci & Hcb & Hcp).
    split; [|split].
    + apply (stacked_chart_returns all_data income_brackets "income_pct" income_bracket_colors
               income_pct eq_refl); [|exact Hci].
      eapply Forall_impl; [exact Hall|].
      intros d (df & label & ->). cbv beta.
      destruct (build_record_lengths df label) as (Hi & Hb & Hp).
      rewrite ?Hi, ?Hb, ?Hp. simpl. lia.
    + apply (stacked_chart_returns all_data bedroom_counts "bedroom_pct" bedroom_count_colors
               bedroom_pct eq_refl); [|exact Hcb].
      eapply Forall_impl; [exact Hall|].
      intros d (df & label & ->). cbv beta.
      destruct (build_record_lengths df label) as (Hi & Hb & Hp).
      rewrite ?Hi, ?Hb, ?Hp. simpl. lia.
    + apply (stacked_chart_returns all_data parking_types "parking_pct" parking_type_colors
               parking_pct eq_refl); [|exact Hcp].
      eapply Forall_impl; [exact Hall|].
      intros d (df & label & ->). cbv beta.
      destruct (build_record_lengths df label) as (Hi & Hb & Hp).
      rewrite ?Hi, ?Hb, ?Hp. simpl. lia.
Qed.

Lemma C6_rounding_drift_is_plotted_witness :
  let rs := [build_record thirds_df "Unzoned";
             build_record thirds_df "Scenario 1"] in
  length (traces thirds_fig) = length income_brackets
  ∧ ∀ i bar, traces thirds_fig !! i = Some bar →
      ∃ sel, pct_of_key "income_pct" = Some sel
        ∧ length (bar_y bar) = length rs
        ∧ ∀ j d, rs !! j = Some d →
            ∃ p, sel d !! i = Some p ∧ bar_y bar !! j = Some p.
Proof.
  intros rs.
  apply (proj1 (proj2 C6_rounding_drift_is_plotted) rs income_brackets
           "income_pct" income_bracket_colors thirds_fig).
  vm_compute. reflexivity.
Defined.

(** ** The sources the script attempts *)

Section Sources.

Variable read_csv : string → exn + DataFrame.
Variable unquote : string → string.
Variable params : gmap string string.

Lemma reads_load (u label : string) :
  reads (log (load_data_from_aggregation_csv read_csv (Some u) label))
  = if bool_decide (u = EmptyString) then [] else [u].
Proof.
  destruct u as [|a u]; [reflexivity|].
  rewrite bool_decide_eq_false_2 by discriminate.
  unfold load_data_from_aggregation_csv.
  destruct (read_csv (String a u)); reflexivity.
Qed.

Lemma reads_load_scenarios (scs : list scenario)
    (all_data : list ScenarioRecord) :
  reads (log (load_scenarios read_csv scs all_data))
  = filter (λ u, u ≠ EmptyString) (url <$> scs).
Proof.
  revert all_data. induction scs as [|sc scs IH]; intros all_data.
  - reflexivity.
  - cbn [load_scenarios]. rewrite log_bind, reads_app, IH, reads_load.
    rewrite fmap_cons, filter_cons.
    case_bool_decide; case_decide; try congruence; reflexivity.
Qed.

Lemma reads_load_all (unzoned : string) (scs : list scenario) :
  reads (log (load_all read_csv unzoned scs))
  = filter (λ u, u ≠ EmptyString) (unzoned :: (url <$> scs)).
Proof.
  unfold load_all. rewrite log_bind, reads_app, reads_load_scenarios.
  rewrite filter_cons. f_equal.
  destruct unzoned as [|a u].
  - reflexivity.
  - cbn [Py.truthy]. rewrite log_bind, reads_app, reads_load.
    rewrite bool_decide_eq_false_2 by discriminate.
    case_decide; [|congruence]. reflexivity.
Qed.


End Sources.

(** ** C8 *)



(** * Further properties of the loader *)

(** ** Rounding is monotone and stays between integer bounds *)

Section RoundingOrder.


End RoundingOrder.

(** ** Shares and their percentages *)

Section Shares.





End Shares.

(** ** Percentages of a loaded record *)



(** ** The values a record stores *)

Section StoredValues.







End StoredValues.


(** ** Columns the loader does not ask for *)

Lemma build_record_ext (df df' : DataFrame) (label : string) :
  (∀ c, c ∈ documented_columns → get_value df c = get_value df' c) →
  build_record df label = build_record df' label.
Proof.
  intros Heq. unfold build_record.
  assert (∀ cols, cols ⊆ documented_columns →
                  get_value df <$> cols = get_value df' <$> cols) as Hcols.
  { intros cols Hsub. apply list_fmap_ext. intros i c Hc.
    apply Heq, Hsub. apply list_elem_of_lookup. eauto. }
  rewrite (Hcols income_columns), (Hcols bedroom_columns),
    (Hcols parking_columns).
  - rewrite !Heq; [reflexivity| |];
      unfold documented_columns; rewrite !elem_of_app; right; right; right.
    + apply list_elem_of_further, list_elem_of_here.
    + apply list_elem_of_here.
  - intros c Hc. unfold documented_columns. rewrite !elem_of_app. auto.
  - intros c Hc. unfold documented_columns. rewrite !elem_of_app. auto.
  - intros c Hc. unfold documented_columns. rewrite !elem_of_app. auto.
Qed.

Lemma get_value_first_row (df : DataFrame) (row : string → Qc)
    (rest : list (string → Qc)) (c : string) :
  rows df = row :: rest →
  get_value df c = if bool_decide (c ∈ columns df) then row c else 0%Qc.
Proof.
  intros Hrows. unfold get_value, has_column, len. rewrite Hrows.
  case_bool_decide; reflexivity.
Qed.

(** X6.  Two tables with at least one row each, that carry the same
    documented columns and agree on them in their first row, load as the
    same record: the order of the columns, columns outside the documented
    vocabulary and rows after the first play no part. *)
Theorem undocumented_columns_ignored
    (df df' : DataFrame) (label : string)
    (row row' : string → Qc) (rest rest' : list (string → Qc)) :
  rows df = row :: rest → rows df' = row' :: rest' →
  (∀ c, c ∈ documented_columns →
        (c ∈ columns df ↔ c ∈ columns df')
        ∧ (c ∈ columns df → row c = row' c)) →
  build_record df label = build_record df' label.
Proof.
  intros Hrows Hrows' Hagree. apply build_record_ext. intros c Hc.
  rewrite (get_value_first_row df row rest c Hrows).
  rewrite (get_value_first_row df' row' rest' c Hrows').
  destruct (Hagree c Hc) as [Hiff Hcell].
  repeat case_bool_decide; tauto || auto.
Qed.

Lemma undocumented_columns_ignored_witness :
  build_record thirds_df "Unzoned" = build_record thirds_reordered_df "Unzoned".
Proof.
  apply (undocumented_columns_ignored thirds_df thirds_reordered_df "Unzoned"
           _ _ _ _ eq_refl eq_refl).
  apply Forall_forall. apply (bool_decide_unpack _). vm_compute. exact I.
Defined.

(** * Further properties of the script body *)

(** ** What the loading loop keeps and what it logs *)

Section LoadingLoop.

Variable read_csv : string → exn + DataFrame.

Lemma load_result_parsed (sc : scenario) :
  result (load_data_from_aggregation_csv read_csv (Some (url sc)) (name sc))
  = parsed read_csv sc.
Proof.
  unfold parsed. destruct sc as [[|a u] label]; [reflexivity|].
  cbn [url name]. rewrite bool_decide_eq_false_2 by discriminate.
  unfold load_data_from_aggregation_csv.
  destruct (read_csv (String a u)); reflexivity.
Qed.

Lemma errors_app (l1 l2 : list event) :
  errors (l1 ++ l2) = errors l1 ++ errors l2.
Proof. unfold errors. apply omap_app. Qed.

Lemma append_if_app (all_data : list ScenarioRecord)
    (data : option ScenarioRecord) :
  append_if all_data data = all_data ++ option_list data.
Proof. destruct data; simpl; [reflexivity|rewrite app_nil_r; reflexivity]. Qed.

Lemma load_scenarios_result (scs : list scenario)
    (all_data : list ScenarioRecord) :
  result (load_scenarios read_csv scs all_data)
  = all_data ++ omap (parsed read_csv) scs.
Proof.
  revert all_data. induction scs as [|sc scs IH]; intros all_data.
  - simpl. rewrite app_nil_r. reflexivity.
  - cbn [load_scenarios]. rewrite result_bind, IH, load_result_parsed.
    rewrite append_if_app, <- app_assoc. f_equal.
    cbn [omap list_omap]. destruct (parsed read_csv sc); reflexivity.
Qed.

Lemma load_all_as_scenarios (unzoned : string) (scs : list scenario) :
  load_all read_csv unzoned scs
  = load_scenarios read_csv (baseline unzoned :: scs) [].
Proof.
  unfold load_all. cbn [load_scenarios baseline url name].
  destruct unzoned as [|a u].
  - cbn [Py.truthy]. reflexivity.
  - cbn [Py.truthy].
    destruct (load_data_from_aggregation_csv read_csv (Some (String a u))
                "Unzoned") as [l data].
    unfold mbind, run_bind, mret, run_ret.
    destruct (load_scenarios read_csv scs (append_if [] data)) as [l2 b].
    rewrite app_nil_r. reflexivity.
Qed.

End LoadingLoop.

(** ** Which sources a page load selects *)

Section Selection.

Variable unquote : string → string.
Variable params : gmap string string.

(** An entry of slot [i] has a non-empty locator and the slot's name. *)
Lemma zoned_slot_entry (i : nat) (sc : scenario) :
  zoned_slot unquote params i = Some sc →
  url sc ≠ EmptyString ∧ name sc = slot_name i.
Proof.
  unfold zoned_slot.
  destruct (if Py.truthy (params !! ("zoned_url_" +:+ pretty i)) then _
            else _) as [[|a u]|]; try discriminate.
  intros [= <-]. split; [discriminate|reflexivity].
Qed.

(** A supplied locator is decoded; the default is not consulted. *)
Lemma zoned_slot_supplied (i : nat) (u : string) :
  params !! zoned_key i = Some u → u ≠ EmptyString →
  unquote u ≠ EmptyString →
  zoned_slot unquote params i
  = Some {| url := unquote u; name := slot_name i |}.
Proof.
  unfold zoned_key, zoned_slot. intros -> Hu Hq.
  destruct u as [|a u]; [congruence|]. cbn [Py.truthy fmap option_fmap option_map].
  destruct (unquote (String a u)) as [|b v]; [congruence|]. reflexivity.
Qed.

(** Slots 1 and 2 always give an entry when decoding keeps locators
    non-empty. *)
Lemma zoned_slot_low (i : nat) :
  keeps_nonempty unquote → (i < 3)%nat →
  ∃ u, u ≠ EmptyString
     ∧ zoned_slot unquote params i = Some {| url := u; name := slot_name i |}.
Proof.
  intros Hkeep Hi. unfold zoned_slot.
  destruct (params !! ("zoned_url_" +:+ pretty i)) as [[|a u]|] eqn:Hp.
  - cbn [Py.truthy negb andb]. rewrite bool_decide_eq_true_2 by exact Hi.
    exists default_zoned_url. split; [discriminate|reflexivity].
  - cbn [Py.truthy fmap option_fmap option_map].
    pose proof (Hkeep (String a u) ltac:(discriminate)) as Hq.
    destruct (unquote (String a u)) as [|b v] eqn:Hquq; [congruence|].
    exists (String b v). split; [discriminate|reflexivity].
  - cbn [Py.truthy negb andb]. rewrite bool_decide_eq_true_2 by exact Hi.
    exists default_zoned_url. split; [discriminate|reflexivity].
Qed.

Lemma slot_name_inj (i j : nat) : slot_name i = slot_name j → i = j.
Proof.
  unfold slot_name. intros H. cbn in H. injection H as H.
  exact (inj pretty _ _ H).
Qed.

Lemma omap_slots_names (slots : list nat) :
  name <$> omap (zoned_slot unquote params) slots
  = slot_name
      <$> filter (λ i, is_Some (zoned_slot unquote params i)) slots.
Proof.
  induction slots as [|i slots IH]; [reflexivity|].
  cbn [omap list_omap]. rewrite filter_cons.
  destruct (zoned_slot unquote params i) as [sc|] eqn:Hslot.
  - rewrite decide_True by eauto.
    rewrite !fmap_cons, IH.
    rewrite (proj2 (zoned_slot_entry i sc Hslot)). reflexivity.
  - rewrite decide_False by (intros [? ?]; discriminate). exact IH.
Qed.

Lemma zoned_scenarios_nonempty_urls :
  Forall (λ sc, url sc ≠ EmptyString) (zoned_scenarios unquote params).
Proof.
  apply Forall_forall. intros sc Hsc. unfold zoned_scenarios in Hsc.
  apply list_elem_of_omap in Hsc as (i & _ & Hslot).
  exact (proj1 (zoned_slot_entry i sc Hslot)).
Qed.

Lemma omap_length_le {A B} (f : A → option B) (l : list A) :
  (length (omap f l) ≤ length l)%nat.
Proof.
  induction l as [|x l IH]; [reflexivity|].
  cbn [omap list_omap]. destruct (f x); simpl; lia.
Qed.

Lemma zoned_scenarios_length :
  (length (zoned_scenarios unquote params) ≤ 9)%nat.
Proof.
  unfold zoned_scenarios.
  etransitivity; [apply omap_length_le|]. rewrite length_seq. reflexivity.
Qed.

Lemma zoned_scenarios_first_two :
  keeps_nonempty unquote →
  ∃ u1 u2 rest,
    u1 ≠ EmptyString ∧ u2 ≠ EmptyString
    ∧ zoned_scenarios unquote params
      = {| url := u1; name := "Scenario 1" |}
        :: {| url := u2; name := "Scenario 2" |} :: rest.
Proof.
  intros Hkeep.
  destruct (zoned_slot_low 1 Hkeep ltac:(lia)) as (u1 & Hu1 & H1).
  destruct (zoned_slot_low 2 Hkeep ltac:(lia)) as (u2 & Hu2 & H2).
  exists u1, u2, (omap (zoned_slot unquote params) (seq 3 7)).
  split; [exact Hu1|]. split; [exact Hu2|].
  unfold zoned_scenarios. cbn [seq omap list_omap]. rewrite H1, H2.
  reflexivity.
Qed.

End Selection.

(** X9.  A non-empty locator supplied for a scenario slot, whose decoding
    is not empty, appears decoded in the scenario list under the slot's
    name, and it is the only entry with that name: the default is not used
    for a slot that has its own locator. *)
Theorem supplied_locator_wins
    (unquote : string → string) (params : gmap string string)
    (i : nat) (u : string) :
  (1 ≤ i ≤ 9)%nat →
  params !! zoned_key i = Some u → u ≠ EmptyString →
  unquote u ≠ EmptyString →
  {| url := unquote u; name := slot_name i |} ∈ zoned_scenarios unquote params
  ∧ ∀ sc, sc ∈ zoned_scenarios unquote params →
          name sc = slot_name i → url sc = unquote u.
Proof.
  intros Hi Hp Hu Hq.
  pose proof (zoned_slot_supplied unquote params i u Hp Hu Hq) as Hslot.
  split.
  - unfold zoned_scenarios. apply list_elem_of_omap. exists i.
    split; [|exact Hslot]. apply elem_of_seq. lia.
  - intros sc Hsc Hname. unfold zoned_scenarios in Hsc.
    apply list_elem_of_omap in Hsc as (j & _ & Hj).
    destruct (zoned_slot_entry unquote params j sc Hj) as [_ Hnj].
    assert (j = i) as -> by (apply slot_name_inj; congruence).
    rewrite Hslot in Hj. injection Hj as <-. reflexivity.
Qed.

Lemma supplied_locator_wins_witness :
  {| url := "https://example.com/zoned3.csv"; name := slot_name 3 |}
    ∈ zoned_scenarios id only_slot_3
  ∧ ∀ sc, sc ∈ zoned_scenarios id only_slot_3 →
          name sc = slot_name 3 → url sc = "https://example.com/zoned3.csv".
Proof.
  apply (supplied_locator_wins id only_slot_3 3
           "https://example.com/zoned3.csv").
  - lia.
  - reflexivity.
  - discriminate.
  - discriminate.
Defined.

(** X10.  Whatever the query parameters, the scenario list has at most
    nine entries, every entry has a non-empty locator, and the names are
    "Scenario i" for slot numbers i taken from 1..9 in ascending order
    (slots that contribute nothing leave a gap in the numbering). *)
Theorem zoned_scenarios_shape
    (unquote : string → string) (params : gmap string string) :
  (length (zoned_scenarios unquote params) ≤ 9)%nat
  ∧ Forall (λ sc, url sc ≠ EmptyString) (zoned_scenarios unquote params)
  ∧ ∃ slots, slots `sublist_of` seq 1 9
      ∧ name <$> zoned_scenarios unquote params = slot_name <$> slots.
Proof.
  split; [apply zoned_scenarios_length|].
  split; [apply zoned_scenarios_nonempty_urls|].
  exists (filter (λ i, is_Some (zoned_slot unquote params i)) (seq 1 9)).
  split; [apply sublist_filter|apply omap_slots_names].
Qed.

(** ** The page load as a whole *)

Section PageLoad.

Variable read_csv : string → exn + DataFrame.
Variable unquote : string → string.
Variable params : gmap string string.

Lemma load_log_events (u : option string) (label : string) :
  Forall loader_event
    (log (load_data_from_aggregation_csv read_csv u label)).
Proof.
  destruct u as [[|a u]|]; try constructor.
  unfold load_data_from_aggregation_csv.
  destruct (read_csv (String a u)); repeat constructor.
Qed.

Lemma load_scenarios_log_events (scs : list scenario)
    (all_data : list ScenarioRecord) :
  Forall loader_event (log (load_scenarios read_csv scs all_data)).
Proof.
  revert all_data. induction scs as [|sc scs IH]; intros all_data.
  - constructor.
  - cbn [load_scenarios]. rewrite log_bind. apply Forall_app.
    split; [apply load_log_events|apply IH].
Qed.

(** The run of the script once the first validation is passed. *)
Lemma main_after_validation :
  Py.truthy (Some (unzoned_csv_url unquote params)) = true
  ∨ zoned_scenarios unquote params ≠ [] →
  let recs := omap (parsed read_csv) (sources unquote params) in
  log (main read_csv unquote params)
  = log (load_all read_csv (unzoned_csv_url unquote params)
           (zoned_scenarios unquote params))
    ++ match recs with [] => no_data_tail | _ => [] end
  ∧ result (main read_csv unquote params)
    = match recs with [] => Stopped | _ => render recs end.
Proof.
  intros Hsrc. cbv zeta. unfold main.
  assert (negb (Py.truthy (Some (unzoned_csv_url unquote params)))
          && bool_decide (zoned_scenarios unquote params = []) = false)
    as ->.
  { destruct Hsrc as [-> | Hne]; [reflexivity|].
    rewrite (bool_decide_eq_false_2 _ Hne). apply andb_false_r. }
  rewrite log_bind, result_bind.
  rewrite load_all_as_scenarios, load_scenarios_result, app_nil_l.
  fold (sources unquote params).
  destruct (omap (parsed read_csv) (sources unquote params));
    split; reflexivity.
Qed.

End PageLoad.

Section Rendering.

Lemma filter_all {A} (P : A → Prop) `{∀ x, Decision (P x)} (l : list A) :
  Forall P l → filter P l = l.
Proof.
  induction 1 as [|x l Hx _ IH]; [reflexivity|].
  rewrite filter_cons_True by exact Hx. f_equal. exact IH.
Qed.



Lemma loaded_lengths (all_data : list ScenarioRecord) :
  Forall loaded all_data →
  Forall (λ d, length income_brackets ≤ length (income_pct d))%nat all_data
  ∧ Forall (λ d, length bedroom_counts ≤ length (bedroom_pct d))%nat all_data
  ∧ Forall (λ d, length parking_types ≤ length (parking_pct d))%nat all_data.
Proof.
  intros Hall. repeat split; (eapply Forall_impl; [exact Hall|]);
    intros d (df & label & ->); cbv beta;
    destruct (build_record_lengths df label) as (Hi & Hb & Hp);
    rewrite ?Hi, ?Hb, ?Hp; simpl; lia.
Qed.

End Rendering.

(** X11.  When decoding never turns a non-empty locator into the empty
    one, a page load always has its baseline and its first two scenario
    slots: the baseline locator is not empty, the scenario list starts with
    Scenario 1 and Scenario 2, so the "Data not found" branch with its
    usage hint is never taken, and between 3 and 10 sources are read, the
    baseline first. *)
Theorem defaults_always_give_sources
    (read_csv : string → exn + DataFrame) (unquote : string → string)
    (params : gmap string string) :
  keeps_nonempty unquote →
  unzoned_csv_url unquote params ≠ EmptyString
  ∧ (∃ u1 u2 rest,
       zoned_scenarios unquote params
       = {| url := u1; name := "Scenario 1" |}
         :: {| url := u2; name := "Scenario 2" |} :: rest)
  ∧ (∀ msg, EvInfo msg ∉ log (main read_csv unquote params))
  ∧ reads (log (main read_csv unquote params))
    = unzoned_csv_url unquote params
      :: (url <$> zoned_scenarios unquote params)
  ∧ (3 ≤ length (reads (log (main read_csv unquote params))) ≤ 10)%nat.
Proof.
  intros Hkeep.
  assert (unzoned_csv_url unquote params ≠ EmptyString) as Hunz.
  { unfold unzoned_csv_url.
    destruct (params !! "unzoned_url") as [[|a u]|]; try discriminate.
    apply Hkeep. discriminate. }
  destruct (zoned_scenarios_first_two unquote params Hkeep)
    as (u1 & u2 & rest & _ & _ & Hzs).
  assert (Py.truthy (Some (unzoned_csv_url unquote params)) = true) as Htruthy
    by (destruct (unzoned_csv_url unquote params); [congruence|reflexivity]).
  destruct (main_after_validation read_csv unquote params (or_introl Htruthy))
    as [Hlog _].
  assert (reads (log (main read_csv unquote params))
          = unzoned_csv_url unquote params
            :: (url <$> zoned_scenarios unquote params)) as Hreads.
  { rewrite Hlog, reads_app, reads_load_all.
    replace (reads (match omap (parsed read_csv) (sources unquote params) with
                    | [] => no_data_tail
                    | _ :: _ => []
                    end)) with (@nil string)
      by (destruct (omap _ _); reflexivity).
    rewrite app_nil_r. rewrite filter_cons, decide_True by exact Hunz.
    f_equal. apply filter_all, Forall_fmap.
    exact (zoned_scenarios_nonempty_urls unquote params). }
  split; [exact Hunz|]. split; [eauto|]. split; [|split; [exact Hreads|]].
  - intros msg Hin. rewrite Hlog in Hin. apply elem_of_app in Hin as [Hin|Hin].
    + rewrite load_all_as_scenarios in Hin.
      pose proof (load_scenarios_log_events read_csv
                    (baseline (unzoned_csv_url unquote params)
                       :: zoned_scenarios unquote params) []) as Hev.
      exact (proj1 (Forall_forall _ _) Hev _ Hin).
    + destruct (omap _ _); [|inversion Hin].
      unfold no_data_tail in Hin.
      apply elem_of_cons in Hin as [Hin|Hin]; [discriminate|].
      apply list_elem_of_singleton in Hin. discriminate.
  - rewrite Hreads. cbn [length]. rewrite length_fmap.
    pose proof (zoned_scenarios_length unquote params) as Hle.
    rewrite Hzs in *. cbn [length] in *. lia.
Qed.

Lemma defaults_always_give_sources_witness :
  unzoned_csv_url id only_slot_3 ≠ EmptyString
  ∧ (∃ u1 u2 rest,
       zoned_scenarios id only_slot_3
       = {| url := u1; name := "Scenario 1" |}
         :: {| url := u2; name := "Scenario 2" |} :: rest)
  ∧ (∀ msg, EvInfo msg ∉ log (main unreachable id only_slot_3))
  ∧ reads (log (main unreachable id only_slot_3))
    = unzoned_csv_url id only_slot_3 :: (url <$> zoned_scenarios id only_slot_3)
  ∧ (3 ≤ length (reads (log (main unreachable id only_slot_3))) ≤ 10)%nat.
Proof.
  apply (defaults_always_give_sources unreachable id only_slot_3).
  intros s Hs. exact Hs.
Defined.

(** * Further properties of the chart builders *)

(** ** The grouped chart *)

Section GroupedChartFacts.

Variable scenario_names : list string.
Variable color : string.


End GroupedChartFacts.

Section Labels.




End Labels.





(** ** The stacked chart *)

Section StackedChartFacts.

Variable all_data : list ScenarioRecord.
Variable data_key : string.
Variable colors : gmap string string.

(** A trace in full. *)
Lemma stacked_trace_eq (i : nat) (category : string) (bar : Bar Z) :
  stacked_trace all_data data_key colors i category = Some bar →
  ∃ values color,
    category_values all_data data_key i = Some values
    ∧ colors !! category = Some color
    ∧ bar = {| bar_name := category;
               bar_x := scenario_name <$> all_data;
               bar_y := values;
               bar_marker_color := color;
               bar_text := (λ v, if bool_decide (0 < v)
                                 then pretty v +:+ "%" else EmptyString)
                             <$> values;
               bar_hovertemplate := category +:+ ": %{y}%<extra></extra>";
               bar_customdata := None |}.
Proof.
  unfold stacked_trace. intros Hb.
  destruct (category_values all_data data_key i) as [values|];
    [|discriminate].
  cbn [mbind option_bind] in Hb.
  destruct (colors !! category) as [color|]; [|discriminate].
  cbn [mbind option_bind] in Hb. injection Hb as <-.
  exists values, color. repeat split.
Qed.

Lemma stacked_trace_None (i : nat) (category : string) :
  category_values all_data data_key i = None ∨ colors !! category = None →
  stacked_trace all_data data_key colors i category = None.
Proof.
  unfold stacked_trace. intros [-> | Hc]; [reflexivity|].
  destruct (category_values all_data data_key i); [|reflexivity].
  cbn [mbind option_bind]. rewrite Hc. reflexivity.
Qed.

Lemma stacked_chart_None (categories : list string) (i : nat)
    (category : string) :
  categories !! i = Some category →
  stacked_trace all_data data_key colors i category = None →
  create_multi_scenario_stacked_chart all_data categories data_key colors
  = None.
Proof.
  intros Hi Hnone. unfold create_multi_scenario_stacked_chart.
  rewrite (mapM_None_2 _ (imap pair categories)); [reflexivity|].
  apply Exists_exists. exists (i, category). split; [|exact Hnone].
  apply list_elem_of_lookup. exists i.
  rewrite list_lookup_imap, Hi. reflexivity.
Qed.

Lemma category_values_unknown (i : nat) :
  pct_of_key data_key = None → category_values all_data data_key i = None.
Proof.
  unfold pct_of_key, category_values.
  repeat case_bool_decide; (discriminate || reflexivity).
Qed.

Lemma category_values_short (sel : ScenarioRecord → list Z)
    (d : ScenarioRecord) :
  pct_of_key data_key = Some sel → d ∈ all_data →
  category_values all_data data_key (length (sel d)) = None.
Proof.
  intros Hsel Hd.
  assert (mapM (λ d', sel d' !! length (sel d)) all_data = None) as Hm.
  { apply mapM_None_2, Exists_exists. exists d. split; [exact Hd|].
    apply lookup_ge_None. lia. }
  unfold pct_of_key in Hsel. unfold category_values.
  repeat case_bool_decide; try discriminate; injection Hsel as <-; exact Hm.
Qed.

Lemma append_percent_nonempty (s : string) : s +:+ "%" ≠ EmptyString.
Proof. destruct s; discriminate. Qed.

End StackedChartFacts.

(** X16.  A stacked chart that is built has one bar series per category,
    named after the categories in their input order and stacked; every
    series runs over the scenario names in record order, has one y-value
    and one text label per record, wears the colour the colour table gives
    its category, and carries no custom data. *)
Theorem stacked_chart_shape
    (all_data : list ScenarioRecord) (categories : list string)
    (data_key : string) (colors : gmap string string) (fig : Figure Z) :
  create_multi_scenario_stacked_chart all_data categories data_key colors
  = Some fig →
  bar_name <$> traces fig = categories
  ∧ barmode fig = "stack"
  ∧ Forall (λ bar,
              bar_x bar = scenario_name <$> all_data
              ∧ length (bar_y bar) = length all_data
              ∧ length (bar_text bar) = length all_data
              ∧ colors !! bar_name bar = Some (bar_marker_color bar)
              ∧ bar_customdata bar = None)
      (traces fig).
Proof.
  intros Hfig.
  destruct (stacked_chart_traces _ _ _ _ _ Hfig) as [Hlen Htr].
  split; [|split].
  - apply list_eq. intros i. rewrite list_lookup_fmap.
    destruct (traces fig !! i) as [bar|] eqn:Hi.
    + destruct (Htr i bar Hi) as (c & Hc & Hbar).
      apply stacked_trace_eq in Hbar as (vs & col & _ & _ & ->).
      rewrite Hc. reflexivity.
    + apply lookup_ge_None in Hi. symmetry. apply lookup_ge_None. lia.
  - unfold create_multi_scenario_stacked_chart in Hfig.
    destruct (mapM _ _); [|discriminate].
    cbn in Hfig. injection Hfig as <-. reflexivity.
  - apply Forall_forall. intros bar Hbar.
    apply list_elem_of_lookup in Hbar as [i Hi].
    destruct (Htr i bar Hi) as (c & Hc & Htrace).
    apply stacked_trace_eq in Htrace as (vs & col & Hvs & Hcol & ->).
    apply category_values_entries in Hvs as (sel & _ & Hlenvs & _).
    cbn [bar_x bar_y bar_text bar_name bar_marker_color bar_customdata].
    rewrite length_fmap. repeat split; assumption.
Qed.

Lemma stacked_chart_shape_witness :
  bar_name <$> traces thirds_fig = income_brackets
  ∧ barmode thirds_fig = "stack"
  ∧ Forall (λ bar,
              bar_x bar
              = scenario_name <$> [build_record thirds_df "Unzoned";
                                   build_record thirds_df "Scenario 1"]
              ∧ length (bar_y bar) = 2%nat
              ∧ length (bar_text bar) = 2%nat
              ∧ income_bracket_colors !! bar_name bar
                = Some (bar_marker_color bar)
              ∧ bar_customdata bar = None)
      (traces thirds_fig).
Proof.
  apply (stacked_chart_shape
           [build_record thirds_df "Unzoned";
            build_record thirds_df "Scenario 1"]
           income_brackets "income_pct" income_bracket_colors thirds_fig).
  vm_compute. reflexivity.
Defined.

(** X17.  In every series of a stacked chart the text label of a bar is
    its percentage followed by a percent sign when the percentage is
    positive, and empty otherwise; so a label is empty exactly when the
    percentage is not positive. *)
Theorem stacked_labels
    (all_data : list ScenarioRecord) (categories : list string)
    (data_key : string) (colors : gmap string string) (fig : Figure Z) :
  create_multi_scenario_stacked_chart all_data categories data_key colors
  = Some fig →
  Forall (λ bar,
            Forall2 (λ label y,
                       (0 < y → label = pretty y +:+ "%")
                       ∧ (label = EmptyString ↔ y ≤ 0))
              (bar_text bar) (bar_y bar))
    (traces fig).
Proof.
  intros Hfig.
  destruct (stacked_chart_traces _ _ _ _ _ Hfig) as [_ Htr].
  apply Forall_forall. intros bar Hbar.
  apply list_elem_of_lookup in Hbar as [i Hi].
  destruct (Htr i bar Hi) as (c & _ & Htrace).
  apply stacked_trace_eq in Htrace as (vs & col & _ & _ & ->).
  cbn [bar_text bar_y].
  apply Forall2_fmap_l, Forall_Forall2_diag, Forall_forall.
  intros y _. unfold compose. cbv beta. case_bool_decide as Hy.
  - split; [reflexivity|]. split; [|lia].
    intros Hempty. exfalso. exact (append_percent_nonempty _ Hempty).
  - split; [lia|]. split; [lia|reflexivity].
Qed.

Lemma stacked_labels_witness :
  Forall (λ bar,
            Forall2 (λ label y,
                       (0 < y → label = pretty y +:+ "%")
                       ∧ (label = EmptyString ↔ y ≤ 0))
              (bar_text bar) (bar_y bar))
    (traces thirds_fig).
Proof.
  apply (stacked_labels
           [build_record thirds_df "Unzoned";
            build_record thirds_df "Scenario 1"]
           income_brackets "income_pct" income_bracket_colors thirds_fig).
  vm_compute. reflexivity.
Defined.

(** X18.  The stacked chart raises exactly when there is at least one
    category and either the data key is none of the three it knows, or
    some category has no colour in the colour table, or some record has
    fewer entries under the key than there are categories.  With no
    category at all it returns a chart without series, even for an unknown
    key. *)
Theorem stacked_chart_raises_iff
    (all_data : list ScenarioRecord) (categories : list string)
    (data_key : string) (colors : gmap string string) :
  create_multi_scenario_stacked_chart all_data categories data_key colors
  = None
  ↔ categories ≠ []
    ∧ (pct_of_key data_key = None
       ∨ Exists (λ c, colors !! c = None) categories
       ∨ ∃ sel, pct_of_key data_key = Some sel
           ∧ Exists (λ d, length (sel d) < length categories)%nat all_data).
Proof.
  split.
  - intros Hnone. destruct categories as [|c cs] eqn:Hcats.
    { discriminate Hnone. }
    split; [discriminate|]. rewrite <- Hcats in *. clear Hcats c cs.
    destruct (pct_of_key data_key) as [sel|] eqn:Hsel; [|auto].
    right.
    destruct (decide (Exists (λ c, colors !! c = None) categories))
      as [Hmiss|Hcov]; [auto|].
    right. exists sel. split; [reflexivity|].
    destruct (decide (Exists (λ d, length (sel d) < length categories)%nat
                        all_data)) as [Hshort|Hlong]; [exact Hshort|].
    exfalso.
    apply not_Exists_Forall in Hcov; [|intros; apply _].
    apply not_Exists_Forall in Hlong; [|intros; apply _].
    assert (is_Some (create_multi_scenario_stacked_chart all_data categories
                       data_key colors)) as [fig Hfig].
    { apply (stacked_chart_returns all_data categories data_key colors sel
               Hsel).
      - eapply Forall_impl; [exact Hlong|]. intros d Hd. cbn in Hd. lia.
      - eapply Forall_impl; [exact Hcov|]. intros c Hc. cbn in Hc.
        destruct (colors !! c); [eauto|congruence]. }
    congruence.
  - intros [Hne [Hkey|[Hmiss|(sel & Hsel & Hshort)]]].
    + destruct categories as [|c cs]; [congruence|].
      apply (stacked_chart_None all_data data_key colors (c :: cs) 0 c eq_refl).
      apply stacked_trace_None. left.
      apply category_values_unknown, Hkey.
    + apply Exists_exists in Hmiss as (c & Hc & Hcol).
      apply list_elem_of_lookup in Hc as [i Hi].
      apply (stacked_chart_None all_data data_key colors categories i c Hi).
      apply stacked_trace_None. right. exact Hcol.
    + apply Exists_exists in Hshort as (d & Hd & Hlen).
      destruct (lookup_lt_is_Some_2 categories (length (sel d)) Hlen)
        as [c Hc].
      apply (stacked_chart_None all_data data_key colors categories _ c Hc).
      apply stacked_trace_None. left.
      apply (category_values_short all_data data_key sel d Hsel Hd).
Qed.

(** * Further properties: the data behind the tables *)

Section TableData.

Context {A B : Type}.

Lemma imap_pair_snd (labels : list string) (n : nat) :
  (imap (λ i, pair (n + i)%nat) labels).*2 = labels.
Proof.
  revert n. induction labels as [|l labels IH]; intros n; [reflexivity|].
  rewrite imap_cons. cbn [fmap list_fmap snd]. f_equal.
  rewrite <- (IH (S n)) at 2. f_equal. apply imap_ext.
  intros i x _. cbn. f_equal. lia.
Qed.

Lemma imap_pair_labels (labels : list string) :
  (imap pair labels).*2 = labels.
Proof. exact (imap_pair_snd labels 0). Qed.

Lemma elem_of_imap_pair (labels : list string) (i : nat) (l : string) :
  (i, l) ∈ imap pair labels ↔ labels !! i = Some l.
Proof.
  rewrite list_elem_of_lookup. split.
  - intros [j Hj]. rewrite list_lookup_imap in Hj.
    destruct (labels !! j) eqn:Hlj; [|discriminate].
    cbn in Hj. injection Hj as <- <-. exact Hlj.
  - intros Hi. exists i. rewrite list_lookup_imap, Hi. reflexivity.
Qed.

Lemma empty_columns_lookup (labels : list string) (l : string) :
  l ∈ labels → (empty_columns labels : gmap string (list A)) !! l = Some [].
Proof.
  intros Hl. unfold empty_columns.
  induction labels as [|l' labels IH]; [inversion Hl|].
  cbn [fmap list_fmap list_to_map foldr].
  destruct (decide (l' = l)) as [->|Hne].
  - apply lookup_insert_eq.
  - rewrite lookup_insert_ne by exact Hne. apply IH.
    apply elem_of_cons in Hl as [->|Hl]; [congruence|exact Hl].
Qed.

(** One record: under every label that is left the two dicts grow by the
    record's entries, and no other key changes. *)
Lemma fill_record_spec (ils : list (nat * string))
    (values : list A) (pcts : list B)
    (dv : gmap string (list A)) (dp : gmap string (list B)) :
  NoDup ils.*2 →
  (∀ i l, (i, l) ∈ ils →
          is_Some (values !! i) ∧ is_Some (pcts !! i)
          ∧ is_Some (dv !! l) ∧ is_Some (dp !! l)) →
  ∃ dv' dp',
    fill_record ils values pcts (dv, dp) = Some (dv', dp')
    ∧ (∀ i l v p cv cp, (i, l) ∈ ils →
         values !! i = Some v → pcts !! i = Some p →
         dv !! l = Some cv → dp !! l = Some cp →
         dv' !! l = Some (cv ++ [v]) ∧ dp' !! l = Some (cp ++ [p]))
    ∧ (∀ l, l ∉ ils.*2 → dv' !! l = dv !! l ∧ dp' !! l = dp !! l).
Proof.
  revert dv dp. induction ils as [|[i l] ils IH]; intros dv dp Hnd Hpre.
  - exists dv, dp. split; [reflexivity|]. split; [|auto].
    intros i l v p cv cp Hin. inversion Hin.
  - cbn [fmap list_fmap snd] in Hnd. apply NoDup_cons in Hnd as [Hl Hnd].
    destruct (Hpre i l ltac:(apply list_elem_of_here))
      as ([v Hv] & [p Hp] & [cv Hcv] & [cp Hcp]).
    destruct (IH (<[l := cv ++ [v]]> dv) (<[l := cp ++ [p]]> dp) Hnd)
      as (dv' & dp' & Hrun & Hin & Hout).
    { intros i' l' Hin'.
      assert (l' ≠ l) as Hne.
      { intros ->. apply Hl. apply list_elem_of_fmap. exists (i', l). auto. }
      destruct (Hpre i' l' ltac:(apply list_elem_of_further; exact Hin'))
        as (? & ? & ? & ?).
      rewrite !lookup_insert_ne by congruence. auto. }
    exists dv', dp'. split; [|split].
    + cbn [fill_record]. rewrite Hv. cbn [mbind option_bind].
      unfold append_to. cbn [fst snd]. rewrite Hcv. cbn [mbind option_bind].
      rewrite Hp. cbn [mbind option_bind]. rewrite Hcp.
      cbn [mbind option_bind]. exact Hrun.
    + intros i' l' v' p' cv' cp' Hin' Hv' Hp' Hcv' Hcp'.
      apply elem_of_cons in Hin' as [Heq|Hin'].
      * injection Heq as -> ->.
        destruct (Hout l Hl) as [-> ->].
        rewrite !lookup_insert_eq. split; congruence.
      * assert (l' ≠ l) as Hne.
        { intros ->. apply Hl. apply list_elem_of_fmap. exists (i', l). auto. }
        apply (Hin i' l' v' p' cv' cp' Hin' Hv' Hp');
          rewrite lookup_insert_ne by congruence; assumption.
    + intros l' Hl'. cbn [fmap list_fmap snd] in Hl'.
      apply not_elem_of_cons in Hl' as [Hne Hl'].
      destruct (Hout l' Hl') as [-> ->].
      rewrite !lookup_insert_ne by congruence. split; reflexivity.
Qed.

Variable labels : list string.
Variable sel_values : ScenarioRecord → list A.
Variable sel_pct : ScenarioRecord → list B.

Lemma fill_all_spec (all_data done : list ScenarioRecord)
    (dv : gmap string (list A)) (dp : gmap string (list B)) :
  NoDup labels → long_enough labels sel_values sel_pct all_data →
  (∀ i l, labels !! i = Some l →
          dv !! l = Some (column_of sel_values i done)
          ∧ dp !! l = Some (column_of sel_pct i done)) →
  ∃ dv' dp',
    fill_all labels sel_values sel_pct all_data (dv, dp) = Some (dv', dp')
    ∧ ∀ i l, labels !! i = Some l →
        dv' !! l = Some (column_of sel_values i (done ++ all_data))
        ∧ dp' !! l = Some (column_of sel_pct i (done ++ all_data)).
Proof.
  intros Hnd. revert done dv dp.
  induction all_data as [|d all_data IH]; intros done dv dp Hlong Hinv.
  - exists dv, dp. split; [reflexivity|]. rewrite app_nil_r. exact Hinv.
  - apply Forall_cons in Hlong as [[Hlv Hlp] Hlong].
    destruct (fill_record_spec (imap pair labels) (sel_values d) (sel_pct d)
                dv dp) as (dv1 & dp1 & Hrun & Hin & _).
    { rewrite imap_pair_labels. exact Hnd. }
    { intros i l Hil. apply elem_of_imap_pair in Hil.
      pose proof (lookup_lt_Some _ _ _ Hil) as Hi.
      destruct (Hinv i l Hil) as [Hdv Hdp].
      split; [apply lookup_lt_is_Some; lia|].
      split; [apply lookup_lt_is_Some; lia|]. split; eauto. }
    destruct (IH (done ++ [d]) dv1 dp1 Hlong) as (dv' & dp' & Hrun' & Hfin).
    { intros i l Hil.
      destruct (Hinv i l Hil) as [Hdv Hdp].
      pose proof (lookup_lt_Some _ _ _ Hil) as Hi.
      destruct (lookup_lt_is_Some_2 (sel_values d) i ltac:(lia)) as [v Hv].
      destruct (lookup_lt_is_Some_2 (sel_pct d) i ltac:(lia)) as [p Hp].
      destruct (Hin i l v p _ _ (proj2 (elem_of_imap_pair labels i l) Hil)
                  Hv Hp Hdv Hdp) as [-> ->].
      unfold column_of. rewrite !omap_app.
      cbn [omap list_omap]. rewrite Hv, Hp. split; reflexivity. }
    exists dv', dp'. split.
    + cbn [fill_all]. rewrite Hrun. cbn [mbind option_bind]. exact Hrun'.
    + intros i l Hil. rewrite (cons_middle d done all_data), app_assoc.
      apply Hfin, Hil.
Qed.

Lemma column_of_length {C} (sel : ScenarioRecord → list C) (i : nat)
    (all_data : list ScenarioRecord) :
  Forall (λ d, i < length (sel d))%nat all_data →
  length (column_of sel i all_data) = length all_data.
Proof.
  induction 1 as [|d ds Hd _ IH]; [reflexivity|].
  unfold column_of in *. cbn [omap list_omap].
  destruct (lookup_lt_is_Some_2 (sel d) i Hd) as [x ->].
  cbn [length]. rewrite IH. reflexivity.
Qed.

Lemma column_of_mapM {C} (sel : ScenarioRecord → list C) (i : nat)
    (all_data : list ScenarioRecord) (col : list C) :
  mapM (λ d, sel d !! i) all_data = Some col →
  column_of sel i all_data = col.
Proof.
  intros Hm. apply mapM_Some_1 in Hm. unfold column_of.
  induction Hm as [|d x ds xs Hx _ IH]; [reflexivity|].
  cbn [omap list_omap]. rewrite Hx, IH. reflexivity.
Qed.

End TableData.

Section Breakdowns.

Context {A B : Type}.
Variable labels : list string.
Variable sel_values : ScenarioRecord → list A.
Variable sel_pct : ScenarioRecord → list B.
Variable all_data : list ScenarioRecord.

Hypothesis labels_distinct : NoDup labels.
Hypothesis records_long : long_enough labels sel_values sel_pct all_data.

Lemma breakdown_data_spec :
  ∃ dv dp,
    breakdown_data labels sel_values sel_pct all_data = Some (dv, dp)
    ∧ ∀ i l, labels !! i = Some l →
        dv !! l = Some (column_of sel_values i all_data)
        ∧ dp !! l = Some (column_of sel_pct i all_data).
Proof.
  unfold breakdown_data.
  apply (fill_all_spec labels sel_values sel_pct all_data []
           (empty_columns labels) (empty_columns labels)
           labels_distinct records_long).
  intros i l Hil. assert (l ∈ labels) as Hl
    by (apply list_elem_of_lookup; eauto).
  split; apply empty_columns_lookup, Hl.
Qed.

Lemma columns_full (i : nat) (l : string) :
  labels !! i = Some l →
  length (column_of sel_values i all_data) = length all_data
  ∧ length (column_of sel_pct i all_data) = length all_data.
Proof.
  intros Hil. pose proof (lookup_lt_Some _ _ _ Hil) as Hi.
  split; apply column_of_length;
    (eapply Forall_impl; [exact records_long|]);
    intros d [Hv Hp]; cbv beta; lia.
Qed.

Lemma transposed_frame_spec (dv : gmap string (list A)) :
  (∀ i l, labels !! i = Some l →
          dv !! l = Some (column_of sel_values i all_data)) →
  transposed_frame labels dv (scenario_name <$> all_data)
  = Some (imap (λ i l, (l, column_of sel_values i all_data)) labels).
Proof.
  intros Hdv. unfold transposed_frame. apply mapM_Some_2.
  apply Forall2_same_length_lookup_2; [rewrite length_imap; reflexivity|].
  intros i l row Hl Hrow. rewrite list_lookup_imap, Hl in Hrow.
  cbn in Hrow. injection Hrow as <-.
  rewrite (Hdv i l Hl). cbn [mbind option_bind].
  rewrite bool_decide_eq_true_2; [reflexivity|].
  rewrite length_fmap. apply (columns_full i l Hl).
Qed.

End Breakdowns.

Section ChartAgainstTable.

Lemma category_values_mapM (all_data : list ScenarioRecord)
    (data_key : string) (sel : ScenarioRecord → list Z) (i : nat) :
  pct_of_key data_key = Some sel →
  category_values all_data data_key i = mapM (λ d, sel d !! i) all_data.
Proof.
  unfold pct_of_key, category_values.
  repeat case_bool_decide; intros [= <-]; reflexivity.
Qed.

Lemma chart_matches_pct_dict {A} (labels : list string)
    (sel_values : ScenarioRecord → list A) (sel_pct : ScenarioRecord → list Z)
    (data_key : string) (colors : gmap string string)
    (all_data : list ScenarioRecord)
    (dv : gmap string (list A)) (dp : gmap string (list Z))
    (fig : Figure Z) :
  pct_of_key data_key = Some sel_pct →
  (∀ i l, labels !! i = Some l →
          dp !! l = Some (column_of sel_pct i all_data)) →
  create_multi_scenario_stacked_chart all_data labels data_key colors
  = Some fig →
  Forall (λ bar, dp !! bar_name bar = Some (bar_y bar)) (traces fig).
Proof.
  intros Hkey Hdp Hfig.
  destruct (stacked_chart_traces _ _ _ _ _ Hfig) as [_ Htr].
  apply Forall_forall. intros bar Hbar.
  apply list_elem_of_lookup in Hbar as [i Hi].
  destruct (Htr i bar Hi) as (l & Hl & Htrace).
  apply stacked_trace_values in Htrace as (Hvals & -> & _).
  rewrite (category_values_mapM all_data data_key sel_pct i Hkey) in Hvals.
  rewrite (Hdp i l Hl). f_equal. apply column_of_mapM, Hvals.
Qed.

Lemma loaded_long_enough (all_data : list ScenarioRecord) :
  Forall loaded all_data →
  long_enough income_brackets income_values income_pct all_data
  ∧ long_enough bedroom_counts bedroom_values bedroom_pct all_data
  ∧ long_enough parking_types parking_values parking_pct all_data.
Proof.
  intros Hall. unfold long_enough.
  repeat split; (eapply Forall_impl; [exact Hall|]);
    intros d (df & label & ->); cbv beta; unfold build_record;
    cbn [income_values income_pct bedroom_values bedroom_pct
         parking_values parking_pct];
    rewrite percentages_length, !length_fmap; simpl; lia.
Qed.

Lemma script_labels_distinct :
  NoDup income_brackets ∧ NoDup bedroom_counts ∧ NoDup parking_types.
Proof. repeat split; apply (bool_decide_unpack _); vm_compute; exact I. Qed.

End ChartAgainstTable.

(** X19.  For labels without repetition and records that have an entry
    for every label, the two loops that fill the table dicts never raise;
    under the label of category [i] the values dict holds entry [i] of
    each record's values and the percentage dict entry [i] of each record's
    percentages, one per record in record order; the transposed table built
    from the values dict has one row per label, in label order, and one
    column per scenario. *)
Theorem breakdown_data_columns {A B} (labels : list string)
    (sel_values : ScenarioRecord → list A) (sel_pct : ScenarioRecord → list B)
    (all_data : list ScenarioRecord) :
  NoDup labels → long_enough labels sel_values sel_pct all_data →
  ∃ dv dp,
    breakdown_data labels sel_values sel_pct all_data = Some (dv, dp)
    ∧ (∀ i l, labels !! i = Some l →
         dv !! l = Some (column_of sel_values i all_data)
         ∧ dp !! l = Some (column_of sel_pct i all_data)
         ∧ length (column_of sel_values i all_data) = length all_data
         ∧ length (column_of sel_pct i all_data) = length all_data)
    ∧ transposed_frame labels dv (scenario_name <$> all_data)
      = Some (imap (λ i l, (l, column_of sel_values i all_data)) labels).
Proof.
  intros Hnd Hlong.
  destruct (breakdown_data_spec labels sel_values sel_pct all_data Hnd Hlong)
    as (dv & dp & Hrun & Hcols).
  exists dv, dp. split; [exact Hrun|]. split.
  - intros i l Hil. destruct (Hcols i l Hil) as [Hdv Hdp].
    destruct (columns_full labels sel_values sel_pct all_data Hlong i l Hil)
      as [Hlv Hlp].
    auto.
  - apply (transposed_frame_spec labels sel_values sel_pct all_data Hlong).
    intros i l Hil. apply (Hcols i l Hil).
Qed.

Lemma breakdown_data_columns_witness :
  let rs := [build_record thirds_df "Unzoned";
             build_record fractional_df "Scenario 1"] in
  ∃ dv dp,
    income_data rs = Some (dv, dp)
    ∧ (∀ i l, income_brackets !! i = Some l →
         dv !! l = Some (column_of income_values i rs)
         ∧ dp !! l = Some (column_of income_pct i rs)
         ∧ length (column_of income_values i rs) = length rs
         ∧ length (column_of income_pct i rs) = length rs)
    ∧ transposed_frame income_brackets dv (scenario_name <$> rs)
      = Some (imap (λ i l, (l, column_of income_values i rs)) income_brackets).
Proof.
  intros rs.
  apply (breakdown_data_columns income_brackets income_values income_pct rs).
  - apply (bool_decide_unpack _). vm_compute. exact I.
  - repeat constructor.
Defined.

(** X20.  For records that come from the loader the three breakdowns of
    the script never raise, and what they collect is what the charts plot:
    in each breakdown the percentage dict holds, under the name of every
    bar series of the corresponding stacked chart, exactly the y-values of
    that series. *)
Theorem charts_plot_the_table_percentages (all_data : list ScenarioRecord) :
  Forall loaded all_data →
  (∃ dv dp fig,
     income_data all_data = Some (dv, dp)
     ∧ create_multi_scenario_stacked_chart all_data income_brackets
         "income_pct" income_bracket_colors = Some fig
     ∧ Forall (λ bar, dp !! bar_name bar = Some (bar_y bar)) (traces fig))
  ∧ (∃ dv dp fig,
       bedroom_data all_data = Some (dv, dp)
       ∧ create_multi_scenario_stacked_chart all_data bedroom_counts
           "bedroom_pct" bedroom_count_colors = Some fig
       ∧ Forall (λ bar, dp !! bar_name bar = Some (bar_y bar)) (traces fig))
  ∧ (∃ dv dp fig,
       parking_data all_data = Some (dv, dp)
       ∧ create_multi_scenario_stacked_chart all_data parking_types
           "parking_pct" parking_type_colors = Some fig
       ∧ Forall (λ bar, dp !! bar_name bar = Some (bar_y bar)) (traces fig)).
Proof.
  intros Hall.
  destruct (loaded_long_enough all_data Hall) as (Hli & Hlb & Hlp).
  destruct (loaded_lengths all_data Hall) as (Hci & Hcb & Hcp).
  destruct script_labels_distinct as (Hni & Hnb & Hnp).
  destruct colors_cover as (Hcoli & Hcolb & Hcolp).
  split; [|split].
  - destruct (breakdown_data_spec income_brackets income_values income_pct
                all_data Hni Hli) as (dv & dp & Hrun & Hcols).
    destruct (stacked_chart_returns all_data income_brackets "income_pct"
                income_bracket_colors income_pct eq_refl Hci Hcoli)
      as [fig Hfig].
    exists dv, dp, fig. split; [exact Hrun|]. split; [exact Hfig|].
    apply (chart_matches_pct_dict income_brackets income_values income_pct
             "income_pct" income_bracket_colors all_data dv dp fig eq_refl);
      [|exact Hfig].
    intros i l Hil. apply (Hcols i l Hil).
  - destruct (breakdown_data_spec bedroom_counts bedroom_values bedroom_pct
                all_data Hnb Hlb) as (dv & dp & Hrun & Hcols).
    destruct (stacked_chart_returns all_data bedroom_counts "bedroom_pct"
                bedroom_count_colors bedroom_pct eq_refl Hcb Hcolb)
      as [fig Hfig].
    exists dv, dp, fig. split; [exact Hrun|]. split; [exact Hfig|].
    apply (chart_matches_pct_dict bedroom_counts bedroom_values bedroom_pct
             "bedroom_pct" bedroom_count_colors all_data dv dp fig eq_refl);
      [|exact Hfig].
    intros i l Hil. apply (Hcols i l Hil).
  - destruct (breakdown_data_spec parking_types parking_values parking_pct
                all_data Hnp Hlp) as (dv & dp & Hrun & Hcols).
    destruct (stacked_chart_returns all_data parking_types "parking_pct"
                parking_type_colors parking_pct eq_refl Hcp Hcolp)
      as [fig Hfig].
    exists dv, dp, fig. split; [exact Hrun|]. split; [exact Hfig|].
    apply (chart_matches_pct_dict parking_types parking_values parking_pct
             "parking_pct" parking_type_colors all_data dv dp fig eq_refl);
      [|exact Hfig].
    intros i l Hil. apply (Hcols i l Hil).
Qed.

Lemma charts_plot_the_table_percentages_witness :
  let rs := [build_record thirds_df "Unzoned";
             build_record fractional_df "Scenario 1"] in
  ∃ dv dp fig,
    income_data rs = Some (dv, dp)
    ∧ create_multi_scenario_stacked_chart rs income_brackets
        "income_pct" income_bracket_colors = Some fig
    ∧ Forall (λ bar, dp !! bar_name bar = Some (bar_y bar)) (traces fig).
Proof.
  intros rs. apply (charts_plot_the_table_percentages rs).
  repeat constructor; eexists _, _; reflexivity.
Defined.



(** * Properties of the script on the scalars pandas returns *)

Import Np Machine MachineSpec.

(** ** Computations that may raise *)

Lemma bind_inr {A B} (m : raises A) (f : A → raises B) (b : B) :
  m ≫= f = inr b ↔ ∃ a, m = inr a ∧ f a = inr b.
Proof.
  destruct m as [e|a]; cbn; split.
  - discriminate.
  - intros (a & Ha & _). discriminate Ha.
  - intros H. exists a. split; [reflexivity|exact H].
  - intros (a' & [= <-] & Hf). exact Hf.
Qed.

Lemma bind_inl {A B} (m : raises A) (f : A → raises B) (e : error) :
  m ≫= f = inl e ↔ m = inl e ∨ ∃ a, m = inr a ∧ f a = inl e.
Proof.
  destruct m as [e'|a]; cbn; split.
  - intros [= ->]. left. reflexivity.
  - intros [[= ->]|(a & Ha & _)]; [reflexivity|discriminate Ha].
  - intros H. right. exists a. split; [reflexivity|exact H].
  - intros [H|(a' & [= <-] & Hf)]; [discriminate H|exact Hf].
Qed.

Section Raises.

Context {A B : Type}.

Lemma mapM_cons (f : A → raises B) (x : A) (l : list A) :
  mapM f (x :: l) = f x ≫= λ y, mapM f l ≫= λ k, mret (y :: k).
Proof. reflexivity. Qed.

Lemma mapM_inr (f : A → raises B) (l : list A) (k : list B) :
  mapM f l = inr k ↔ Forall2 (λ x y, f x = inr y) l k.
Proof.
  revert k. induction l as [|x l IH]; intros k.
  - split.
    + intros [= <-]. constructor.
    + intros H. inversion H. reflexivity.
  - rewrite mapM_cons, bind_inr. split.
    + intros (y & Hy & Hrest). apply bind_inr in Hrest as (k' & Hk' & [= <-]).
      constructor; [exact Hy|apply IH, Hk'].
    + intros H. inversion H as [|? y ? k' Hy Hk']; subst.
      exists y. split; [exact Hy|]. apply bind_inr.
      exists k'. split; [apply IH, Hk'|reflexivity].
Qed.

Lemma mapM_inr_length (f : A → raises B) (l : list A) (k : list B) :
  mapM f l = inr k → length k = length l.
Proof. intros H. apply mapM_inr in H. symmetry. exact (Forall2_length _ _ _ H). Qed.

Lemma mapM_inr_lookup (f : A → raises B) (l : list A) (k : list B)
    (i : nat) (x : A) :
  mapM f l = inr k → l !! i = Some x → ∃ y, k !! i = Some y ∧ f x = inr y.
Proof.
  intros H Hi. apply mapM_inr in H.
  destruct (Forall2_lookup_l _ _ _ _ _ H Hi) as (y & Hy & Hf). eauto.
Qed.

(** [mapM] raises exactly when the function raises on some item. *)
Lemma mapM_raises (f : A → raises B) (l : list A) :
  (∃ e, mapM f l = inl e) ↔ ∃ x e, x ∈ l ∧ f x = inl e.
Proof.
  induction l as [|x l IH].
  - split.
    + intros (e & He). discriminate.
    + intros (x & e & Hx & _). inversion Hx.
  - rewrite mapM_cons. split.
    + intros (e & He). apply bind_inl in He as [He|(y & Hy & He)].
      * exists x, e. split; [apply list_elem_of_here|exact He].
      * apply bind_inl in He as [He|(k & _ & He)]; [|discriminate].
        destruct (proj1 IH (ex_intro _ e He)) as (x' & e' & Hx' & He').
        exists x', e'. split; [apply list_elem_of_further, Hx'|exact He'].
    + intros (x' & e & Hx' & He).
      destruct (f x) as [e0|y] eqn:Hfx; [exists e0; reflexivity|].
      apply elem_of_cons in Hx' as [->|Hx']; [congruence|].
      destruct (proj2 IH (ex_intro _ x' (ex_intro _ e (conj Hx' He))))
        as (e1 & He1).
      exists e1. rewrite He1. reflexivity.
Qed.

End Raises.

(** ** Sums and comparisons *)

Section Numbers.

(** A number compares with the int 0 without raising. *)
Lemma gt_zero_number (v : value) :
  number v → ∃ b, gt v (PyInt 0) = inr b.
Proof. destruct v as [z|z|f|s]; cbn; intros Hn; [eauto|eauto|eauto|contradiction]. Qed.

(** The sum of a number and anything is a number, when there is one. *)
Lemma add_number (a b c : value) : number a → add a b = inr c → number c.
Proof.
  destruct a as [x|x|f|s], b as [y|y|g|t]; cbn; intros Hn H;
    try contradiction; try discriminate.
  all: try (injection H as <-; exact I).
  all: repeat match type of H with
       | context [int64_of_int ?z] => destruct (int64_of_int z); cbn in H
       | context [float_of_int ?z] => destruct (float_of_int z); cbn in H
       end; try discriminate; injection H as <-; exact I.
Qed.

Lemma sum_from_number (acc total : value) (xs : list value) :
  number acc → sum_from acc xs = inr total → number total.
Proof.
  revert acc. induction xs as [|x xs IH]; intros acc Hacc; cbn [sum_from].
  - intros [= <-]. exact Hacc.
  - intros H. apply bind_inr in H as (acc' & Hadd & Hrest).
    exact (IH acc' (add_number _ _ _ Hacc Hadd) Hrest).
Qed.

Lemma sum_number (xs : list value) (total : value) :
  sum xs = inr total → number total.
Proof. apply sum_from_number. exact I. Qed.

End Numbers.

(** ** The percentages of a group *)

Section Percentages.

Lemma percent_positive (total v : value) :
  gt total (PyInt 0) = inr true → percent total v = rounded_share v total.
Proof. intros H. unfold percent. rewrite H. reflexivity. Qed.

Lemma percent_not_positive (total v : value) :
  gt total (PyInt 0) = inr false → percent total v = inr 0.
Proof. intros H. unfold percent. rewrite H. reflexivity. Qed.

Lemma percentages_inr (values : list value) (pct : list Z) :
  percentages values = inr pct ↔
  ∃ total, sum values = inr total ∧ mapM (percent total) values = inr pct.
Proof. unfold percentages. apply bind_inr. Qed.

(** The percentages the script computes obey the rule. *)
Lemma percentages_obey_rule (values : list value) (pct : list Z) :
  percentages values = inr pct → pct_rule values pct.
Proof.
  intros H. apply percentages_inr in H as (total & Hsum & Hmap).
  destruct (gt_zero_number total (sum_number _ _ Hsum)) as [b Hb].
  exists total, b. split; [exact Hsum|]. split; [exact Hb|].
  split; [exact (mapM_inr_length _ _ _ Hmap)|]. split.
  - intros -> i v Hi.
    destruct (mapM_inr_lookup _ _ _ _ _ Hmap Hi) as (p & Hp & Hpv).
    exists p. split; [exact Hp|]. rewrite <- Hpv. symmetry.
    apply percent_positive, Hb.
  - intros ->. apply mapM_inr in Hmap. clear Hsum.
    induction Hmap as [|v p vs ps Hvp _ IH]; constructor; [|exact IH].
    rewrite (percent_not_positive _ _ Hb) in Hvp. congruence.
Qed.

End Percentages.

(** ** The record of a table *)

Section Record.

(** The steps of [build_record], when it returns. *)
Lemma build_record_inr (df : DataFrame) (label : string) (r : ScenarioRecord) :
  build_record df label = inr r ↔
  percentages (get_value df <$> income_columns) = inr (income_pct r)
  ∧ percentages (get_value df <$> bedroom_columns) = inr (bedroom_pct r)
  ∧ percentages (get_value df <$> parking_columns) = inr (parking_pct r)
  ∧ mapM round1 (get_value df <$> income_columns) = inr (income_values r)
  ∧ mapM round1 (get_value df <$> bedroom_columns) = inr (bedroom_values r)
  ∧ mapM round1 (get_value df <$> parking_columns) = inr (parking_values r)
  ∧ scenario_name r = label
  ∧ total_units r = get_value df "totalUnitsSum"
  ∧ affordable_units r = get_value df "affordableUnitsSum".
Proof.
  unfold build_record. cbv zeta. split.
  - intros H.
    apply bind_inr in H as (ip & Hip & H).
    apply bind_inr in H as (bp & Hbp & H).
    apply bind_inr in H as (pp & Hpp & H).
    apply bind_inr in H as (iv & Hiv & H).
    apply bind_inr in H as (bv & Hbv & H).
    apply bind_inr in H as (pv & Hpv & H).
    injection H as <-. cbn. auto 10.
  - intros (Hip & Hbp & Hpp & Hiv & Hbv & Hpv & Hn & Ht & Ha).
    rewrite Hip, Hbp, Hpp, Hiv, Hbv, Hpv. cbn.
    destruct r. cbn in *. subst. reflexivity.
Qed.

End Record.

(** ** The loader *)

Section LoaderRuns.

Variable read_csv : string → exn + DataFrame.
Variable describe : error → exn.

Lemma load_returns (u label : string) (r : ScenarioRecord) :
  u ≠ EmptyString → try_body read_csv describe u label = inr r →
  load_data_from_aggregation_csv read_csv describe (Some u) label
  = ([EvReadCsv u], Some r).
Proof.
  intros Hu Hbody. destruct u as [|a u]; [congruence|].
  unfold load_data_from_aggregation_csv. rewrite Hbody. reflexivity.
Qed.

Lemma load_raises (u label : string) (e : exn) :
  u ≠ EmptyString → try_body read_csv describe u label = inl e →
  load_data_from_aggregation_csv read_csv describe (Some u) label
  = ([EvReadCsv u;
      EvError ("Error loading CSV data from " +:+ u +:+ ": " +:+ exn_str e);
      EvError (exn_traceback e)], None).
Proof.
  intros Hu Hbody. destruct u as [|a u]; [congruence|].
  unfold load_data_from_aggregation_csv. rewrite Hbody. reflexivity.
Qed.

Lemma try_body_parsed (u label : string) (df : DataFrame) :
  read_csv u = inr df →
  try_body read_csv describe u label
  = match build_record df label with
    | inl e => inl (describe e)
    | inr r => inr r
    end.
Proof. intros H. unfold try_body. rewrite H. reflexivity. Qed.

End LoaderRuns.

(** ** C1 *)

Lemma round1_integers (cells : list value) :
  Forall integer cells → mapM round1 cells = inr cells.
Proof.
  intros H. apply mapM_inr.
  induction H as [|v vs Hv _ IH]; constructor; [|exact IH].
  destruct v; try contradiction; reflexivity.
Qed.

Lemma group_from_record (df : DataFrame) (cols : list string)
    (values : list value) (pct : list Z) :
  percentages (get_value df <$> cols) = inr pct →
  mapM round1 (get_value df <$> cols) = inr values →
  group_from df cols (length cols) values pct.
Proof.
  intros Hp Hv. unfold group_from. cbv zeta.
  split; [apply length_fmap|]. split; [exact Hv|].
  split; [apply percentages_obey_rule, Hp|].
  intros Hint. rewrite (round1_integers _ Hint) in Hv. injection Hv as <-.
  split; [reflexivity|apply percentages_obey_rule, Hp].
Qed.

(** What a run on a source that parses comes to. *)
Lemma load_parsed_cases (read_csv : string → exn + DataFrame)
    (describe : error → exn) (u label : string) (df : DataFrame) :
  u ≠ EmptyString → read_csv u = inr df →
  let m := load_data_from_aggregation_csv read_csv describe (Some u) label in
  match build_record df label with
  | inr r => m = ([EvReadCsv u], Some r)
  | inl e =>
      m = ([EvReadCsv u;
            EvError ("Error loading CSV data from " +:+ u +:+ ": "
                       +:+ exn_str (describe e));
            EvError (exn_traceback (describe e))], None)
  end.
Proof.
  intros Hu Hread. cbv zeta.
  pose proof (try_body_parsed read_csv describe u label df Hread) as Hbody.
  destruct (build_record df label) as [e|r].
  - apply load_raises; assumption.
  - apply load_returns; assumption.
Qed.

(** C1, counterexample.  The record loaded from a table whose first two
    income cells are the float 0.04 stores six income values whose sum, 0.0,
    is not greater than 0, and the percentages 50, 50, 0, 0, 0, 0: the rule,
    read on the record's own values, asks for six zeros. *)
Lemma C1_rule_fails_on_stored_values :
  ∃ r, result (load_data_from_aggregation_csv (serve fractional_df) by_name
                 (Some "unzoned.csv") "Unzoned") = Some r
     ∧ income_values r
       = [Float64 (S754_zero false); Float64 (S754_zero false);
          PyInt 0; PyInt 0; PyInt 0; PyInt 0]
     ∧ sum (income_values r) = inr (Float64 (S754_zero false))
     ∧ gt (Float64 (S754_zero false)) (PyInt 0) = inr false
     ∧ income_pct r = [50; 50; 0; 0; 0; 0]
     ∧ ¬ pct_rule (income_values r) (income_pct r).
Proof.
  eexists. split; [vm_compute; reflexivity|].
  cbn [income_values income_pct].
  split; [reflexivity|]. split; [reflexivity|]. split; [reflexivity|].
  split; [reflexivity|].
  intros (total & positive & Hsum & Hgt & _ & _ & Hzero).
  vm_compute in Hsum. injection Hsum as <-.
  vm_compute in Hgt. injection Hgt as <-.
  specialize (Hzero eq_refl). inversion Hzero as [|? ? Hhd _]. discriminate Hhd.
Qed.

(** C1, as amended.  For a source that parses, either the body of the
    [try] block raises, and the loader reports twice and returns no record,
    or it returns the record of that body, whose three groups have 6, 4 and 5
    entries.  In each group the cells [v] as read from the first row (0 for
    a missing column or an empty table) have a sum [total], computed from
    the left in the cells' own arithmetic; each percentage is
    [round(v[i] / total * 100)], computed in binary64, when [total > 0], and
    0 otherwise.  The record stores [round(v[i], 1)], so that the rule holds
    of the stored values when the cells are integers. *)
Theorem C1_loader_percentages
    (read_csv : string → exn + DataFrame) (describe : error → exn)
    (u label : string) (df : DataFrame) :
  u ≠ EmptyString → read_csv u = inr df →
  let m := load_data_from_aggregation_csv read_csv describe (Some u) label in
  match result m with
  | Some r =>
      build_record df label = inr r
      ∧ group_from df income_columns 6 (income_values r) (income_pct r)
      ∧ group_from df bedroom_columns 4 (bedroom_values r) (bedroom_pct r)
      ∧ group_from df parking_columns 5 (parking_values r) (parking_pct r)
  | None =>
      ∃ e, build_record df label = inl e
         ∧ errors (log m) = reports u (describe e)
  end.
Proof.
  intros Hu Hread. cbv zeta.
  pose proof (load_parsed_cases read_csv describe u label df Hu Hread) as Hm.
  cbv zeta in Hm.
  destruct (build_record df label) as [e|r] eqn:Hb; rewrite Hm.
  - exists e. split; reflexivity.
  - cbn [result snd]. split; [reflexivity|].
    apply build_record_inr in Hb
      as (Hip & Hbp & Hpp & Hiv & Hbv & Hpv & _).
    split; [|split].
    + exact (group_from_record df income_columns _ _ Hip Hiv).
    + exact (group_from_record df bedroom_columns _ _ Hbp Hbv).
    + exact (group_from_record df parking_columns _ _ Hpp Hpv).
Qed.

Lemma C1_loader_percentages_witness :
  ∃ r, result (load_data_from_aggregation_csv (serve thirds_df) by_name
                 (Some "unzoned.csv") "Unzoned") = Some r
     ∧ income_pct r = [33; 33; 33; 0; 0; 0]
     ∧ build_record thirds_df "Unzoned" = inr r
     ∧ group_from thirds_df income_columns 6 (income_values r) (income_pct r)
     ∧ group_from thirds_df bedroom_columns 4 (bedroom_values r) (bedroom_pct r)
     ∧ group_from thirds_df parking_columns 5 (parking_values r) (parking_pct r).
Proof.
  eexists. split; [vm_compute; reflexivity|]. split; [reflexivity|].
  exact (C1_loader_percentages (serve thirds_df) by_name "unzoned.csv"
           "Unzoned" thirds_df ltac:(discriminate) eq_refl).
Defined.

(** ** C2 *)





(** ** When the body of the [try] block raises *)

Section TryBody.

Lemma tame_PyInt_0 : tame (PyInt 0).
Proof. split; [reflexivity|exact I]. Qed.

Lemma get_value_stored (df : DataFrame) (column : string) :
  cells_stored df → stored (get_value df column).
Proof.
  intros Hdf. unfold get_value.
  destruct (has_column df column && bool_decide (0 < len df)%nat);
    [|reflexivity].
  destruct (rows df) as [|row rest] eqn:Hrows; [reflexivity|].
  apply Hdf. rewrite Hrows. apply list_elem_of_here.
Qed.

Lemma get_values_stored (df : DataFrame) (cols : list string) :
  cells_stored df → Forall stored (get_value df <$> cols).
Proof.
  intros Hdf. apply Forall_fmap, Forall_forall. intros c _.
  apply get_value_stored, Hdf.
Qed.

(** Adding a stored value to a tame one raises exactly on a string. *)
Lemma add_tame (a b : value) :
  tame a → stored b →
  match add a b with
  | inr c => tame c ∧ number b
  | inl _ => ∃ s, b = Str s
  end.
Proof.
  intros [Hsa Hna] Hsb.
  destruct a as [x|x|f|s], b as [y|y|g|t]; cbn in Hsa, Hsb, Hna;
    subst; try contradiction; cbn; eauto; repeat split; exact I.
Qed.

Lemma sum_from_stored (acc : value) (xs : list value) :
  tame acc → Forall stored xs →
  match sum_from acc xs with
  | inr total => tame total ∧ Forall number xs
  | inl _ => ∃ s, Str s ∈ xs
  end.
Proof.
  intros Hacc Hxs. revert acc Hacc.
  induction Hxs as [|x xs Hx _ IH]; intros acc Hacc; cbn [sum_from].
  - split; [exact Hacc|constructor].
  - pose proof (add_tame acc x Hacc Hx) as Hadd.
    destruct (add acc x) as [e|acc']; cbn.
    + destruct Hadd as [s ->]. exists s. apply list_elem_of_here.
    + destruct Hadd as [Hacc' Hnx]. specialize (IH acc' Hacc').
      destruct (sum_from acc' xs) as [e|total].
      * destruct IH as [s Hs]. exists s. apply list_elem_of_further, Hs.
      * destruct IH as [Ht Hn]. split; [exact Ht|]. constructor; assumption.
Qed.

Lemma not_number_str (xs : list value) :
  (∃ s, Str s ∈ xs) → ¬ Forall number xs.
Proof.
  intros (s & Hs) Hall. exact (proj1 (Forall_forall _ _) Hall _ Hs).
Qed.

(** [round(v, 1)] over stored values raises exactly on a string. *)
Lemma round1_stored (xs : list value) :
  Forall number xs → ∃ ys, mapM round1 xs = inr ys.
Proof.
  induction 1 as [|x xs Hx _ [ys IH]]; [exists []; reflexivity|].
  rewrite mapM_cons, IH.
  destruct x; try contradiction; cbn; eauto.
Qed.

(** Under a sum greater than 0 the division itself does not raise. *)
Lemma truediv_tame (v total : value) :
  tame v → tame total → gt total (PyInt 0) = inr true →
  ∃ share, truediv v total = inr share.
Proof.
  intros [Hsv Hnv] [Hst Hnt] Hgt.
  destruct v as [x|x|f|s], total as [y|y|g|t]; cbn in Hsv, Hst, Hnv, Hnt;
    subst; try contradiction; try discriminate Hgt; cbn; eauto.
Qed.

Lemma round_finite (x : spec_float) :
  match round x with
  | inr _ => is_finite x = true
  | inl _ => is_finite x = false
  end.
Proof. destruct x; reflexivity. Qed.

(** One percentage raises exactly when the sum is greater than 0 and the
    share is NaN or infinite. *)
Lemma percent_raises (total v : value) :
  tame total → tame v →
  (∃ e, percent total v = inl e) ↔
  gt total (PyInt 0) = inr true
  ∧ ∃ share, truediv v total = inr share
           ∧ is_finite (fmul share hundred) = false.
Proof.
  intros Ht Hv. destruct (gt_zero_number total (proj2 Ht)) as [b Hb].
  unfold percent. rewrite Hb. cbn. destruct b.
  - destruct (truediv_tame v total Hv Ht Hb) as [share Hshare].
    unfold rounded_share. rewrite Hshare. cbn.
    pose proof (round_finite (fmul share hundred)) as Hr.
    destruct (round (fmul share hundred)) as [e|p]; split.
    + intros _. split; [reflexivity|]. exists share. split; [reflexivity|exact Hr].
    + intros _. exists e. reflexivity.
    + intros [e He]. discriminate He.
    + intros (_ & share' & [= <-] & Hfin). congruence.
  - split.
    + intros [e He]. discriminate He.
    + intros [H _]. discriminate H.
Qed.

Lemma Forall_tame (xs : list value) :
  Forall stored xs → Forall number xs → Forall tame xs.
Proof.
  intros Hs Hn. apply Forall_forall. intros x Hx. split.
  - exact (proj1 (Forall_forall _ _) Hs x Hx).
  - exact (proj1 (Forall_forall _ _) Hn x Hx).
Qed.

(** The percentages of a group raise exactly on the groups singled out
    by [group_raises]. *)
Lemma percentages_raises (cells : list value) :
  Forall stored cells →
  (∃ e, percentages cells = inl e) ↔ group_raises cells.
Proof.
  intros Hst. unfold percentages, group_raises.
  pose proof (sum_from_stored (PyInt 0) cells tame_PyInt_0 Hst) as Hsum.
  fold (sum cells) in Hsum.
  destruct (sum cells) as [e|total] eqn:Hs; cbn.
  - split.
    + intros _. left. exact Hsum.
    + intros _. exists e. reflexivity.
  - destruct Hsum as [Ht Hnum].
    pose proof (Forall_tame _ Hst Hnum) as Htame.
    rewrite mapM_raises. split.
    + intros (v & e & Hv & He). right.
      pose proof (proj1 (Forall_forall _ _) Htame v Hv) as Htv.
      destruct (proj1 (percent_raises total v Ht Htv) (ex_intro _ e He))
        as (Hgt & share & Hshare & Hfin).
      exists total, v, share. auto.
    + intros [Hstr|(total' & v & share & [= <-] & Hgt & Hv & Hshare & Hfin)].
      * destruct (not_number_str _ Hstr Hnum).
      * pose proof (proj1 (Forall_forall _ _) Htame v Hv) as Htv.
        destruct (proj2 (percent_raises total v Ht Htv)) as [e He].
        { split; [exact Hgt|]. exists share. auto. }
        exists v, e. auto.
Qed.

Lemma percentages_returns (cells : list value) (pct : list Z) :
  Forall stored cells → percentages cells = inr pct → Forall number cells.
Proof.
  intros Hst. unfold percentages.
  pose proof (sum_from_stored (PyInt 0) cells tame_PyInt_0 Hst) as Hsum.
  fold (sum cells) in Hsum.
  destruct (sum cells) as [e|total]; [discriminate|].
  intros _. exact (proj2 Hsum).
Qed.

(** The body of the [try] block raises exactly when one of the three
    groups does. *)
Lemma build_record_raises (df : DataFrame) (label : string) :
  cells_stored df →
  (∃ e, build_record df label = inl e) ↔
  group_raises (get_value df <$> income_columns)
  ∨ group_raises (get_value df <$> bedroom_columns)
  ∨ group_raises (get_value df <$> parking_columns).
Proof.
  intros Hdf.
  pose proof (percentages_raises _ (get_values_stored df income_columns Hdf))
    as Hi.
  pose proof (percentages_raises _ (get_values_stored df bedroom_columns Hdf))
    as Hb.
  pose proof (percentages_raises _ (get_values_stored df parking_columns Hdf))
    as Hp.
  pose proof (percentages_returns (get_value df <$> income_columns))
    as Hni.
  pose proof (percentages_returns (get_value df <$> bedroom_columns))
    as Hnb.
  pose proof (percentages_returns (get_value df <$> parking_columns))
    as Hnp.
  unfold build_record. cbv zeta.
  set (ci := get_value df <$> income_columns) in *.
  set (cb := get_value df <$> bedroom_columns) in *.
  set (cp := get_value df <$> parking_columns) in *.
  destruct (percentages ci) as [e1|ip]; cbn [mbind raises_bind].
  { split; [intros _; left; apply Hi; eauto|intros _; eauto]. }
  destruct (percentages cb) as [e2|bp]; cbn [mbind raises_bind].
  { split; [intros _; right; left; apply Hb; eauto|intros _; eauto]. }
  destruct (percentages cp) as [e3|pp]; cbn [mbind raises_bind].
  { split; [intros _; right; right; apply Hp; eauto|intros _; eauto]. }
  destruct (round1_stored _ (Hni ip (get_values_stored df _ Hdf) eq_refl))
    as [iv ->].
  destruct (round1_stored _ (Hnb bp (get_values_stored df _ Hdf) eq_refl))
    as [bv ->].
  destruct (round1_stored _ (Hnp pp (get_values_stored df _ Hdf) eq_refl))
    as [pv ->].
  cbn [mbind raises_bind]. split.
  - intros [e He]. discriminate He.
  - intros [H|[H|H]].
    + apply Hi in H as [e He]. discriminate He.
    + apply Hb in H as [e He]. discriminate He.
    + apply Hp in H as [e He]. discriminate He.
Qed.

End TryBody.

(** X23.  The parsed sources that give no record.  For a table whose cells are
    numpy scalars or strings, the loader returns no record, and reports
    twice, exactly when one of the fifteen bucket cells is text, or some
    group has a sum greater than 0 and a share [v / total * 100] that is NaN
    or infinite; text under [totalUnitsSum] or [affordableUnitsSum] is
    stored as it is. *)
Theorem parsed_source_without_record
    (read_csv : string → exn + DataFrame) (describe : error → exn)
    (u label : string) (df : DataFrame) :
  u ≠ EmptyString → read_csv u = inr df → cells_stored df →
  let m := load_data_from_aggregation_csv read_csv describe (Some u) label in
  (result m = None ↔
     group_raises (get_value df <$> income_columns)
     ∨ group_raises (get_value df <$> bedroom_columns)
     ∨ group_raises (get_value df <$> parking_columns))
  ∧ (result m = None → length (errors (log m)) = 2%nat)
  ∧ (∀ r, result m = Some r →
       errors (log m) = []
       ∧ total_units r = get_value df "totalUnitsSum"
       ∧ affordable_units r = get_value df "affordableUnitsSum").
Proof.
  intros Hu Hread Hdf. cbv zeta.
  pose proof (load_parsed_cases read_csv describe u label df Hu Hread) as Hm.
  pose proof (build_record_raises df label Hdf) as Hraises.
  cbv zeta in Hm.
  destruct (build_record df label) as [e|r] eqn:Hb; rewrite Hm; cbn [result snd].
  - split; [|split].
    + split; [intros _; apply Hraises; eauto|reflexivity].
    + reflexivity.
    + discriminate.
  - split; [|split].
    + split; [discriminate|].
      intros H. apply Hraises in H as [e He]. discriminate He.
    + discriminate.
    + intros r' [= <-]. split; [reflexivity|].
      apply build_record_inr in Hb as (_ & _ & _ & _ & _ & _ & _ & Ht & Ha).
      auto.
Qed.

Lemma parsed_source_without_record_witness :
  result (load_data_from_aggregation_csv (serve text_df) by_name
            (Some "unzoned.csv") "Unzoned") = None
  ∧ length (errors (log (load_data_from_aggregation_csv (serve text_df) by_name
                           (Some "unzoned.csv") "Unzoned"))) = 2%nat.
Proof.
  pose proof (parsed_source_without_record (serve text_df) by_name
                "unzoned.csv" "Unzoned" text_df) as H.
  destruct H as (Hiff & Herr & _).
  - discriminate.
  - reflexivity.
  - intros row column Hrow. apply list_elem_of_singleton in Hrow. subst row.
    unfold row_of.
    destruct ((list_to_map _ : gmap string value) !! column) as [v|] eqn:Hv;
      [|exact I].
    apply elem_of_list_to_map_2 in Hv.
    repeat (apply elem_of_cons in Hv as [[= _ ->]|Hv]; [exact I|]).
    inversion Hv.
  - assert (result (load_data_from_aggregation_csv (serve text_df) by_name
                      (Some "unzoned.csv") "Unzoned") = None) as Hnone.
    { apply Hiff. left. left. exists "n/a".
      apply list_elem_of_further, list_elem_of_here. }
    split; [exact Hnone|exact (Herr Hnone)].
Defined.

(** ** Blank cells and zero cells *)

Section BlankAndZero.

Lemma fadd_nan_r (f : spec_float) : fadd f S754_nan = S754_nan.
Proof. destruct f; reflexivity. Qed.

Lemma add_nan_r (a c : value) :
  add a (Float64 S754_nan) = inr c → c = Float64 S754_nan.
Proof.
  destruct a as [x|x|f|s]; cbn.
  - destruct (float_of_int x); cbn; [discriminate|].
    intros [= <-]. rewrite fadd_nan_r. reflexivity.
  - intros [= <-]. rewrite fadd_nan_r. reflexivity.
  - intros [= <-]. rewrite fadd_nan_r. reflexivity.
  - discriminate.
Qed.

Lemma add_nan_l (b c : value) :
  add (Float64 S754_nan) b = inr c → c = Float64 S754_nan.
Proof.
  destruct b as [y|y|g|t]; cbn.
  - destruct (float_of_int y); cbn; [discriminate|]. intros [= <-]. reflexivity.
  - intros [= <-]. reflexivity.
  - intros [= <-]. reflexivity.
  - discriminate.
Qed.

(** A NaN among the items, or to start from, is what the sum comes to. *)
Lemma sum_from_nan (acc total : value) (xs : list value) :
  acc = Float64 S754_nan ∨ Float64 S754_nan ∈ xs →
  sum_from acc xs = inr total → total = Float64 S754_nan.
Proof.
  revert acc. induction xs as [|x xs IH]; intros acc Hnan; cbn [sum_from].
  - destruct Hnan as [->|Hin]; [intros [= <-]; reflexivity|inversion Hin].
  - intros H. apply bind_inr in H as (acc' & Hadd & Hrest).
    apply (IH acc'); [|exact Hrest].
    destruct Hnan as [->|Hin].
    + left. exact (add_nan_l _ _ Hadd).
    + apply elem_of_cons in Hin as [<-|Hin]; [|right; exact Hin].
      left. exact (add_nan_r _ _ Hadd).
Qed.

Lemma percentages_blank (cells : list value) (pct : list Z) :
  Float64 S754_nan ∈ cells → percentages cells = inr pct →
  pct = replicate (length cells) 0.
Proof.
  intros Hnan H. apply percentages_inr in H as (total & Hsum & Hmap).
  assert (total = Float64 S754_nan) as ->
    by (exact (sum_from_nan _ _ _ (or_intror Hnan) Hsum)).
  clear Hsum Hnan. apply mapM_inr in Hmap.
  induction Hmap as [|v p vs ps Hvp _ IH]; [reflexivity|].
  cbn [length replicate]. rewrite IH. f_equal.
  rewrite (percent_not_positive (Float64 S754_nan) v eq_refl) in Hvp.
  congruence.
Qed.

(** A zero divided by anything is a zero or NaN. *)
Lemma fdiv_zero_l (s : bool) (g : spec_float) :
  (∃ s', fdiv (S754_zero s) g = S754_zero s') ∨ fdiv (S754_zero s) g = S754_nan.
Proof. destruct g; cbn; eauto. Qed.

Lemma truediv_zero (v total : value) (share : spec_float) :
  zero v → truediv v total = inr share →
  (∃ s, share = S754_zero s) ∨ share = S754_nan.
Proof.
  assert (∀ s g, (inr (fdiv (S754_zero s) g) : raises spec_float) = inr share →
                 (∃ s, share = S754_zero s) ∨ share = S754_nan) as Hcase.
  { intros s g [= <-]. apply fdiv_zero_l. }
  destruct v as [x|x|[s| | |]|t]; cbn -[fdiv of_Z]; try contradiction;
    intros Hz; subst;
    destruct total as [y|y|g|t']; cbn -[fdiv of_Z]; try discriminate;
    try apply Hcase.
  all: try (destruct (float_of_int y); cbn -[fdiv of_Z]; [discriminate|];
            apply Hcase).
  all: try (destruct (int64_of_int y); cbn -[fdiv of_Z]; [discriminate|];
            apply Hcase).
  unfold int_truediv. case_bool_decide; [discriminate|]. cbn [raw].
  destruct (fdiv_zero_l false (raw y)) as [[s' Hq]|Hq]; rewrite Hq;
    intros [= <-]; eauto.
Qed.

Lemma rounded_share_zero (v total : value) (p : Z) :
  zero v → rounded_share v total = inr p → p = 0.
Proof.
  intros Hz H. unfold rounded_share in H.
  apply bind_inr in H as (share & Hshare & Hround).
  destruct (truediv_zero v total share Hz Hshare) as [[s ->]| ->].
  - destruct s; vm_compute in Hround; congruence.
  - discriminate Hround.
Qed.

End BlankAndZero.

(** X24.  A blank cell in a group.  When a record is returned and one of the
    cells of a group is blank (NaN), the sum of the group is NaN, which is
    not greater than 0: every percentage of that group is 0, whatever the
    other cells hold. *)
Theorem blank_cell_zeroes_group
    (read_csv : string → exn + DataFrame) (describe : error → exn)
    (u label : string) (df : DataFrame) (r : ScenarioRecord) :
  u ≠ EmptyString → read_csv u = inr df →
  result (load_data_from_aggregation_csv read_csv describe (Some u) label)
  = Some r →
  (Float64 S754_nan ∈ get_value df <$> income_columns →
   income_pct r = replicate 6 0)
  ∧ (Float64 S754_nan ∈ get_value df <$> bedroom_columns →
     bedroom_pct r = replicate 4 0)
  ∧ (Float64 S754_nan ∈ get_value df <$> parking_columns →
     parking_pct r = replicate 5 0).
Proof.
  intros Hu Hread Hres.
  pose proof (load_parsed_cases read_csv describe u label df Hu Hread) as Hm.
  cbv zeta in Hm.
  destruct (build_record df label) as [e|r'] eqn:Hb;
    rewrite Hm in Hres; [discriminate Hres|].
  injection Hres as <-.
  apply build_record_inr in Hb as (Hip & Hbp & Hpp & _).
  split; [|split]; intros Hnan.
  - exact (percentages_blank _ _ Hnan Hip).
  - exact (percentages_blank _ _ Hnan Hbp).
  - exact (percentages_blank _ _ Hnan Hpp).
Qed.

Lemma blank_cell_zeroes_group_witness :
  ∃ r, result (load_data_from_aggregation_csv (serve blank_df) by_name
                 (Some "unzoned.csv") "Unzoned") = Some r
     ∧ income_pct r = replicate 6 0
     ∧ bedroom_pct r = [100; 0; 0; 0].
Proof.
  eexists. split; [vm_compute; reflexivity|]. split; [|reflexivity].
  refine (proj1 (blank_cell_zeroes_group (serve blank_df) by_name
                   "unzoned.csv" "Unzoned" blank_df _ _ _ _) _).
  - discriminate.
  - reflexivity.
  - vm_compute. reflexivity.
  - apply list_elem_of_further, list_elem_of_here.
Defined.

Lemma percentages_zero_cells (cells : list value) (pct : list Z)
    (i : nat) (v : value) :
  percentages cells = inr pct → cells !! i = Some v → zero v →
  pct !! i = Some 0.
Proof.
  intros H Hi Hz. apply percentages_inr in H as (total & Hsum & Hmap).
  destruct (mapM_inr_lookup _ _ _ _ _ Hmap Hi) as (p & Hp & Hvp).
  rewrite Hp. f_equal. unfold percent in Hvp.
  apply bind_inr in Hvp as ([] & _ & Hvp).
  - exact (rounded_share_zero v total p Hz Hvp).
  - injection Hvp as <-. reflexivity.
Qed.

Lemma get_value_absent (df : DataFrame) (column : string) :
  column ∉ columns df → get_value df column = PyInt 0.
Proof.
  intros Hc. unfold get_value, has_column.
  rewrite bool_decide_eq_false_2 by exact Hc. reflexivity.
Qed.

(** X22.  Zero cells.  In a record that is returned, a cell that is zero (the
    int 0 of a missing column, an [int64] 0, a float 0.0 or -0.0) has the
    percentage 0, whatever the sum of its group. *)
Theorem zero_cell_zero_percent
    (read_csv : string → exn + DataFrame) (describe : error → exn)
    (u label : string) (df : DataFrame) (r : ScenarioRecord) :
  u ≠ EmptyString → read_csv u = inr df →
  result (load_data_from_aggregation_csv read_csv describe (Some u) label)
  = Some r →
  ∀ (i : nat) (column : string),
    (zero (get_value df column) ∨ column ∉ columns df) →
    (income_columns !! i = Some column → income_pct r !! i = Some 0)
    ∧ (bedroom_columns !! i = Some column → bedroom_pct r !! i = Some 0)
    ∧ (parking_columns !! i = Some column → parking_pct r !! i = Some 0).
Proof.
  intros Hu Hread Hres i column Hzero.
  assert (zero (get_value df column)) as Hz.
  { destruct Hzero as [H|H]; [exact H|].
    rewrite (get_value_absent df column H). reflexivity. }
  pose proof (load_parsed_cases read_csv describe u label df Hu Hread) as Hm.
  cbv zeta in Hm.
  destruct (build_record df label) as [e|r'] eqn:Hb;
    rewrite Hm in Hres; [discriminate Hres|].
  injection Hres as <-.
  apply build_record_inr in Hb as (Hip & Hbp & Hpp & _).
  split; [|split]; intros Hc.
  - apply (percentages_zero_cells _ _ i (get_value df column) Hip);
      [|exact Hz].
    rewrite list_lookup_fmap, Hc. reflexivity.
  - apply (percentages_zero_cells _ _ i (get_value df column) Hbp);
      [|exact Hz].
    rewrite list_lookup_fmap, Hc. reflexivity.
  - apply (percentages_zero_cells _ _ i (get_value df column) Hpp);
      [|exact Hz].
    rewrite list_lookup_fmap, Hc. reflexivity.
Qed.

Lemma zero_cell_zero_percent_witness :
  ∃ r, result (load_data_from_aggregation_csv (serve thirds_df) by_name
                 (Some "unzoned.csv") "Unzoned") = Some r
     ∧ income_pct r !! 4%nat = Some 0.
Proof.
  eexists. split; [vm_compute; reflexivity|].
  refine (proj1 (zero_cell_zero_percent (serve thirds_df) by_name
                   "unzoned.csv" "Unzoned" thirds_df _ _ _ _
                   4%nat "marketUnits201250Sum" _) _).
  - discriminate.
  - reflexivity.
  - vm_compute. reflexivity.
  - right. apply (bool_decide_unpack _). vm_compute. exact I.
  - reflexivity.
Defined.

(** ** The grouped chart *)

Section GroupedChartSteps.

Lemma item_inr (d : gmap string (list value)) (key : string)
    (l : list value) :
  item d key = inr l ↔ d !! key = Some l.
Proof.
  unfold item. destruct (d !! key); split; intros H;
    try discriminate H; injection H as ->; reflexivity.
Qed.

Lemma max2_is_one (a b c : value) : max2 a b = inr c → c = a ∨ c = b.
Proof.
  unfold max2. intros H. apply bind_inr in H as ([] & _ & [= <-]); auto.
Qed.

Lemma max_from_elem (m m' : value) (xs : list value) :
  max_from m xs = inr m' → m' = m ∨ m' ∈ xs.
Proof.
  revert m. induction xs as [|x xs IH]; intros m; cbn [max_from].
  - intros [= <-]. left. reflexivity.
  - intros H. apply bind_inr in H as (m1 & H2 & Hrest).
    destruct (IH m1 Hrest) as [->|Hin].
    + destruct (max2_is_one _ _ _ H2) as [->| ->];
        [left; reflexivity|right; apply list_elem_of_here].
    + right. apply list_elem_of_further, Hin.
Qed.

(** [max] returns one of the items. *)
Lemma max_elem (xs : list value) (m : value) : max xs = inr m → m ∈ xs.
Proof.
  destruct xs as [|x xs]; [discriminate|]. cbn [max]. intros H.
  destruct (max_from_elem _ _ _ H) as [->|Hin];
    [apply list_elem_of_here|apply list_elem_of_further, Hin].
Qed.

Lemma max_value_inr (d : gmap string (list value)) (mv : value) :
  max_value d = inr mv →
  ∃ total affordable max_total max_affordable,
    d !! "Total Units" = Some total
    ∧ d !! "Affordable Units" = Some affordable
    ∧ max total = inr max_total
    ∧ max affordable = inr max_affordable
    ∧ max2 max_total max_affordable = inr mv
    ∧ mv ∈ total ++ affordable.
Proof.
  unfold max_value. intros H.
  apply bind_inr in H as (total & Ht & H). apply item_inr in Ht.
  apply bind_inr in H as (mt & Hmt & H).
  apply bind_inr in H as (affordable & Ha & H). apply item_inr in Ha.
  apply bind_inr in H as (ma & Hma & H).
  exists total, affordable, mt, ma. repeat (split; [assumption|]).
  apply elem_of_app.
  destruct (max2_is_one _ _ _ H) as [->| ->];
    [left; apply max_elem, Hmt|right; apply max_elem, Hma].
Qed.

Variable int_of_str : string → raises Z.
Variable scenario_names : list string.
Variable color : string.

(** The steps of the grouped chart, when it is built. *)
Lemma grouped_chart_inr (d : gmap string (list value)) (fig : Figure value) :
  create_total_feasibility_chart_grouped int_of_str scenario_names d color
  = inr fig →
  ∃ total affordable total_text max_v min_display display affordable_text,
    d !! "Total Units" = Some total
    ∧ d !! "Affordable Units" = Some affordable
    ∧ mapM (int_label int_of_str) total = inr total_text
    ∧ max_value d = inr max_v
    ∧ min_display_value max_v = inr min_display
    ∧ affordable_display min_display affordable = inr display
    ∧ mapM (affordable_label int_of_str) affordable = inr affordable_text
    ∧ fig = {| traces :=
                 [ {| bar_name := "Total Units";
                      bar_x := scenario_names;
                      bar_y := total;
                      bar_marker_color := color;
                      bar_text := total_text;
                      bar_hovertemplate := "Total Units: %{y}<extra></extra>";
                      bar_customdata := None |};
                   {| bar_name := "Affordable Units";
                      bar_x := scenario_names;
                      bar_y := display;
                      bar_marker_color := "#5DBDB4";
                      bar_text := affordable_text;
                      bar_hovertemplate :=
                        "Affordable Units: %{customdata}<extra></extra>";
                      bar_customdata := Some affordable |} ];
               barmode := "group"; height := 400 |}.
Proof.
  unfold create_total_feasibility_chart_grouped. intros H.
  apply bind_inr in H as (total & Ht & H). apply item_inr in Ht.
  apply bind_inr in H as (total_text & Htt & H).
  apply bind_inr in H as (max_v & Hmv & H).
  apply bind_inr in H as (min_display & Hmd & H).
  apply bind_inr in H as (affordable & Ha & H). apply item_inr in Ha.
  apply bind_inr in H as (display & Hdisp & H).
  apply bind_inr in H as (affordable_text & Hat & H).
  injection H as <-.
  exists total, affordable, total_text, max_v, min_display, display,
    affordable_text.
  repeat (split; [assumption|]). reflexivity.
Qed.

(** And the other way round. *)
Lemma grouped_chart_built (d : gmap string (list value))
    (total affordable : list value) (total_text : list string)
    (max_v : value) (min_display : spec_float) (display : list value)
    (affordable_text : list string) :
  d !! "Total Units" = Some total →
  d !! "Affordable Units" = Some affordable →
  mapM (int_label int_of_str) total = inr total_text →
  max_value d = inr max_v →
  min_display_value max_v = inr min_display →
  affordable_display min_display affordable = inr display →
  mapM (affordable_label int_of_str) affordable = inr affordable_text →
  ∃ fig,
    create_total_feasibility_chart_grouped int_of_str scenario_names d color
    = inr fig.
Proof.
  intros Ht Ha Htt Hmv Hmd Hdisp Hat.
  unfold create_total_feasibility_chart_grouped.
  rewrite (proj2 (item_inr _ _ _) Ht). cbn [mbind raises_bind].
  rewrite Htt. cbn [mbind raises_bind].
  rewrite Hmv. cbn [mbind raises_bind].
  rewrite Hmd. cbn [mbind raises_bind].
  rewrite (proj2 (item_inr _ _ _) Ha). cbn [mbind raises_bind].
  rewrite Hdisp. cbn [mbind raises_bind].
  rewrite Hat. cbn [mbind raises_bind]. eauto.
Qed.





(** *** When every step returns *)

Lemma mapM_returns {A B} (f : A → raises B) (l : list A) :
  (∀ x, x ∈ l → ∃ y, f x = inr y) → ∃ k, mapM f l = inr k.
Proof.
  induction l as [|x l IH]; intros Hf; [exists []; reflexivity|].
  destruct (Hf x (list_elem_of_here _ _)) as [y Hy].
  destruct IH as [k Hk].
  { intros x' Hx'. apply Hf, list_elem_of_further, Hx'. }
  exists (y :: k). rewrite mapM_cons, Hy. cbn [mbind raises_bind].
  rewrite Hk. reflexivity.
Qed.



Lemma convertible_number (v : value) : convertible v → number v.
Proof. destruct v; intros [g Hg]; try exact I. discriminate Hg. Qed.

(** Numbers that can be made floats compare without raising. *)
Lemma gt_convertible (a b : value) :
  convertible a → convertible b → ∃ g, gt a b = inr g.
Proof.
  intros [f Hf] [g Hg].
  destruct a as [x|x|fa|s], b as [y|y|fb|t]; try discriminate Hf;
    try discriminate Hg; cbn -[to_float]; try (eexists; reflexivity).
  all: rewrite ?Hf, ?Hg; cbn; eauto.
Qed.

Lemma max2_convertible (a b : value) :
  convertible a → convertible b → ∃ c, max2 a b = inr c ∧ convertible c.
Proof.
  intros Ha Hb. destruct (gt_convertible b a Hb Ha) as [g Hg].
  unfold max2. rewrite Hg. cbn. destruct g; eauto.
Qed.

Lemma max_from_convertible (m : value) (xs : list value) :
  convertible m → Forall convertible xs →
  ∃ m', max_from m xs = inr m' ∧ convertible m'.
Proof.
  intros Hm Hxs. revert m Hm.
  induction Hxs as [|x xs Hx _ IH]; intros m Hm; cbn [max_from]; [eauto|].
  destruct (max2_convertible m x Hm Hx) as (m1 & H1 & Hm1).
  rewrite H1. cbn [mbind raises_bind]. apply IH, Hm1.
Qed.

Lemma max_convertible (xs : list value) :
  xs ≠ [] → Forall convertible xs → ∃ m, max xs = inr m ∧ convertible m.
Proof.
  destruct xs as [|x xs]; [congruence|]. intros _ Hxs.
  inversion Hxs; subst. apply max_from_convertible; assumption.
Qed.

Lemma max_value_convertible (d : gmap string (list value))
    (total affordable : list value) :
  d !! "Total Units" = Some total →
  d !! "Affordable Units" = Some affordable →
  total ≠ [] → affordable ≠ [] →
  Forall convertible total → Forall convertible affordable →
  ∃ mv, max_value d = inr mv ∧ convertible mv.
Proof.
  intros Ht Ha Htne Hane Hct Hca. unfold max_value.
  rewrite (proj2 (item_inr _ _ _) Ht). cbn [mbind raises_bind].
  destruct (max_convertible total Htne Hct) as (mt & -> & Hmt).
  cbn [mbind raises_bind].
  rewrite (proj2 (item_inr _ _ _) Ha). cbn [mbind raises_bind].
  destruct (max_convertible affordable Hane Hca) as (ma & -> & Hma).
  cbn [mbind raises_bind]. apply max2_convertible; assumption.
Qed.





(** *** Integer series *)






End GroupedChartSteps.

(** ** C5 *)

(** The product [57 * 0.01] in binary64 is 0.5700000000000001, one unit
    in the last place above the float nearest to 57/100. *)
Example fifty_seven_hundredths :
  mul_float (Int64 57) hundredth = inr above_057
  ∧ fraction 57 100 = S754_finite false 5134103575202365 (-53).
Proof. split; vm_compute; reflexivity. Qed.



(** ** When the grouped chart is built *)

Section GroupedChartRaises.

Variable int_of_str : string → raises Z.
Variable scenario_names : list string.
Variable color : string.

(** The chart is built when the values compare, every total has an
    integer part, and so has every affordable value above 0. *)
Lemma grouped_chart_is_built (d : gmap string (list value))
    (total affordable : list value) :
  d !! "Total Units" = Some total →
  d !! "Affordable Units" = Some affordable →
  total ≠ [] → affordable ≠ [] →
  Forall convertible total → Forall convertible affordable →
  (∀ v, v ∈ total → ∃ k, int int_of_str v = inr k) →
  (∀ v, v ∈ affordable → gt v (PyInt 0) = inr true →
        ∃ k, int int_of_str v = inr k) →
  ∃ fig,
    create_total_feasibility_chart_grouped int_of_str scenario_names d color
    = inr fig.
Proof.
  intros Ht Ha Htne Hane Hct Hca Hit Hia.
  destruct (mapM_returns (int_label int_of_str) total) as [tt Htt].
  { intros v Hv. destruct (Hit v Hv) as [k Hk].
    unfold int_label. rewrite Hk. cbn. eauto. }
  destruct (max_value_convertible d total affordable Ht Ha Htne Hane Hct Hca)
    as (mv & Hmv & [f Hf]).
  assert (min_display_value mv = inr (fmul f hundredth)) as Hmd
    by (unfold min_display_value, mul_float; rewrite Hf; reflexivity).
  destruct (mapM_returns
              (λ val, positive ← gt val (PyInt 0);
                      mret (if (positive : bool) then val
                            else Float64 (fmul f hundredth)))
              affordable) as [disp Hdisp].
  { intros v Hv.
    pose proof (proj1 (Forall_forall _ _) Hca v Hv) as Hcv.
    destruct (gt_zero_number v (convertible_number v Hcv)) as [b ->].
    cbn. eauto. }
  destruct (mapM_returns (affordable_label int_of_str) affordable)
    as [at' Hat].
  { intros v Hv. unfold affordable_label.
    pose proof (proj1 (Forall_forall _ _) Hca v Hv) as Hcv.
    destruct (gt_zero_number v (convertible_number v Hcv)) as [b Hb].
    rewrite Hb. cbn [mbind raises_bind]. destruct b; [|eauto].
    destruct (Hia v Hv Hb) as [k Hk].
    unfold int_label. rewrite Hk. cbn. eauto. }
  exact (grouped_chart_built int_of_str scenario_names color d total affordable
           tt mv _ disp at' Ht Ha Htt Hmv Hmd Hdisp Hat).
Qed.

(** Stored numbers can be made floats. *)
Lemma stored_convertible (v : value) : stored v → number v → convertible v.
Proof.
  unfold convertible.
  destruct v as [z|z|f|s]; cbn; intros Hs Hn; try contradiction; subst; eauto.
Qed.

Lemma number_or_str (xs : list value) :
  Forall number xs ∨ ∃ s, Str s ∈ xs.
Proof.
  induction xs as [|x xs [IH|(s & Hs)]].
  - left. constructor.
  - destruct x as [z|z|f|s]; try (left; constructor; [exact I|exact IH]).
    right. exists s. apply list_elem_of_here.
  - right. exists s. apply list_elem_of_further, Hs.
Qed.

Lemma finite_or_not (xs : list value) :
  (∀ f, Float64 f ∈ xs → is_finite f = true)
  ∨ ∃ f, Float64 f ∈ xs ∧ is_finite f = false.
Proof.
  induction xs as [|x xs [IH|(f & Hf & Hfin)]].
  - left. intros f Hf. inversion Hf.
  - destruct x as [z|z|f|s].
    1, 2, 4: left; intros f' Hf'; apply elem_of_cons in Hf' as [Hf'|Hf'];
      [discriminate Hf'|exact (IH f' Hf')].
    destruct (is_finite f) eqn:Hfin.
    + left. intros f' Hf'. apply elem_of_cons in Hf' as [[= ->]|Hf'];
        [exact Hfin|exact (IH f' Hf')].
    + right. exists f. split; [apply list_elem_of_here|exact Hfin].
  - right. exists f. split; [apply list_elem_of_further, Hf|exact Hfin].
Qed.

Lemma infinity_or_not (xs : list value) :
  Float64 (S754_infinity false) ∈ xs ∨ Float64 (S754_infinity false) ∉ xs.
Proof.
  induction xs as [|x xs [IH|IH]].
  - right. intros H. inversion H.
  - left. apply list_elem_of_further, IH.
  - destruct x as [z|z|f|s].
    1, 2, 4: right; intros H; apply elem_of_cons in H as [H|H];
      [discriminate H|exact (IH H)].
    destruct f as [s|[]| |s m e].
    1, 2, 4, 5: right; intros H; apply elem_of_cons in H as [H|H];
      [discriminate H|exact (IH H)].
    left. apply list_elem_of_here.
Qed.

(** [int] on a stored number raises only on NaN and the infinities. *)
Lemma int_stored (v : value) :
  stored v → number v →
  (∀ f, v = Float64 f → is_finite f = true) →
  ∃ k, int int_of_str v = inr k.
Proof.
  destruct v as [z|z|f|s]; cbn; intros Hs Hn Hf; try contradiction; eauto.
  specialize (Hf f eq_refl). destruct f; try discriminate Hf; cbn; eauto.
Qed.

(** A float above 0 is finite or plus infinity. *)
Lemma positive_float (f : spec_float) :
  gt (Float64 f) (PyInt 0) = inr true →
  is_finite f = true ∨ f = S754_infinity false.
Proof. destruct f as [s|[]| |s m e]; cbn; auto; discriminate. Qed.

(** Comparisons only return between two strings or two numbers. *)
Lemma gt_same_kind (a b : value) (g : bool) :
  gt a b = inr g → (number a ↔ number b).
Proof.
  destruct a as [x|x|f|s], b as [y|y|h|t]; cbn; intros H;
    try discriminate H; tauto.
Qed.

Lemma max2_same_kind (a b c : value) :
  max2 a b = inr c → (number b ↔ number a) ∧ (number c ↔ number a).
Proof.
  unfold max2. intros H. apply bind_inr in H as (g & Hg & H).
  pose proof (gt_same_kind b a g Hg) as Hk.
  destruct g; injection H as <-; tauto.
Qed.

Lemma max_from_same_kind (m m' : value) (xs : list value) :
  max_from m xs = inr m' →
  (number m' ↔ number m) ∧ Forall (λ x, number x ↔ number m) xs.
Proof.
  revert m. induction xs as [|x xs IH]; intros m; cbn [max_from].
  - intros [= <-]. split; [tauto|constructor].
  - intros H. apply bind_inr in H as (m1 & H2 & Hrest).
    destruct (max2_same_kind _ _ _ H2) as [Hx H1].
    destruct (IH m1 Hrest) as [Hm' Hall].
    split; [tauto|]. constructor; [exact Hx|].
    eapply Forall_impl; [exact Hall|]. cbv beta. tauto.
Qed.

Lemma max_same_kind (xs : list value) (m : value) :
  max xs = inr m → xs ≠ [] ∧ Forall (λ x, number x ↔ number m) xs.
Proof.
  destruct xs as [|x xs]; [discriminate|]. cbn [max]. intros H.
  destruct (max_from_same_kind _ _ _ H) as [Hm Hall].
  split; [discriminate|]. constructor; [tauto|].
  eapply Forall_impl; [exact Hall|]. cbv beta. tauto.
Qed.

Lemma mul_float_number (v : value) (c f : spec_float) :
  mul_float v c = inr f → number v.
Proof. destruct v; try (intros _; exact I). discriminate. Qed.

(** A chart that is built has two non-empty series of numbers, no total
    that is NaN or infinite and no affordable value that is plus
    infinity. *)
Lemma grouped_chart_built_series (d : gmap string (list value))
    (fig : Figure value) :
  create_total_feasibility_chart_grouped int_of_str scenario_names d color
  = inr fig →
  ∃ total affordable,
    d !! "Total Units" = Some total
    ∧ d !! "Affordable Units" = Some affordable
    ∧ ¬ series_raise total affordable.
Proof.
  intros Hfig.
  destruct (grouped_chart_inr int_of_str scenario_names color d fig Hfig)
    as (total & affordable & tt & mv & md & disp & at' & Ht & Ha & Htt
        & Hmv & Hmd & Hdisp & Hat & _).
  exists total, affordable. split; [exact Ht|]. split; [exact Ha|].
  destruct (max_value_inr d mv Hmv)
    as (total' & affordable' & mt & ma & Ht' & Ha' & Hmt & Hma & Hm2 & _).
  rewrite Ht in Ht'. rewrite Ha in Ha'.
  injection Ht' as <-. injection Ha' as <-.
  destruct (max_same_kind _ _ Hmt) as [Htne Hkt].
  destruct (max_same_kind _ _ Hma) as [Hane Hka].
  destruct (max2_same_kind _ _ _ Hm2) as [Hkma Hkmv].
  pose proof (mul_float_number _ _ _ Hmd) as Hnmv.
  intros [H|[H|[(s & Hs)|[(f & Hf & Hfin)|Hinf]]]].
  - exact (Htne H).
  - exact (Hane H).
  - apply elem_of_app in Hs as [Hs|Hs].
    + pose proof (proj1 (Forall_forall _ _) Hkt _ Hs) as Hk. cbn in Hk. tauto.
    + pose proof (proj1 (Forall_forall _ _) Hka _ Hs) as Hk. cbn in Hk. tauto.
  - apply list_elem_of_lookup in Hf as [i Hi].
    destruct (mapM_inr_lookup _ _ _ _ _ Htt Hi) as (l & _ & Hl).
    unfold int_label in Hl. apply bind_inr in Hl as (k & Hk & _).
    destruct f; try discriminate Hfin; discriminate Hk.
  - apply list_elem_of_lookup in Hinf as [i Hi].
    destruct (mapM_inr_lookup _ _ _ _ _ Hat Hi) as (l & _ & Hl).
    discriminate Hl.
Qed.

(** Two series of stored values from which the chart is not kept give
    it. *)
Lemma grouped_chart_stored_returns (d : gmap string (list value))
    (total affordable : list value) :
  d !! "Total Units" = Some total →
  d !! "Affordable Units" = Some affordable →
  Forall stored total → Forall stored affordable →
  (∃ fig,
     create_total_feasibility_chart_grouped int_of_str scenario_names d color
     = inr fig)
  ∨ series_raise total affordable.
Proof.
  intros Ht Ha Hst Hsa. unfold series_raise.
  destruct total as [|t0 total0] eqn:Htot; [auto|]. rewrite <- Htot in *.
  destruct affordable as [|a0 affordable0] eqn:Haff; [auto|].
  rewrite <- Haff in *.
  assert (total ≠ []) as Htne by (rewrite Htot; discriminate).
  assert (affordable ≠ []) as Hane by (rewrite Haff; discriminate).
  destruct (number_or_str (total ++ affordable)) as [Hnum|Hstr]; [|auto].
  apply Forall_app in Hnum as [Hnt Hna].
  destruct (finite_or_not total) as [Hfin|Hnf]; [|auto 6].
  destruct (infinity_or_not affordable) as [Hinf|Hni]; [auto 6|].
  left. apply (grouped_chart_is_built d total affordable Ht Ha Htne Hane).
  - apply Forall_forall. intros v Hv. apply stored_convertible.
    + exact (proj1 (Forall_forall _ _) Hst v Hv).
    + exact (proj1 (Forall_forall _ _) Hnt v Hv).
  - apply Forall_forall. intros v Hv. apply stored_convertible.
    + exact (proj1 (Forall_forall _ _) Hsa v Hv).
    + exact (proj1 (Forall_forall _ _) Hna v Hv).
  - intros v Hv. apply int_stored.
    + exact (proj1 (Forall_forall _ _) Hst v Hv).
    + exact (proj1 (Forall_forall _ _) Hnt v Hv).
    + intros f ->. exact (Hfin f Hv).
  - intros v Hv Hpos. apply int_stored.
    + exact (proj1 (Forall_forall _ _) Hsa v Hv).
    + exact (proj1 (Forall_forall _ _) Hna v Hv).
    + intros f ->. destruct (positive_float f Hpos) as [H| ->]; [exact H|].
      destruct (Hni Hv).
Qed.

End GroupedChartRaises.

(** X13.  The grouped chart raises, for a dict whose two series hold values as
    records store them, exactly when one of the two keys is missing, one of
    the two lists is empty, one of the values is a string, a total is NaN or
    infinite, or an affordable value is plus infinity; the list of scenario
    names plays no part, whatever its length. *)
Theorem grouped_chart_raises_iff
    (int_of_str : string → raises Z) (scenario_names : list string)
    (d : gmap string (list value)) (color : string) :
  (∀ l, d !! "Total Units" = Some l → Forall stored l) →
  (∀ l, d !! "Affordable Units" = Some l → Forall stored l) →
  (∃ e, create_total_feasibility_chart_grouped int_of_str scenario_names
          d color = inl e)
  ↔ d !! "Total Units" = None ∨ d !! "Affordable Units" = None
    ∨ ∃ total affordable,
        d !! "Total Units" = Some total
        ∧ d !! "Affordable Units" = Some affordable
        ∧ series_raise total affordable.
Proof.
  intros Hst Hsa. split.
  - intros [e He].
    destruct (d !! "Total Units") as [total|] eqn:Ht; [|auto].
    destruct (d !! "Affordable Units") as [affordable|] eqn:Ha; [|auto].
    right. right. exists total, affordable.
    split; [reflexivity|]. split; [reflexivity|].
    destruct (grouped_chart_stored_returns int_of_str scenario_names color
                d total affordable Ht Ha (Hst _ eq_refl) (Hsa _ eq_refl))
      as [[fig Hfig]|H]; [congruence|exact H].
  - intros Hd.
    destruct (create_total_feasibility_chart_grouped int_of_str
                scenario_names d color) as [e|fig] eqn:Hfig; [eauto|].
    destruct (grouped_chart_built_series int_of_str scenario_names color
                d fig Hfig) as (total & affordable & Ht & Ha & Hno).
    destruct Hd as [H|[H|(total' & affordable' & Ht' & Ha' & H)]];
      [congruence|congruence|].
    rewrite Ht in Ht'. rewrite Ha in Ha'.
    injection Ht' as <-. injection Ha' as <-. destruct (Hno H).
Qed.

Lemma grouped_chart_raises_iff_witness :
  ∃ e, create_total_feasibility_chart_grouped (λ _, raise ValueError)
         ["Unzoned"]
         (<["Affordable Units" := [Int64 0]]>
            {["Total Units" := [Float64 S754_nan]]})
         total_feasibility_color = inl e.
Proof.
  refine (proj2 (grouped_chart_raises_iff (λ _, raise ValueError) ["Unzoned"]
                   (<["Affordable Units" := [Int64 0]]>
                      {["Total Units" := [Float64 S754_nan]]})
                   total_feasibility_color _ _) _).
  - intros l [= <-]. repeat constructor.
  - intros l [= <-]. repeat constructor.
  - right. right. eexists _, _. split; [reflexivity|]. split; [reflexivity|].
    right. right. right. left. exists S754_nan.
    split; [apply list_elem_of_here|reflexivity].
Defined.

(** ** What the loading loop keeps and what it logs *)

Section MachineLoop.

Variable read_csv : string → exn + DataFrame.
Variable describe : error → exn.

Lemma try_body_cases (u label : string) :
  try_body read_csv describe u label
  = match read_csv u with
    | inl e => inl e
    | inr df =>
        match build_record df label with
        | inl e => inl (describe e)
        | inr r => inr r
        end
    end.
Proof. reflexivity. Qed.

Lemma load_result_loaded_from (sc : scenario) :
  result (load_data_from_aggregation_csv read_csv describe
            (Some (url sc)) (name sc))
  = loaded_from read_csv sc.
Proof.
  unfold loaded_from. destruct sc as [[|a u] label]; [reflexivity|].
  cbn [url name]. rewrite bool_decide_eq_false_2 by discriminate.
  unfold load_data_from_aggregation_csv. rewrite try_body_cases.
  destruct (read_csv (String a u)) as [e|df]; [reflexivity|].
  destruct (build_record df label); reflexivity.
Qed.

Lemma load_errors_raised (sc : scenario) :
  length (errors (log (load_data_from_aggregation_csv read_csv describe
                         (Some (url sc)) (name sc))))
  = if raised read_csv sc then 2%nat else 0%nat.
Proof.
  unfold raised. destruct sc as [[|a u] label]; [reflexivity|].
  cbn [url name]. rewrite bool_decide_eq_false_2 by discriminate.
  unfold load_data_from_aggregation_csv. rewrite try_body_cases.
  destruct (read_csv (String a u)) as [e|df]; [reflexivity|].
  destruct (build_record df label); reflexivity.
Qed.

Lemma load_reads (u : string) (label : string) :
  reads (log (load_data_from_aggregation_csv read_csv describe
                (Some u) label))
  = if decide (u ≠ EmptyString) then [u] else [].
Proof.
  destruct u as [|a u]; [reflexivity|].
  rewrite decide_True by discriminate.
  unfold load_data_from_aggregation_csv.
  destruct (try_body read_csv describe (String a u) label); reflexivity.
Qed.

Lemma load_events (u : option string) (label : string) :
  Forall loader_event
    (log (load_data_from_aggregation_csv read_csv describe u label)).
Proof.
  destruct u as [[|a u]|]; try constructor.
  unfold load_data_from_aggregation_csv.
  destruct (try_body read_csv describe (String a u) label);
    repeat constructor.
Qed.

Lemma append_if_option (all_data : list ScenarioRecord)
    (data : option ScenarioRecord) :
  append_if all_data data = all_data ++ option_list data.
Proof. destruct data; simpl; [reflexivity|rewrite app_nil_r; reflexivity]. Qed.

Lemma loop_result (scs : list scenario) (all_data : list ScenarioRecord) :
  result (load_scenarios read_csv describe scs all_data)
  = all_data ++ omap (loaded_from read_csv) scs.
Proof.
  revert all_data. induction scs as [|sc scs IH]; intros all_data.
  - simpl. rewrite app_nil_r. reflexivity.
  - cbn [load_scenarios]. rewrite result_bind, IH, load_result_loaded_from.
    rewrite append_if_option, <- app_assoc. f_equal.
    cbn [omap list_omap]. destruct (loaded_from read_csv sc); reflexivity.
Qed.

Lemma loop_errors (scs : list scenario) (all_data : list ScenarioRecord) :
  length (errors (log (load_scenarios read_csv describe scs all_data)))
  = (2 * length (filter (λ sc, raised read_csv sc = true) scs))%nat.
Proof.
  revert all_data. induction scs as [|sc scs IH]; intros all_data.
  - reflexivity.
  - cbn [load_scenarios].
    rewrite log_bind, errors_app, length_app, IH, load_errors_raised.
    rewrite filter_cons. destruct (raised read_csv sc); case_decide;
      try congruence; simpl; lia.
Qed.

Lemma loop_reads (scs : list scenario) (all_data : list ScenarioRecord) :
  reads (log (load_scenarios read_csv describe scs all_data))
  = filter (λ u, u ≠ EmptyString) (url <$> scs).
Proof.
  revert all_data. induction scs as [|sc scs IH]; intros all_data.
  - reflexivity.
  - cbn [load_scenarios]. rewrite log_bind, reads_app, IH, load_reads.
    rewrite fmap_cons, filter_cons. case_decide; reflexivity.
Qed.

Lemma loop_events (scs : list scenario) (all_data : list ScenarioRecord) :
  Forall loader_event
    (log (load_scenarios read_csv describe scs all_data)).
Proof.
  revert all_data. induction scs as [|sc scs IH]; intros all_data.
  - constructor.
  - cbn [load_scenarios]. rewrite log_bind. apply Forall_app.
    split; [apply load_events|apply IH].
Qed.

(** Loading the baseline is one more turn of the loop. *)
Lemma load_all_as_loop (unzoned : string) (scs : list scenario) :
  load_all read_csv describe unzoned scs
  = load_scenarios read_csv describe (baseline unzoned :: scs) [].
Proof.
  unfold load_all. cbn [load_scenarios baseline url name].
  destruct unzoned as [|a u].
  - cbn [Py.truthy]. reflexivity.
  - cbn [Py.truthy].
    destruct (load_data_from_aggregation_csv read_csv describe
                (Some (String a u)) "Unzoned") as [l data].
    unfold mbind, run_bind, mret, run_ret.
    destruct (load_scenarios read_csv describe scs (append_if [] data))
      as [l2 b].
    rewrite app_nil_r. reflexivity.
Qed.

Lemma loaded_from_name (sc : scenario) (r : ScenarioRecord) :
  loaded_from read_csv sc = Some r → scenario_name r = name sc.
Proof.
  unfold loaded_from. case_bool_decide; [discriminate|].
  destruct (read_csv (url sc)) as [|df]; [discriminate|].
  destruct (build_record df (name sc)) as [|r'] eqn:Hb; [discriminate|].
  intros [= <-]. apply build_record_inr in Hb. tauto.
Qed.

Lemma loaded_from_loaded (sc : scenario) (r : ScenarioRecord) :
  loaded_from read_csv sc = Some r → loaded r.
Proof.
  unfold loaded_from. case_bool_decide; [discriminate|].
  destruct (read_csv (url sc)) as [|df]; [discriminate|].
  destruct (build_record df (name sc)) as [|r'] eqn:Hb; [discriminate|].
  intros [= <-]. exists df, (name sc). exact Hb.
Qed.

Lemma loaded_from_names (scs : list scenario) :
  scenario_name <$> omap (loaded_from read_csv) scs `sublist_of` name <$> scs.
Proof.
  induction scs as [|sc scs IH]; [constructor|].
  cbn [omap list_omap]. destruct (loaded_from read_csv sc) as [r|] eqn:Hp.
  - rewrite !fmap_cons, (loaded_from_name sc r Hp). constructor. exact IH.
  - rewrite fmap_cons. constructor. exact IH.
Qed.

Lemma loaded_from_all (scs : list scenario) :
  Forall loaded (omap (loaded_from read_csv) scs).
Proof.
  apply Forall_forall. intros r Hr.
  apply list_elem_of_omap in Hr as (sc & _ & Hp).
  exact (loaded_from_loaded sc r Hp).
Qed.

Lemma loaded_or_raised_cases (sc : scenario) :
  (url sc = EmptyString ∧ loaded_from read_csv sc = None
   ∧ raised read_csv sc = false)
  ∨ (url sc ≠ EmptyString ∧ is_Some (loaded_from read_csv sc)
     ∧ raised read_csv sc = false)
  ∨ (url sc ≠ EmptyString ∧ loaded_from read_csv sc = None
     ∧ raised read_csv sc = true).
Proof.
  unfold loaded_from, raised. case_bool_decide as Hu; cbn [negb andb].
  - left. auto.
  - right. destruct (read_csv (url sc)) as [e|df]; [right; auto|].
    destruct (build_record df (name sc)); [right|left]; eauto.
Qed.

Lemma loaded_or_raised (scs : list scenario) :
  (length (omap (loaded_from read_csv) scs)
   + length (filter (λ sc, raised read_csv sc = true) scs)
   = length (filter (λ u, u ≠ EmptyString) (url <$> scs)))%nat.
Proof.
  induction scs as [|sc scs IH]; [reflexivity|].
  cbn [omap list_omap]. rewrite fmap_cons, !filter_cons.
  destruct (loaded_or_raised_cases sc)
    as [(Hu & Hp & Hf)|[(Hu & [r Hp] & Hf)|(Hu & Hp & Hf)]]; rewrite Hp.
  - rewrite (decide_False (P := raised read_csv sc = true))
      by (rewrite Hf; discriminate).
    rewrite (decide_False (P := url sc ≠ EmptyString))
      by (intros H; exact (H Hu)).
    exact IH.
  - rewrite (decide_False (P := raised read_csv sc = true))
      by (rewrite Hf; discriminate).
    rewrite (decide_True (P := url sc ≠ EmptyString)) by exact Hu.
    simpl. lia.
  - rewrite (decide_True (P := raised read_csv sc = true)) by exact Hf.
    rewrite (decide_True (P := url sc ≠ EmptyString)) by exact Hu.
    simpl. lia.
Qed.

End MachineLoop.

(** X7.  The records of a page load are those of the sources that have a
    non-empty locator, parse, and raise nothing in the body of the [try]
    block, baseline first and scenarios in list order; a source that fails
    in either way is left out without disturbing the others, so the names of
    the records are an ordered selection of the names of the sources. *)
Theorem load_all_keeps_loaded
    (read_csv : string → exn + DataFrame) (describe : error → exn)
    (unzoned : string) (scs : list scenario) :
  result (load_all read_csv describe unzoned scs)
  = omap (loaded_from read_csv) (baseline unzoned :: scs)
  ∧ scenario_name <$> result (load_all read_csv describe unzoned scs)
    `sublist_of` "Unzoned" :: (name <$> scs)
  ∧ Forall loaded (result (load_all read_csv describe unzoned scs)).
Proof.
  rewrite load_all_as_loop, loop_result, app_nil_l.
  split; [reflexivity|]. split.
  - apply (loaded_from_names read_csv (baseline unzoned :: scs)).
  - apply loaded_from_all.
Qed.

(** X8.  A page load reads every source with a non-empty locator exactly
    once, in order, whether or not earlier sources failed; it reports two
    errors for each source on which the [try] block raises, in the read or
    in an operator on the cells, and none otherwise; every attempted source
    ends up either as a record or as such a failure. *)
Theorem load_all_log
    (read_csv : string → exn + DataFrame) (describe : error → exn)
    (unzoned : string) (scs : list scenario) :
  let m := load_all read_csv describe unzoned scs in
  let failures := filter (λ sc, raised read_csv sc = true)
                    (baseline unzoned :: scs) in
  reads (log m) = filter (λ u, u ≠ EmptyString) (unzoned :: (url <$> scs))
  ∧ length (errors (log m)) = (2 * length failures)%nat
  ∧ (length (result m) + length failures = length (reads (log m)))%nat.
Proof.
  cbv zeta.
  rewrite load_all_as_loop, loop_reads, loop_errors, loop_result.
  split; [reflexivity|]. split; [reflexivity|].
  rewrite app_nil_l.
  apply (loaded_or_raised read_csv (baseline unzoned :: scs)).
Qed.

(** ** The page *)

Section MachinePage.

(** The stacked chart is built whenever every record has an entry for
    every category and every category has a colour. *)
Lemma stacked_chart_is_built (all_data : list ScenarioRecord)
    (categories : list string) (data_key : string)
    (colors : gmap string string) (sel : ScenarioRecord → list Z) :
  (∀ k, category_values all_data data_key k
        = mapM (λ d, sel d !! k) all_data) →
  Forall (λ d, length categories ≤ length (sel d))%nat all_data →
  Forall (λ c, is_Some (colors !! c)) categories →
  is_Some (create_multi_scenario_stacked_chart
             all_data categories data_key colors).
Proof.
  intros Hsel Hlen Hcol. unfold create_multi_scenario_stacked_chart.
  assert (is_Some (mapM (λ ic : nat * string,
                      stacked_trace all_data data_key colors ic.1 ic.2)
                     (imap pair categories))) as [bars Hbars].
  { apply mapM_is_Some_2, Forall_forall. intros [i c] Hic.
    apply list_elem_of_lookup in Hic as [k Hk].
    rewrite list_lookup_imap in Hk.
    destruct (categories !! k) as [c0|] eqn:Hc; [|discriminate].
    cbn in Hk. injection Hk as <- <-.
    cbn. unfold stacked_trace.
    assert (is_Some (category_values all_data data_key k)) as [vs Hvs].
    { rewrite Hsel. apply mapM_is_Some_2. eapply Forall_impl; [exact Hlen|].
      intros d Hd. cbn. apply lookup_lt_is_Some.
      apply lookup_lt_Some in Hc. cbv beta in Hd. lia. }
    rewrite Hvs. cbn [mbind option_bind].
    destruct (proj1 (Forall_forall _ _) Hcol c0) as [col Hcolc].
    { apply list_elem_of_lookup. eauto. }
    rewrite Hcolc. cbn [mbind option_bind]. eauto. }
  rewrite Hbars. cbn [mbind option_bind]. eauto.
Qed.

Lemma percentages_length_inr (cells : list value) (pct : list Z) :
  percentages cells = inr pct → length pct = length cells.
Proof.
  intros H. apply percentages_inr in H as (total & _ & Hmap).
  exact (mapM_inr_length _ _ _ Hmap).
Qed.

Lemma loaded_pct_lengths (r : ScenarioRecord) :
  loaded r →
  length (income_pct r) = 6%nat ∧ length (bedroom_pct r) = 4%nat
  ∧ length (parking_pct r) = 5%nat.
Proof.
  intros (df & label & Hb).
  apply build_record_inr in Hb as (Hip & Hbp & Hpp & _).
  apply percentages_length_inr in Hip, Hbp, Hpp.
  rewrite length_fmap in Hip, Hbp, Hpp. auto.
Qed.

(** For records of the loader the three stacked charts are built. *)
Lemma stacked_charts_loaded (all_data : list ScenarioRecord) :
  Forall loaded all_data →
  is_Some (create_multi_scenario_stacked_chart all_data income_brackets
             "income_pct" income_bracket_colors)
  ∧ is_Some (create_multi_scenario_stacked_chart all_data bedroom_counts
               "bedroom_pct" bedroom_count_colors)
  ∧ is_Some (create_multi_scenario_stacked_chart all_data parking_types
               "parking_pct" parking_type_colors).
Proof.
  intros Hall. destruct colors_cover as (Hci & Hcb & Hcp).
  split; [|split].
  - apply (stacked_chart_is_built _ _ _ _ income_pct);
      [intros k; reflexivity| |exact Hci].
    eapply Forall_impl; [exact Hall|]. intros r Hr. cbv beta.
    destruct (loaded_pct_lengths r Hr) as (-> & _ & _). simpl. lia.
  - apply (stacked_chart_is_built _ _ _ _ bedroom_pct);
      [intros k; reflexivity| |exact Hcb].
    eapply Forall_impl; [exact Hall|]. intros r Hr. cbv beta.
    destruct (loaded_pct_lengths r Hr) as (_ & -> & _). simpl. lia.
  - apply (stacked_chart_is_built _ _ _ _ parking_pct);
      [intros k; reflexivity| |exact Hcp].
    eapply Forall_impl; [exact Hall|]. intros r Hr. cbv beta.
    destruct (loaded_pct_lengths r Hr) as (_ & _ & ->). simpl. lia.
Qed.

Lemma total_data_lookups (all_data : list ScenarioRecord) :
  total_data_of all_data !! "Total Units" = Some (total_units <$> all_data)
  ∧ total_data_of all_data !! "Affordable Units"
    = Some (affordable_units <$> all_data).
Proof.
  unfold total_data_of. split.
  - rewrite lookup_insert_ne by discriminate. apply lookup_singleton_eq.
  - apply lookup_insert_eq.
Qed.

Variable read_csv : string → exn + DataFrame.
Variable describe : error → exn.
Variable int_of_str : string → raises Z.
Variable unquote : string → string.
Variable params : gmap string string.

Hypothesis read_csv_stored : tables_stored read_csv.

(** The totals of the records of a page are stored values. *)
Lemma loaded_from_totals (scs : list scenario) :
  Forall (λ r, stored (total_units r) ∧ stored (affordable_units r))
    (omap (loaded_from read_csv) scs).
Proof.
  apply Forall_forall. intros r Hr.
  apply list_elem_of_omap in Hr as (sc & _ & Hp).
  unfold loaded_from in Hp. case_bool_decide; [discriminate|].
  destruct (read_csv (url sc)) as [|df] eqn:Hread; [discriminate|].
  destruct (build_record df (name sc)) as [|r'] eqn:Hb; [discriminate|].
  injection Hp as <-.
  apply build_record_inr in Hb as (_ & _ & _ & _ & _ & _ & _ & -> & ->).
  split; apply get_value_stored, (read_csv_stored _ _ Hread).
Qed.

(** What the four chart calls come to on the records of a page. *)
Lemma render_cases (scs : list scenario) :
  let recs := omap (loaded_from read_csv) scs in
  match
    create_total_feasibility_chart_grouped int_of_str
      (scenario_name <$> recs) (total_data_of recs) total_feasibility_color
  with
  | inl _ =>
      render int_of_str recs = Raised
      ∧ (recs = []
         ∨ series_raise (total_units <$> recs) (affordable_units <$> recs))
  | inr t =>
      ¬ series_raise (total_units <$> recs) (affordable_units <$> recs)
      ∧ ∃ d, render int_of_str recs = Rendered d
           ∧ fig_total d = t
           ∧ create_multi_scenario_stacked_chart recs income_brackets
               "income_pct" income_bracket_colors = Some (fig_income d)
           ∧ create_multi_scenario_stacked_chart recs bedroom_counts
               "bedroom_pct" bedroom_count_colors = Some (fig_bedrooms d)
           ∧ create_multi_scenario_stacked_chart recs parking_types
               "parking_pct" parking_type_colors = Some (fig_parking d)
  end.
Proof.
  cbv zeta. set (recs := omap (loaded_from read_csv) scs).
  destruct (total_data_lookups recs) as [Ht Ha].
  pose proof (loaded_from_totals scs) as Hst. fold recs in Hst.
  assert (Forall stored (total_units <$> recs)) as Hstt.
  { apply Forall_fmap. eapply Forall_impl; [exact Hst|]. intros r Hr. apply Hr. }
  assert (Forall stored (affordable_units <$> recs)) as Hsta.
  { apply Forall_fmap. eapply Forall_impl; [exact Hst|]. intros r Hr. apply Hr. }
  destruct (stacked_charts_loaded recs (loaded_from_all read_csv scs))
    as ([fi Hfi] & [fb Hfb] & [fp Hfp]).
  unfold render. cbv zeta.
  destruct (create_total_feasibility_chart_grouped int_of_str
              (scenario_name <$> recs) (total_data_of recs)
              total_feasibility_color) as [e|t] eqn:Hfig.
  - split; [reflexivity|]. right.
    destruct (grouped_chart_stored_returns int_of_str
                (scenario_name <$> recs) total_feasibility_color
                (total_data_of recs) _ _ Ht Ha Hstt Hsta)
      as [[fig Hfig']|H]; [congruence|exact H].
  - split.
    + destruct (grouped_chart_built_series int_of_str
                  (scenario_name <$> recs) total_feasibility_color
                  (total_data_of recs) t Hfig)
        as (total & affordable & Ht' & Ha' & Hno).
      rewrite Ht in Ht'. rewrite Ha in Ha'.
      injection Ht' as <-. injection Ha' as <-. exact Hno.
    + rewrite Hfi, Hfb, Hfp. eexists. split; [reflexivity|].
      cbn [fig_total fig_income fig_bedrooms fig_parking]. auto.
Qed.

(** The run of the script once the first validation is passed. *)
Lemma machine_main_after_validation :
  Py.truthy (Some (unzoned_csv_url unquote params)) = true
  ∨ zoned_scenarios unquote params ≠ [] →
  let recs := omap (loaded_from read_csv) (sources unquote params) in
  log (main read_csv describe int_of_str unquote params)
  = log (load_all read_csv describe (unzoned_csv_url unquote params)
           (zoned_scenarios unquote params))
    ++ match recs with [] => no_data_tail | _ => [] end
  ∧ result (main read_csv describe int_of_str unquote params)
    = match recs with [] => Stopped | _ => render int_of_str recs end.
Proof.
  intros Hsrc. cbv zeta. unfold main. cbv zeta.
  assert (negb (Py.truthy (Some (unzoned_csv_url unquote params)))
          && bool_decide (zoned_scenarios unquote params = []) = false)
    as ->.
  { destruct Hsrc as [-> | Hne]; [reflexivity|].
    rewrite (bool_decide_eq_false_2 _ Hne). apply andb_false_r. }
  rewrite log_bind, result_bind.
  rewrite load_all_as_loop, loop_result, app_nil_l.
  fold (sources unquote params).
  destruct (omap (loaded_from read_csv) (sources unquote params));
    split; reflexivity.
Qed.

(** The run of the script when the first validation fails. *)
Lemma machine_main_without_sources :
  Py.truthy (Some (unzoned_csv_url unquote params)) = false →
  zoned_scenarios unquote params = [] →
  result (main read_csv describe int_of_str unquote params) = Stopped
  ∧ EvStop ∈ log (main read_csv describe int_of_str unquote params)
  ∧ omap (loaded_from read_csv) (sources unquote params) = [].
Proof.
  intros Hu Hz. unfold main. cbv zeta. rewrite Hu, Hz.
  split; [reflexivity|]. split.
  - cbn. do 2 apply list_elem_of_further. apply list_elem_of_here.
  - unfold sources. rewrite Hz. cbn [omap list_omap]. unfold loaded_from.
    cbn [baseline url].
    destruct (unzoned_csv_url unquote params); [reflexivity|discriminate].
Qed.

End MachinePage.

Lemma table_of_stored (cells : list (string * value)) :
  Forall (λ cell, stored cell.2) cells → cells_stored (table_of cells).
Proof.
  intros Hall row column Hrow. apply list_elem_of_singleton in Hrow.
  subst row. unfold row_of.
  destruct ((list_to_map cells : gmap string value) !! column) as [v|] eqn:Hv;
    [|exact I].
  apply elem_of_list_to_map_2 in Hv.
  exact (proj1 (Forall_forall _ _) Hall _ Hv).
Qed.

(** X12.  How a page load ends, when the tables hold numpy scalars and
    strings.  It stops, after [st.stop()], exactly when no source gave a
    record.  Otherwise nothing stops it, and it ends in an uncaught
    exception of the grouped chart exactly when a total or an affordable
    number of some record is a string, a total is NaN (a blank cell) or
    infinite, or an affordable number is plus infinity; in every other case
    it renders the four charts built from the records of the sources that
    gave one. *)
Theorem page_outcome
    (read_csv : string → exn + DataFrame) (describe : error → exn)
    (int_of_str : string → raises Z) (unquote : string → string)
    (params : gmap string string) :
  tables_stored read_csv →
  let recs := omap (loaded_from read_csv) (sources unquote params) in
  let m := main read_csv describe int_of_str unquote params in
  (result m = Stopped ↔ recs = [])
  ∧ (EvStop ∈ log m ↔ recs = [])
  ∧ (result m = Raised ↔
       recs ≠ []
       ∧ series_raise (total_units <$> recs) (affordable_units <$> recs))
  ∧ (∀ d, result m = Rendered d →
       create_total_feasibility_chart_grouped int_of_str
         (scenario_name <$> recs) (total_data_of recs)
         total_feasibility_color = inr (fig_total d)
       ∧ create_multi_scenario_stacked_chart recs income_brackets
           "income_pct" income_bracket_colors = Some (fig_income d)
       ∧ create_multi_scenario_stacked_chart recs bedroom_counts
           "bedroom_pct" bedroom_count_colors = Some (fig_bedrooms d)
       ∧ create_multi_scenario_stacked_chart recs parking_types
           "parking_pct" parking_type_colors = Some (fig_parking d)).
Proof.
  intros Hstored. cbv zeta.
  destruct (Py.truthy (Some (unzoned_csv_url unquote params))) eqn:Htruthy;
    [|destruct (decide (zoned_scenarios unquote params = [])) as [Hz|Hz]].
  2: { destruct (machine_main_without_sources read_csv describe int_of_str
                   unquote params Htruthy Hz) as (Hres & Hstop & Hrecs).
       rewrite Hres, Hrecs. split; [tauto|]. split; [tauto|].
       split; [|discriminate]. split; [discriminate|]. intros [H _]. congruence. }
  all: (destruct (machine_main_after_validation read_csv describe int_of_str
                    unquote params) as [Hlog Hres]; [auto|]).
  all: rewrite Hres, Hlog.
  all: pose proof (render_cases read_csv int_of_str Hstored
                     (sources unquote params)) as Hrender.
  all: cbv zeta in Hrender.
  all: destruct (omap (loaded_from read_csv) (sources unquote params))
         as [|r recs] eqn:Hrecs.
  all: try (split; [tauto|]; split;
            [split; [reflexivity|]; intros _; apply elem_of_app; right;
             apply list_elem_of_further, list_elem_of_here|];
            split; [|discriminate]; split; [discriminate|];
            intros [H _]; congruence).
  all: assert (EvStop ∉ log (load_all read_csv describe
                               (unzoned_csv_url unquote params)
                               (zoned_scenarios unquote params)) ++ [])
         as Hnostop
         by (rewrite app_nil_r, load_all_as_loop; intros Hin;
             exact (proj1 (Forall_forall _ _)
                      (loop_events read_csv describe _ []) _ Hin)).
  all: destruct (create_total_feasibility_chart_grouped int_of_str
                   (scenario_name <$> r :: recs) (total_data_of (r :: recs))
                   total_feasibility_color) as [e|t] eqn:Hfig.
  all: try (destruct Hrender as [Hraised [Hnil|Hseries]]; [discriminate Hnil|];
            rewrite Hraised;
            split; [split; discriminate|];
            split; [split; [intros H; destruct (Hnostop H)|discriminate]|];
            split; [split; [intros _; split; [discriminate|exact Hseries]
                           |reflexivity]|];
            discriminate).
  all: destruct Hrender as (Hno & d & Hd & Ht & Hfigs); rewrite Hd.
  all: split; [split; discriminate|].
  all: split; [split; [intros H; destruct (Hnostop H)|discriminate]|].
  all: split; [split; [discriminate|intros [_ H]; destruct (Hno H)]|].
  all: intros d' [= <-]; rewrite Ht; split; [reflexivity|exact Hfigs].
Qed.

Lemma page_outcome_witness :
  result (main (serve blank_total_df) by_name (λ _, raise ValueError) id ∅)
  = Raised
  ∧ ∃ d, result (main (serve thirds_df) by_name (λ _, raise ValueError) id ∅)
         = Rendered d.
Proof.
  split.
  - apply (page_outcome (serve blank_total_df) by_name
             (λ _, raise ValueError) id ∅).
    + intros u df [= <-]. apply table_of_stored. repeat constructor.
    + split; [vm_compute; discriminate|].
      right. right. right. left. exists S754_nan.
      split; [vm_compute; apply list_elem_of_here|reflexivity].
  - destruct (result (main (serve thirds_df) by_name
                        (λ _, raise ValueError) id ∅)) as [| |d] eqn:Hres.
    + apply (page_outcome (serve thirds_df) by_name
               (λ _, raise ValueError) id ∅) in Hres.
      * vm_compute in Hres. discriminate Hres.
      * intros u df [= <-]. apply table_of_stored. repeat constructor.
    + apply (page_outcome (serve thirds_df) by_name
               (λ _, raise ValueError) id ∅) in Hres.
      * destruct Hres as [_ Hs]. vm_compute in Hs.
        destruct Hs as [H|[H|[(s & H)|[(f & H & Hf)|H]]]];
          try discriminate H;
          repeat (apply elem_of_cons in H as [H|H]; [discriminate H|]);
          inversion H.
      * intros u df [= <-]. apply table_of_stored. repeat constructor.
    + eauto.
Defined.
